(** * Radio telemetry and log-relay engine of N5ZY Co-Pilot

    A shallow embedding of [src/modules/radio_updater.py] (class
    [RadioUpdater]): the WSJT-X wire codec, the heartbeat registry, the
    duplicate filter, the relay worker and the jt9 process watchdog,
    followed by the properties the specification states about them.

    Conventions.  Python [int] is [Z]; [bytes] is [list byte]; [str] is a
    list of Unicode code points ([list Z]); a raised exception is the
    [Raise] branch of [result]; printing, sleeping, socket and file
    operations are recorded, in program order, in a trace of [Effect]s. *)

From Stdlib Require Import ZArith List Lia Bool String Ascii.
From Stdlib Require Import Strings.Byte DecimalString.
From stdpp Require Import base option list gmap.

Open Scope Z_scope.

(** ** Python values *)

Definition pystr := list Z.
Definition bytes := list byte.

(** A [str] literal, written as a Rocq string of ASCII characters. *)
Definition str (s : string) : pystr :=
  map (fun a => Z.of_nat (nat_of_ascii a)) (list_ascii_of_string s).

Definition len {A} (l : list A) : Z := Z.of_nat (length l).

(** A [dict], in the order of insertion: [d.get(k)] and [d[k] = v]. *)
Fixpoint dict_get {K V} `{EqDecision K} (d : list (K * V)) (k : K) : option V :=
  match d with
  | [] => None
  | (k', v) :: d' => if decide (k' = k) then Some v else dict_get d' k
  end.

(** An existing key keeps its place, a new key goes last. *)
Fixpoint dict_set {K V} `{EqDecision K} (d : list (K * V)) (k : K) (v : V)
  : list (K * V) :=
  match d with
  | [] => [(k, v)]
  | (k', v') :: d' =>
    if decide (k' = k) then (k, v) :: d' else (k', v') :: dict_set d' k v
  end.

(** The exceptions the modelled code raises or catches. *)
Inductive exn :=
| ValueError (msg : string)
| StructError
| UnicodeDecodeError
| UnicodeEncodeError
| OverflowError.

Inductive result (A : Type) :=
| Ok (a : A)
| Raise (e : exn).
Arguments Ok {A} a.
Arguments Raise {A} e.

Definition bind {A B} (r : result A) (k : A -> result B) : result B :=
  match r with
  | Ok a => k a
  | Raise e => Raise e
  end.

Notation "'do' x <- r ; k" := (bind r (fun x => k))
  (at level 10, x name, r at level 100, k at level 200).
Notation "'do' ( x , y ) <- r ; k" := (bind r (fun p => let '(x, y) := p in k))
  (at level 10, x name, y name, r at level 100, k at level 200).

Definition of_option {A} (e : exn) (o : option A) : result A :=
  match o with
  | Some a => Ok a
  | None => Raise e
  end.

Definition is_ok {A} (r : result A) : bool :=
  match r with Ok _ => true | Raise _ => false end.

(** ** Bytes, slices and [struct] *)

Definition byte_to_Z (b : byte) : Z := Z.of_N (Byte.to_N b).

Definition byte_of_Z (z : Z) : byte :=
  match Byte.of_N (Z.to_N (z mod 256)) with
  | Some b => b
  | None => x00
  end.

(** [data[lo:hi]]: a negative index counts from the end, and both ends are
    clamped to the sequence. *)
Definition norm_index (n i : Z) : Z :=
  if i <? 0 then Z.max 0 (n + i) else Z.min i n.

Definition slice {A} (data : list A) (lo hi : Z) : list A :=
  let lo' := norm_index (len data) lo in
  let hi' := norm_index (len data) hi in
  firstn (Z.to_nat (hi' - lo')) (skipn (Z.to_nat lo') data).

(** [int.to_bytes(n, 'big')] on [k] bytes, most significant byte first. *)
Fixpoint be_bytes (k : nat) (n : Z) : bytes :=
  match k with
  | O => []
  | S k' => be_bytes k' (n / 256) ++ [byte_of_Z n]
  end.

Definition be_value (bs : bytes) : Z :=
  fold_left (fun acc b => acc * 256 + byte_to_Z b) bs 0.

(** [struct.pack] of one unsigned field of [k] bytes ([k = 4] for ['>I']):
    [struct.error] when [n] does not fit. *)
Definition pack_uint (k : nat) (n : Z) : result bytes :=
  if (0 <=? n) && (n <? 256 ^ Z.of_nat k) then Ok (be_bytes k n)
  else Raise StructError.

(** [struct.unpack] of one unsigned field: [struct.error] unless the buffer
    has exactly the size of the field. *)
Definition unpack_uint (k : nat) (bs : bytes) : result Z :=
  if Nat.eqb (length bs) k then Ok (be_value bs) else Raise StructError.

Definition pack_I := pack_uint 4.
Definition unpack_I := unpack_uint 4.
Definition unpack_Q := unpack_uint 8.
Definition unpack_B := unpack_uint 1.

(** ** UTF-8 ([str.encode('utf-8')] and [bytes.decode('utf-8')], strict) *)

Definition is_surrogate (c : Z) : bool := (0xD800 <=? c) && (c <=? 0xDFFF).

Definition utf8_encode_char (c : Z) : option bytes :=
  if c <? 0 then None
  else if c <? 0x80 then Some [byte_of_Z c]
  else if c <? 0x800 then
    Some [byte_of_Z (0xC0 + c / 64); byte_of_Z (0x80 + c mod 64)]
  else if c <? 0x10000 then
    if is_surrogate c then None
    else Some [byte_of_Z (0xE0 + c / 4096);
               byte_of_Z (0x80 + (c / 64) mod 64);
               byte_of_Z (0x80 + c mod 64)]
  else if c <? 0x110000 then
    Some [byte_of_Z (0xF0 + c / 262144);
          byte_of_Z (0x80 + (c / 4096) mod 64);
          byte_of_Z (0x80 + (c / 64) mod 64);
          byte_of_Z (0x80 + c mod 64)]
  else None.

Fixpoint utf8_encode (s : pystr) : option bytes :=
  match s with
  | [] => Some []
  | c :: s' =>
    match utf8_encode_char c, utf8_encode s' with
    | Some bs, Some rest => Some (bs ++ rest)
    | _, _ => None
    end
  end.

(** A continuation byte is [10xxxxxx]. *)
Definition is_cont (x : Z) : bool := (0x80 <=? x) && (x <? 0xC0).

Definition push (c : Z) (o : option pystr) : option pystr :=
  match o with
  | Some s => Some (c :: s)
  | None => None
  end.

(** The strict decoder: overlong forms, surrogates, values above U+10FFFF,
    stray continuation bytes and truncated sequences are all rejected. *)
Fixpoint utf8_decode (bs : bytes) : option pystr :=
  match bs with
  | [] => Some []
  | b0 :: t0 =>
    let x0 := byte_to_Z b0 in
    if x0 <? 0x80 then push x0 (utf8_decode t0)
    else if x0 <? 0xC2 then None
    else if x0 <? 0xE0 then
      match t0 with
      | b1 :: t1 =>
        let x1 := byte_to_Z b1 in
        if is_cont x1
        then push ((x0 - 0xC0) * 64 + (x1 - 0x80)) (utf8_decode t1)
        else None
      | _ => None
      end
    else if x0 <? 0xF0 then
      match t0 with
      | b1 :: b2 :: t2 =>
        let x1 := byte_to_Z b1 in
        let x2 := byte_to_Z b2 in
        let c := (x0 - 0xE0) * 4096 + (x1 - 0x80) * 64 + (x2 - 0x80) in
        if is_cont x1 && is_cont x2 && (0x800 <=? c) && negb (is_surrogate c)
        then push c (utf8_decode t2)
        else None
      | _ => None
      end
    else if x0 <? 0xF5 then
      match t0 with
      | b1 :: b2 :: b3 :: t3 =>
        let x1 := byte_to_Z b1 in
        let x2 := byte_to_Z b2 in
        let x3 := byte_to_Z b3 in
        let c := (x0 - 0xF0) * 262144 + (x1 - 0x80) * 4096
                 + (x2 - 0x80) * 64 + (x3 - 0x80) in
        if is_cont x1 && is_cont x2 && is_cont x3
           && (0x10000 <=? c) && (c <? 0x110000)
        then push c (utf8_decode t3)
        else None
      | _ => None
      end
    else None
  end.

(** ** The WSJT-X codec *)

Definition MAGIC : Z := 0xADBCCBDA.
Definition SCHEMA : Z := 3.

Definition MSG_HEARTBEAT : Z := 0.
Definition MSG_STATUS : Z := 1.
Definition MSG_DECODE : Z := 2.
Definition MSG_CLEAR : Z := 3.
Definition MSG_REPLY : Z := 4.
Definition MSG_QSO_LOGGED : Z := 5.
Definition MSG_CLOSE : Z := 6.
Definition MSG_REPLAY : Z := 7.
Definition MSG_HALT_TX : Z := 8.
Definition MSG_FREE_TEXT : Z := 9.
Definition MSG_WSPR_DECODE : Z := 10.
Definition MSG_LOCATION : Z := 11.
Definition MSG_LOGGED_ADIF : Z := 12.
Definition MSG_HIGHLIGHT_CALLSIGN : Z := 13.

Definition NULL_QSTRING : Z := 0xFFFFFFFF.

(** [_encode_qstring(text)]; [text] may be [None]. *)
Definition _encode_qstring (text : option pystr) : result bytes :=
  match text with
  | None | Some [] => pack_I NULL_QSTRING
  | Some s =>
    do encoded <- of_option UnicodeEncodeError (utf8_encode s);
    do prefix <- pack_I (len encoded);
    Ok (prefix ++ encoded)
  end.

(** [_decode_qstring(data, offset)]. *)
Definition _decode_qstring (data : bytes) (offset : Z) : result (pystr * Z) :=
  if len data <? offset + 4
  then Raise (ValueError "Not enough data for QString length")
  else
    do length <- unpack_I (slice data offset (offset + 4));
    let offset := offset + 4 in
    if length =? NULL_QSTRING then Ok ([], offset)
    else if len data <? offset + length
    then Raise (ValueError "Not enough data for QString content")
    else
      do string <- of_option UnicodeDecodeError
                     (utf8_decode (slice data offset (offset + length)));
      Ok (string, offset + length).

(** [_send_wsjt_location]: the bytes of the LocationChange message. *)
Definition location_message (wsjtx_id grid_square : pystr) : result bytes :=
  do magic <- pack_I MAGIC;
  do schema <- pack_I SCHEMA;
  do type <- pack_I MSG_LOCATION;
  do id <- _encode_qstring (Some wsjtx_id);
  do location <- _encode_qstring (Some grid_square);
  Ok (magic ++ schema ++ type ++ id ++ location).

(** [_parse_packet_header(data)]: [(msg_type, wsjtx_id)].  The header is
    [struct.unpack('>III', data[0:12])]; the schema is read and ignored. *)
Definition _parse_packet_header (data : bytes) : result (Z * pystr) :=
  if len data <? 12 then Raise (ValueError "Packet too short")
  else
    do magic <- unpack_I (slice data 0 4);
    do schema <- unpack_I (slice data 4 8);
    do msg_type <- unpack_I (slice data 8 12);
    if negb (magic =? MAGIC) then Raise (ValueError "Invalid magic number")
    else
      do (wsjtx_id, _offset) <- _decode_qstring data 12;
      Ok (msg_type, wsjtx_id).

(** ** [datetime] and [timedelta]

    The proleptic Gregorian calendar of Python's [datetime] module. *)

Record datetime := mk_datetime {
  year : Z; month : Z; day : Z;
  hour : Z; minute : Z; second : Z; microsecond : Z
}.

Definition _MAXORDINAL : Z := 3652059.
Definition _DI400Y : Z := 146097.
Definition _DI100Y : Z := 36524.
Definition _DI4Y : Z := 1461.

Definition _DAYS_IN_MONTH (m : Z) : Z :=
  match m with
  | 1 => 31 | 2 => 28 | 3 => 31 | 4 => 30 | 5 => 31 | 6 => 30
  | 7 => 31 | 8 => 31 | 9 => 30 | 10 => 31 | 11 => 30 | 12 => 31
  | _ => -1
  end.

Definition _DAYS_BEFORE_MONTH (m : Z) : Z :=
  match m with
  | 1 => 0 | 2 => 31 | 3 => 59 | 4 => 90 | 5 => 120 | 6 => 151
  | 7 => 181 | 8 => 212 | 9 => 243 | 10 => 273 | 11 => 304 | 12 => 334
  | _ => -1
  end.

Definition _is_leap (y : Z) : bool :=
  (y mod 4 =? 0) && (negb (y mod 100 =? 0) || (y mod 400 =? 0)).

Definition _days_before_year (y : Z) : Z :=
  let y := y - 1 in y * 365 + y / 4 - y / 100 + y / 400.

Definition b2z (b : bool) : Z := if b then 1 else 0.

Definition _days_before_month (y m : Z) : Z :=
  _DAYS_BEFORE_MONTH m + b2z ((2 <? m) && _is_leap y).

Definition _ymd2ord (y m d : Z) : Z :=
  _days_before_year y + _days_before_month y m + d.

Definition _ord2ymd (n : Z) : Z * Z * Z :=
  let n := n - 1 in
  let n400 := n / _DI400Y in
  let n := n mod _DI400Y in
  let y := n400 * 400 + 1 in
  let n100 := n / _DI100Y in
  let n := n mod _DI100Y in
  let n4 := n / _DI4Y in
  let n := n mod _DI4Y in
  let n1 := n / 365 in
  let n := n mod 365 in
  let y := y + (n100 * 100 + n4 * 4 + n1) in
  if (n1 =? 4) || (n100 =? 4) then (y - 1, 12, 31)
  else
    let leapyear := (n1 =? 3) && (negb (n4 =? 24) || (n100 =? 3)) in
    let m := Z.shiftr (n + 50) 5 in
    let preceding := _DAYS_BEFORE_MONTH m + b2z ((2 <? m) && leapyear) in
    let '(m, preceding) :=
      if preceding >? n
      then (m - 1,
            preceding - (_DAYS_IN_MONTH (m - 1) + b2z ((m - 1 =? 2) && leapyear)))
      else (m, preceding) in
    (y, m, n - preceding + 1).

Definition toordinal (dt : datetime) : Z :=
  _ymd2ord (year dt) (month dt) (day dt).

(** A [timedelta], normalised: [0 <= seconds < 86400] and
    [0 <= microseconds < 1000000]. *)
Record timedelta := mk_td {
  td_days : Z; td_seconds : Z; td_microseconds : Z
}.

(** [timedelta(days=, seconds=, microseconds=)] on integers
    ([milliseconds=m] is [microseconds=1000*m]): [OverflowError] beyond
    999999999 days. *)
Definition new_timedelta (days seconds microseconds : Z) : result timedelta :=
  let s := seconds + microseconds / 1000000 in
  let us := microseconds mod 1000000 in
  let d := days + s / 86400 in
  let s := s mod 86400 in
  if Z.abs d >? 999999999 then Raise OverflowError
  else Ok (mk_td d s us).

Definition timedelta_add (a b : timedelta) : result timedelta :=
  new_timedelta (td_days a + td_days b) (td_seconds a + td_seconds b)
                (td_microseconds a + td_microseconds b).

(** [datetime.__add__(self, other)]. *)
Definition datetime_add (dt : datetime) (other : timedelta) : result datetime :=
  do self <- new_timedelta (toordinal dt)
               (hour dt * 3600 + minute dt * 60 + second dt) (microsecond dt);
  do delta <- timedelta_add self other;
  let h := td_seconds delta / 3600 in
  let rem := td_seconds delta mod 3600 in
  let mi := rem / 60 in
  let s := rem mod 60 in
  if (0 <? td_days delta) && (td_days delta <=? _MAXORDINAL) then
    let '(y, m, d) := _ord2ymd (td_days delta) in
    Ok (mk_datetime y m d h mi s (td_microseconds delta))
  else Raise OverflowError.

(** [datetime.datetime(1970, 1, 1)]. *)
Definition epoch : datetime := mk_datetime 1970 1 1 0 0 0 0.

(** [strftime]: the directives the module uses, each zero-padded to its
    fixed width (the year to four digits, as on Windows, where the module
    finds its [jt9.exe]). *)
Inductive directive :=
| dY | dm | dd | dH | dM | dS
| lit (c : Z).

Fixpoint zfill (w : nat) (n : Z) : pystr :=
  match w with
  | O => []
  | S w' => zfill w' (n / 10) ++ [48 + n mod 10]
  end.

Definition format_directive (dt : datetime) (d : directive) : pystr :=
  match d with
  | dY => zfill 4 (year dt)
  | dm => zfill 2 (month dt)
  | dd => zfill 2 (day dt)
  | dH => zfill 2 (hour dt)
  | dM => zfill 2 (minute dt)
  | dS => zfill 2 (second dt)
  | lit c => [c]
  end.

Definition strftime (dt : datetime) (fmt : list directive) : pystr :=
  concat (map (format_directive dt) fmt).

(** ['%Y%m%d%H%M%S'], ['%Y%m%d'], ['%H%M%S'], ['%Y/%m/%d'], ['%H:%M']. *)
Definition fmt_YmdHMS := [dY; dm; dd; dH; dM; dS].
Definition fmt_Ymd := [dY; dm; dd].
Definition fmt_HMS := [dH; dM; dS].
Definition fmt_Y_m_d := [dY; lit 47; dm; lit 47; dd].
Definition fmt_H_M := [dH; lit 58; dM].

(** [_decode_qdatetime(data, offset)]. *)
Definition _decode_qdatetime (data : bytes) (offset : Z) : result (datetime * Z) :=
  if len data <? offset + 13
  then Raise (ValueError "Not enough data for QDateTime")
  else
    do julian_day <- unpack_Q (slice data offset (offset + 8));
    let offset := offset + 8 in
    do msecs <- unpack_I (slice data offset (offset + 4));
    let offset := offset + 4 in
    do time_spec <- unpack_B (slice data offset (offset + 1));
    let offset := offset + 1 in
    let days_since_epoch := julian_day - 2440588 in
    do delta <- new_timedelta days_since_epoch 0 (msecs * 1000);
    do dt <- datetime_add epoch delta;
    Ok (dt, offset).

(** ** Contacts *)

(** The [qso_data] dictionary.  [freq_mhz] is [freq_hz / 1_000_000] and is
    not stored; [_time_offset] is the key the relay worker adds; [stamped]
    holds the keys a location stamper adds ([my_lat], [my_state], ...). *)
Record QsoData := mk_qso {
  wsjtx_id : pystr;
  datetime_off : option datetime;
  datetime_on : option datetime;
  dx_call : pystr;
  dx_grid : pystr;
  freq_hz : Z;
  band : pystr;
  mode : pystr;
  report_sent : pystr;
  report_rcvd : pystr;
  tx_power : pystr;
  comments : pystr;
  name : pystr;
  operator_call : pystr;
  my_call : pystr;
  my_grid : pystr;
  exchange_sent : pystr;
  exchange_rcvd : pystr;
  adif_prop_mode : pystr;
  _time_offset : option Z;
  stamped : list (pystr * pystr)
}.

Definition set_time_offset (q : QsoData) (off : Z) : QsoData :=
  mk_qso (wsjtx_id q) (datetime_off q) (datetime_on q) (dx_call q) (dx_grid q)
         (freq_hz q) (band q) (mode q) (report_sent q) (report_rcvd q)
         (tx_power q) (comments q) (name q) (operator_call q) (my_call q)
         (my_grid q) (exchange_sent q) (exchange_rcvd q) (adif_prop_mode q)
         (Some off) (stamped q).

(** What the module takes from outside: the constructor arguments
    [location_stamper] and [qso_callback], and two library functions kept
    abstract, the formatting of a float and [str.upper]. *)
Record Env := mk_env {
  (** [f"{hz / 1_000_000:.{k}f}"] *)
  fmt_mhz : nat -> Z -> pystr;
  (** [s.upper()] *)
  str_upper : pystr -> pystr;
  (** [location_stamper], when given; it may raise *)
  location_stamper : option (QsoData -> result QsoData);
  (** whether a [qso_callback] was given *)
  qso_callback : bool
}.

Definition between (lo hz hi : Z) : bool := (lo <=? hz) && (hz <=? hi).

(** [_freq_to_band(freq_mhz)], on the frequency in Hz: [freq_mhz] is the
    float nearest to [hz / 10^6] and every bound is the float nearest to a
    multiple of [10^-6], so each comparison agrees with the one on
    integers below. *)
Definition _freq_to_band (env : Env) (hz : Z) : pystr :=
  if between 1800000 hz 2000000 then str "160m"
  else if between 3500000 hz 4000000 then str "80m"
  else if between 5300000 hz 5400000 then str "60m"
  else if between 7000000 hz 7300000 then str "40m"
  else if between 10100000 hz 10150000 then str "30m"
  else if between 14000000 hz 14350000 then str "20m"
  else if between 18068000 hz 18168000 then str "17m"
  else if between 21000000 hz 21450000 then str "15m"
  else if between 24890000 hz 24990000 then str "12m"
  else if between 28000000 hz 29700000 then str "10m"
  else if between 50000000 hz 54000000 then str "6m"
  else if between 144000000 hz 148000000 then str "2m"
  else if between 222000000 hz 225000000 then str "1.25m"
  else if between 420000000 hz 450000000 then str "70cm"
  else if between 902000000 hz 928000000 then str "33cm"
  else if between 1240000000 hz 1300000000 then str "23cm"
  else if between 2300000000 hz 2450000000 then str "13cm"
  else if between 3300000000 hz 3500000000 then str "9cm"
  else if between 5650000000 hz 5925000000 then str "6cm"
  else if between 10000000000 hz 10500000000 then str "3cm"
  else if between 24000000000 hz 24250000000 then str "1.25cm"
  else fmt_mhz env 3 hz ++ str "MHz".

(** The body of the [try] in [_parse_qso_logged]. *)
Definition parse_qso_fields (env : Env) (data : bytes) : result QsoData :=
  let offset := 12 in
  do (wsjtx_id, offset) <- _decode_qstring data offset;
  do (datetime_off, offset) <- _decode_qdatetime data offset;
  do (dx_call, offset) <- _decode_qstring data offset;
  do (dx_grid, offset) <- _decode_qstring data offset;
  do tx_freq <- unpack_Q (slice data offset (offset + 8));
  let offset := offset + 8 in
  do (mode, offset) <- _decode_qstring data offset;
  do (report_sent, offset) <- _decode_qstring data offset;
  do (report_rcvd, offset) <- _decode_qstring data offset;
  do (tx_power, offset) <- _decode_qstring data offset;
  do (comments, offset) <- _decode_qstring data offset;
  do (name, offset) <- _decode_qstring data offset;
  do (datetime_on, offset) <- _decode_qdatetime data offset;
  do (operator_call, offset) <- _decode_qstring data offset;
  do (my_call, offset) <- _decode_qstring data offset;
  do (my_grid, offset) <- _decode_qstring data offset;
  do (exchange_sent, offset) <- _decode_qstring data offset;
  do (exchange_rcvd, offset) <- _decode_qstring data offset;
  let adif_prop_mode :=
    match _decode_qstring data offset with
    | Ok (s, _) => s
    | Raise _ => []
    end in
  Ok (mk_qso wsjtx_id (Some datetime_off) (Some datetime_on) dx_call dx_grid
             tx_freq (_freq_to_band env tx_freq) mode report_sent report_rcvd
             tx_power comments name operator_call my_call my_grid
             exchange_sent exchange_rcvd adif_prop_mode None []).

(** [_parse_qso_logged(data)]: [None] when anything in the body raised. *)
Definition _parse_qso_logged (env : Env) (data : bytes) : option QsoData :=
  match parse_qso_fields env data with
  | Ok q => Some q
  | Raise _ => None
  end.

(** [_parse_adif_logged(data)]: [(wsjtx_id, adif_record)]. *)
Definition _parse_adif_logged (data : bytes) : option (pystr * pystr) :=
  let r :=
    do (wsjtx_id, offset) <- _decode_qstring data 12;
    do (adif_record, _offset) <- _decode_qstring data offset;
    Ok (wsjtx_id, adif_record) in
  match r with
  | Ok a => Some a
  | Raise _ => None
  end.

(** ** Text of the outbound records *)

(** [str(n)] for an [int]. *)
Definition py_str_int (n : Z) : pystr :=
  str (NilZero.string_of_int (Z.to_int n)).

(** [f"<{name}:{len(value)}>{value}"] *)
Definition adif_field (name value : pystr) : pystr :=
  str "<" ++ name ++ str ":" ++ py_str_int (len value) ++ str ">" ++ value.

(** [sep.join(fields)] *)
Fixpoint join (sep : pystr) (fields : list pystr) : pystr :=
  match fields with
  | [] => []
  | [f] => f
  | f :: rest => f ++ sep ++ join sep rest
  end.

(** [x or default] on strings. *)
Definition or_else (x default : pystr) : pystr :=
  match x with [] => default | _ => x end.

Definition band_map : list (pystr * pystr) :=
  [ (str "160m", str "160M"); (str "80m", str "80M"); (str "60m", str "60M");
    (str "40m", str "40M"); (str "30m", str "30M"); (str "20m", str "20M");
    (str "17m", str "17M"); (str "15m", str "15M"); (str "12m", str "12M");
    (str "10m", str "10M"); (str "6m", str "6M"); (str "2m", str "2M");
    (str "1.25m", str "1.25M"); (str "70cm", str "70CM");
    (str "33cm", str "33CM"); (str "23cm", str "23CM");
    (str "13cm", str "13CM"); (str "9cm", str "9CM"); (str "6cm", str "6CM");
    (str "3cm", str "3CM"); (str "1.25cm", str "1.25CM") ].

(** [_band_to_n1mm_format(band)] *)
Definition _band_to_n1mm_format (env : Env) (band : pystr) : pystr :=
  match dict_get band_map band with
  | Some b => b
  | None => str_upper env band
  end.

(** [timedelta(seconds=offset)] *)
Definition seconds_delta (offset : Z) : result timedelta :=
  new_timedelta 0 offset 0.

(** The date and time fields of [_build_adif_for_n1mm]. *)
Definition n1mm_time_fields (q : QsoData) : result (list pystr) :=
  match datetime_off q with
  | Some base_time =>
    let offset := match _time_offset q with Some o => o | None => 0 end in
    do delta <- seconds_delta offset;
    do adjusted_time <- datetime_add base_time delta;
    let qso_date := strftime adjusted_time fmt_Ymd in
    let qso_time := strftime adjusted_time fmt_HMS in
    Ok [ str "<qso_date:8>" ++ qso_date;
         str "<time_on:6>" ++ qso_time;
         str "<time_off:6>" ++ qso_time ]
  | None => Ok []
  end.

(** The list [fields] of [_build_adif_for_n1mm] at its [join]. *)
Definition n1mm_fields (env : Env) (q : QsoData) : result (list pystr) :=
  let call := dx_call q in
  let grid := or_else (dx_grid q) [] in
  let rst_sent := or_else (report_sent q) (str "-10") in
  let rst_rcvd := or_else (report_rcvd q) (str "-10") in
  let freq := fmt_mhz env 6 (freq_hz q) in
  let band := _band_to_n1mm_format env (band q) in
  do time_fields <- n1mm_time_fields q;
  Ok ([adif_field (str "call") call]
      ++ match grid with [] => [] | _ => [adif_field (str "gridsquare") grid] end
      ++ [adif_field (str "mode") (mode q);
          adif_field (str "rst_sent") rst_sent;
          adif_field (str "rst_rcvd") rst_rcvd;
          adif_field (str "freq") freq;
          adif_field (str "band") band]
      ++ time_fields
      ++ [str "<eor>"]).

(** [_build_adif_for_n1mm(qso_data)] *)
Definition _build_adif_for_n1mm (env : Env) (q : QsoData) : result pystr :=
  do fields <- n1mm_fields env q;
  Ok (join (str " ") fields ++ [13; 10]).

(** [s.replace(old, '')] for a non-empty [old]: occurrences are removed
    left to right; each round consumes a character, so [length s] rounds
    are enough. *)
Fixpoint starts_with (old s : pystr) : bool :=
  match old, s with
  | [], _ => true
  | _ :: _, [] => false
  | p :: old', c :: s' => (p =? c) && starts_with old' s'
  end.

Fixpoint remove_rounds (rounds : nat) (old s : pystr) : pystr :=
  match rounds, s with
  | O, _ => s
  | _, [] => []
  | S r, c :: s' =>
    if starts_with old s then remove_rounds r old (skipn (length old) s)
    else c :: remove_rounds r old s'
  end.

Definition str_remove (old s : pystr) : pystr :=
  remove_rounds (length s) old s.

(** [str.isspace] on one character, and [s.strip()]. *)
Definition is_space (c : Z) : bool :=
  between 9 c 13 || between 28 c 32 || (c =? 0x85) || (c =? 0xA0)
  || (c =? 0x1680) || between 0x2000 c 0x200A || (c =? 0x2028)
  || (c =? 0x2029) || (c =? 0x202F) || (c =? 0x205F) || (c =? 0x3000).

Fixpoint lstrip (s : pystr) : pystr :=
  match s with
  | [] => []
  | c :: s' => if is_space c then lstrip s' else s
  end.

Definition strip (s : pystr) : pystr := rev (lstrip (rev (lstrip s))).

Definition tagged (tag value : pystr) : pystr :=
  str "<" ++ tag ++ str ">" ++ value ++ str "</" ++ tag ++ str ">".

(** The [command] of [_send_qso_to_n3fjp]; [now] is
    [datetime.datetime.utcnow()], read only when there is no
    [datetime_on]. *)
Definition n3fjp_command (env : Env) (now : datetime) (q : QsoData) : pystr :=
  let call := dx_call q in
  let grid := or_else (dx_grid q) [] in
  let rst_sent := or_else (report_sent q) (str "-10") in
  let rst_rcvd := or_else (report_rcvd q) (str "-10") in
  let band_num :=
    strip (str_remove (str "m") (str_remove (str "M")
             (str_remove (str "MHz") (band q)))) in
  let t_on := match datetime_on q with Some t => t | None => now end in
  let date_str := strftime t_on fmt_Y_m_d in
  let time_on := strftime t_on fmt_H_M in
  let time_off :=
    match datetime_off q with
    | Some t => strftime t fmt_H_M
    | None => time_on
    end in
  tagged (str "UPDATEANDLOG")
    (tagged (str "CALL") call ++ tagged (str "BAND") band_num
     ++ tagged (str "MODE") (mode q)
     ++ tagged (str "FREQ") (fmt_mhz env 6 (freq_hz q))
     ++ tagged (str "RSTS") rst_sent ++ tagged (str "RSTR") rst_rcvd
     ++ tagged (str "GRID") grid ++ tagged (str "DATE") date_str
     ++ tagged (str "TIMEON") time_on ++ tagged (str "TIMEOFF") time_off).

(** ** Effects *)

Inductive Logger := N1MM | N3FJP.

(** What the logger's TCP port does with one connection attempt. *)
Inductive NetOutcome :=
| Accepted           (* connected, and the payload was taken *)
| Refused            (* ConnectionRefusedError *)
| TimedOut           (* socket.timeout *)
| Failed.            (* any other socket error *)

(** The operations on the outside world, in program order.  Console output
    is recorded where a property speaks of it (a discovery, a dropped
    duplicate, an error report) and assumed never to fail. *)
Inductive Effect :=
| EvPrintDiscovered (wsjtx_id : pystr) (port : Z)
| EvPrintDuplicate (dx_call band : pystr)
| EvPrintError (what : string)
| EvAdifWrite (q : QsoData)          (* _write_qso_to_adif(qso_data) *)
| EvAdifAppend (record : pystr)      (* the append of _handle_adif_logged *)
| EvQueuePut (q : QsoData)           (* self.qso_queue.put(qso_data) *)
| EvCallback (q : QsoData)           (* self.qso_callback(qso_data) *)
| EvTcpConnect (l : Logger) (o : NetOutcome)
| EvTcpSendall (l : Logger) (payload : bytes)
| EvUdpSendto (message : bytes) (port : Z)
| EvLoggerGrid (l : Logger) (grid : pystr)   (* send_logger_grid *)
| EvSleep (ms : Z).                  (* time.sleep *)

(** ** The [RadioUpdater] object *)

Definition DedupKey : Type := pystr * pystr * pystr.

Record RadioUpdater := mk_state {
  contest_logger : pystr;
  wsjtx_ids : list (Z * (pystr * Z));   (* {port: (wsjtx_id, last_seen)} *)
  logged_qsos : gset DedupKey;
  qso_queue : list QsoData;
  running : bool;
  current_grid : option pystr;
  jt9_pids : gset Z;
  qso_offset : Z;                       (* the local of _relay_loop *)
  trace : list Effect
}.

(** The object [__init__] leaves, once its three threads have started. *)
Definition new_updater (contest_logger : pystr) : RadioUpdater :=
  mk_state contest_logger [] ∅ [] true None ∅ 0 [].

Definition emit (st : RadioUpdater) (es : list Effect) : RadioUpdater :=
  mk_state (contest_logger st) (wsjtx_ids st) (logged_qsos st) (qso_queue st)
           (running st) (current_grid st) (jt9_pids st) (qso_offset st)
           (trace st ++ es).

Definition set_wsjtx_ids st ids : RadioUpdater :=
  mk_state (contest_logger st) ids (logged_qsos st) (qso_queue st)
           (running st) (current_grid st) (jt9_pids st) (qso_offset st)
           (trace st).

Definition set_logged_qsos st s : RadioUpdater :=
  mk_state (contest_logger st) (wsjtx_ids st) s (qso_queue st)
           (running st) (current_grid st) (jt9_pids st) (qso_offset st)
           (trace st).

Definition set_qso_queue st qs : RadioUpdater :=
  mk_state (contest_logger st) (wsjtx_ids st) (logged_qsos st) qs
           (running st) (current_grid st) (jt9_pids st) (qso_offset st)
           (trace st).

Definition set_running st b : RadioUpdater :=
  mk_state (contest_logger st) (wsjtx_ids st) (logged_qsos st) (qso_queue st)
           b (current_grid st) (jt9_pids st) (qso_offset st) (trace st).

Definition set_current_grid st g : RadioUpdater :=
  mk_state (contest_logger st) (wsjtx_ids st) (logged_qsos st) (qso_queue st)
           (running st) g (jt9_pids st) (qso_offset st) (trace st).

Definition set_jt9_pids st pids : RadioUpdater :=
  mk_state (contest_logger st) (wsjtx_ids st) (logged_qsos st) (qso_queue st)
           (running st) (current_grid st) pids (qso_offset st) (trace st).

Definition set_qso_offset st n : RadioUpdater :=
  mk_state (contest_logger st) (wsjtx_ids st) (logged_qsos st) (qso_queue st)
           (running st) (current_grid st) (jt9_pids st) n (trace st).

Definition set_contest_logger st l : RadioUpdater :=
  mk_state l (wsjtx_ids st) (logged_qsos st) (qso_queue st)
           (running st) (current_grid st) (jt9_pids st) (qso_offset st)
           (trace st).

Definition is_n3fjp (st : RadioUpdater) : bool :=
  bool_decide (contest_logger st = str "n3fjp").

(** ** The duplicate filter and the contact handler *)

(** The [qso_key] of [_handle_qso_logged]. *)
Definition qso_key (q : QsoData) : DedupKey :=
  (match datetime_off q with
   | Some t => strftime t fmt_YmdHMS
   | None => []
   end,
   dx_call q, band q).

(** [self.location_stamper(qso_data)] under its [try]: on an exception the
    contact stays as it was. *)
Definition stamp (env : Env) (q : QsoData) : QsoData * list Effect :=
  match location_stamper env with
  | Some f =>
    match f q with
    | Ok q' => (q', [])
    | Raise _ => (q, [EvPrintError "stamping location"])
    end
  | None => (q, [])
  end.

(** [_handle_qso_logged(qso_data, wsjtx_id)]; [wsjtx_id] goes to the
    console only. *)
Definition _handle_qso_logged (env : Env) (st : RadioUpdater) (q : QsoData)
  : RadioUpdater :=
  let key := qso_key q in
  if decide (key ∈ logged_qsos st)
  then emit st [EvPrintDuplicate (dx_call q) (band q)]
  else
    let st := set_logged_qsos st (logged_qsos st ∪ {[ key ]}) in
    let '(q, stamp_effects) := stamp env q in
    let st := emit st (stamp_effects ++ [EvAdifWrite q]) in
    let st := emit (set_qso_queue st (qso_queue st ++ [q])) [EvQueuePut q] in
    if qso_callback env then emit st [EvCallback q] else st.

(** [queue_qso_for_relay(qso_data)], the entry of the manual contacts. *)
Definition queue_qso_for_relay (st : RadioUpdater) (q : QsoData) : RadioUpdater :=
  emit (set_qso_queue st (qso_queue st ++ [q])) [EvQueuePut q].

(** [_handle_adif_logged(adif_data, wsjtx_id)] *)
Definition _handle_adif_logged (st : RadioUpdater) (adif_record : pystr)
  : RadioUpdater :=
  emit st [EvAdifAppend (adif_record ++ [10])].

(** ** The decode listener *)

(** One pass through [recvfrom] in [_listen_loop]: a datagram with the
    source port of its sender and the reading of [time.time()], the
    receive timeout, or a socket error. *)
Inductive Received :=
| Datagram (data : bytes) (source_port : Z) (now : Z)
| RecvTimeout
| RecvError.

(** The heartbeat branch. *)
Definition record_heartbeat (st : RadioUpdater) (source_port : Z)
    (wsjtx_id : pystr) (now : Z) : RadioUpdater :=
  let st :=
    match dict_get (wsjtx_ids st) source_port with
    | None => emit st [EvPrintDiscovered wsjtx_id source_port]
    | Some _ => st
    end in
  set_wsjtx_ids st (dict_set (wsjtx_ids st) source_port (wsjtx_id, now)).

(** The body of the [while self.running] loop of [_listen_loop]. *)
Definition listen_step (env : Env) (st : RadioUpdater) (r : Received)
  : RadioUpdater :=
  match r with
  | Datagram data source_port now =>
    match _parse_packet_header data with
    | Ok (msg_type, wsjtx_id) =>
      if msg_type =? MSG_HEARTBEAT then
        record_heartbeat st source_port wsjtx_id now
      else if msg_type =? MSG_QSO_LOGGED then
        match _parse_qso_logged env data with
        | Some qso_data => _handle_qso_logged env st qso_data
        | None => st
        end
      else if msg_type =? MSG_LOGGED_ADIF then
        match _parse_adif_logged data with
        | Some (_, adif_record) => _handle_adif_logged st adif_record
        | None => st
        end
      else st
    | Raise _ => st                     (* ignore packets we can't parse *)
    end
  | RecvTimeout => st
  | RecvError =>
    if running st
    then emit st [EvPrintError "listener"; EvSleep 1000]
    else st
  end.

(** [_listen_loop] over what the socket delivers while [running] holds. *)
Definition listen_loop (env : Env) (st : RadioUpdater) (rs : list Received)
  : RadioUpdater :=
  fold_left (fun st r => if running st then listen_step env st r else st) rs st.

(** ** Sending to the loggers *)

(** [_send_wsjt_location(wsjtx_id, port, grid_square)] under the [try] of
    its callers. *)
Definition _send_wsjt_location (wsjtx_id : pystr) (port : Z) (grid : pystr)
  : list Effect :=
  match location_message wsjtx_id grid with
  | Ok message => [EvUdpSendto message port]
  | Raise _ => [EvPrintError "sending location"]
  end.

(** One TCP exchange with a logger: connect, then [sendall] of the UTF-8
    payload. *)
Definition tcp_exchange (l : Logger) (text : pystr) (o : NetOutcome)
  : bool * list Effect :=
  match o with
  | Accepted =>
    match utf8_encode text with
    | Some payload => (true, [EvTcpConnect l Accepted; EvTcpSendall l payload])
    | None => (false, [EvTcpConnect l Accepted])
    end
  | _ => (false, [EvTcpConnect l o])
  end.

(** [_send_qso_to_n1mm(qso_data)]: [(success, effects)]. *)
Definition _send_qso_to_n1mm (env : Env) (q : QsoData) (o : NetOutcome)
  : bool * list Effect :=
  match _build_adif_for_n1mm env q with
  | Ok adif_record =>
    match tcp_exchange N1MM adif_record o with
    | (true, es) => (true, es ++ [EvSleep 100])
    | (false, es) => (false, es)
    end
  | Raise _ => (false, [])
  end.

(** [_send_n3fjp_command(command)] *)
Definition _send_n3fjp_command (command : pystr) (o : NetOutcome)
  : bool * list Effect :=
  tcp_exchange N3FJP (tagged (str "CMD") command) o.

(** [_send_qso_to_n3fjp(qso_data)] *)
Definition _send_qso_to_n3fjp (env : Env) (now : datetime) (q : QsoData)
    (o : NetOutcome) : bool * list Effect :=
  _send_n3fjp_command (n3fjp_command env now q) o.

(** ** The relay worker *)

(** One pass of the [while self.running] loop of [_relay_loop] that finds a
    contact in the queue; [o] is what the logger's port does with this
    attempt and [now] the clock. *)
Definition relay_deliver (env : Env) (st : RadioUpdater) (qso_data : QsoData)
    (rest : list QsoData) (now : datetime) (o : NetOutcome) : RadioUpdater :=
  let offset := qso_offset st in
  let qso_data := set_time_offset qso_data offset in
  let offset := offset + 1 in
  let offset := if offset >? 59 then 0 else offset in
  let '(success, effects) :=
    if is_n3fjp st then _send_qso_to_n3fjp env now qso_data o
    else _send_qso_to_n1mm env qso_data o in
  emit (set_qso_offset (set_qso_queue st rest) offset)
       (effects ++ [EvSleep 500]).

Definition relay_step (env : Env) (st : RadioUpdater) (now : datetime)
    (o : NetOutcome) : RadioUpdater :=
  match qso_queue st with
  | qso_data :: rest => relay_deliver env st qso_data rest now o
  | [] => st                 (* get(timeout=1.0) raised: continue *)
  end.

(** ** The process watchdog *)

(** [not x] is false for a non-empty string only. *)
Definition truthy (g : option pystr) : bool :=
  match g with
  | Some (_ :: _) => true
  | _ => false
  end.

Definition grid_or_empty (g : option pystr) : pystr :=
  match g with Some s => s | None => [] end.

(** [_resend_grid_to_all()] *)
Definition _resend_grid_to_all (st : RadioUpdater) : RadioUpdater :=
  if negb (truthy (current_grid st)) then st
  else
    emit st (flat_map (fun '(source_port, (wsjtx_id, _)) =>
               _send_wsjt_location wsjtx_id source_port
                 (grid_or_empty (current_grid st)))
             (wsjtx_ids st)).

(** The initial scan of [_jt9_monitor_loop]. *)
Definition monitor_start (st : RadioUpdater) (pids : gset Z) : RadioUpdater :=
  set_jt9_pids st pids.

(** One pass of the [while self.running] loop of [_jt9_monitor_loop];
    [current_pids] is what [_get_jt9_pids()] returns (it catches its own
    exceptions). *)
Definition monitor_step (st : RadioUpdater) (current_pids : gset Z)
  : RadioUpdater :=
  let st := emit st [EvSleep 3000] in
  let new_pids := current_pids ∖ jt9_pids st in
  let st :=
    if bool_decide (new_pids ≠ ∅) && truthy (current_grid st)
    then _resend_grid_to_all (emit st [EvSleep 2000])
    else st in
  set_jt9_pids st current_pids.

(** ** The caller-facing entries *)

(** [update_grid(grid_square)] *)
Definition update_grid (st : RadioUpdater) (grid_square : pystr) : RadioUpdater :=
  let st := set_current_grid st (Some grid_square) in
  let st :=
    emit st (flat_map (fun '(source_port, (wsjtx_id, _)) =>
               _send_wsjt_location wsjtx_id source_port grid_square)
             (wsjtx_ids st)) in
  emit st [EvLoggerGrid (if is_n3fjp st then N3FJP else N1MM) grid_square].

(** ** The threads together

    The listener threads, the relay worker, the watchdog and the callers
    run side by side; a run of the module is an interleaving of their
    loop passes and calls. *)
Inductive Event :=
| Listen (r : Received)
| Relay (now : datetime) (o : NetOutcome)
| Watchdog (current_pids : gset Z)
| UpdateGrid (grid_square : pystr)
| QueueManual (q : QsoData)
| SetLogger (logger : pystr)
| StopListener.

Definition step (env : Env) (st : RadioUpdater) (e : Event) : RadioUpdater :=
  match e with
  | Listen r => if running st then listen_step env st r else st
  | Relay now o => if running st then relay_step env st now o else st
  | Watchdog pids => if running st then monitor_step st pids else st
  | UpdateGrid g => update_grid st g
  | QueueManual q => queue_qso_for_relay st q
  | SetLogger l => set_contest_logger st l
  | StopListener => set_running st false
  end.

Definition run (env : Env) (st : RadioUpdater) (es : list Event) : RadioUpdater :=
  fold_left (step env) es st.

(** ** Reading a [datetime] on the time line *)

Definition _days_in_month (y m : Z) : Z :=
  if (m =? 2) && _is_leap y then 29 else _DAYS_IN_MONTH m.

(** The fields of a [datetime] are those of a date of the calendar and of
    a time of day. *)
Definition valid_datetime (dt : datetime) : Prop :=
  1 <= year dt <= 9999 /\ 1 <= month dt <= 12
  /\ 1 <= day dt <= _days_in_month (year dt) (month dt)
  /\ 0 <= hour dt < 24 /\ 0 <= minute dt < 60 /\ 0 <= second dt < 60
  /\ 0 <= microsecond dt < 1000000.

(** Whole seconds and microseconds elapsed since 1970-01-01T00:00:00. *)
Definition epoch_seconds (dt : datetime) : Z :=
  (toordinal dt - toordinal epoch) * 86400
  + hour dt * 3600 + minute dt * 60 + second dt.

Definition epoch_microseconds (dt : datetime) : Z :=
  epoch_seconds dt * 1000000 + microsecond dt.

(** ** Runs of one thread *)

(** The contacts a listener hands to [_handle_qso_logged], in order. *)
Definition handle_all (env : Env) (st : RadioUpdater) (qs : list QsoData)
  : RadioUpdater :=
  fold_left (_handle_qso_logged env) qs st.

(** Those of them that pass the duplicate test of [_handle_qso_logged]. *)
Fixpoint admitted (env : Env) (st : RadioUpdater) (qs : list QsoData)
  : list QsoData :=
  match qs with
  | [] => []
  | q :: qs' =>
    (if decide (qso_key q ∈ logged_qsos st) then [] else [q])
    ++ admitted env (_handle_qso_logged env st q) qs'
  end.

(** The relay worker alone, one pass per reading of the clock and answer
    of the logger. *)
Definition relay_run (env : Env) (st : RadioUpdater)
    (ticks : list (datetime * NetOutcome)) : RadioUpdater :=
  fold_left (fun st tick => relay_step env st (fst tick) (snd tick)) ticks st.

(** The value of [qso_offset] that the worker gives to the contact of its
    pass number [i] (from 0). *)
Definition offset_of_pass (env : Env) (st : RadioUpdater)
    (ticks : list (datetime * NetOutcome)) (i : nat) : Z :=
  qso_offset (relay_run env st (take i ticks)).

(** The contact of pass number [i] as the worker sends it. *)
Definition envelope_of_pass (env : Env) (st : RadioUpdater)
    (ticks : list (datetime * NetOutcome)) (i : nat) : option QsoData :=
  let st_i := relay_run env st (take i ticks) in
  match qso_queue st_i with
  | q :: _ => Some (set_time_offset q (qso_offset st_i))
  | [] => None
  end.

(** ** Reading a trace *)

(** What a step adds to the trace. *)
Definition added (st st' : RadioUpdater) (es : list Effect) : Prop :=
  trace st' = trace st ++ es.

Definition is_discovery (port : Z) (e : Effect) : bool :=
  match e with
  | EvPrintDiscovered _ p => p =? port
  | _ => false
  end.

(** How often the discovery of [port] was reported. *)
Definition discoveries (port : Z) (tr : list Effect) : nat :=
  length (List.filter (is_discovery port) tr).

Definition no_discovery (es : list Effect) : Prop :=
  forall port, discoveries port es = 0%nat.

Definition is_connect (e : Effect) : bool :=
  match e with
  | EvTcpConnect _ _ => true
  | _ => false
  end.

(** How many connections to a logger were attempted. *)
Definition connects (tr : list Effect) : nat :=
  length (List.filter is_connect tr).

Definition is_adif_write (e : Effect) : bool :=
  match e with
  | EvAdifWrite _ => true
  | _ => false
  end.

(** How many contacts were written to the ADIF backup. *)
Definition adif_writes (tr : list Effect) : nat :=
  length (List.filter is_adif_write tr).

Definition is_queue_put (e : Effect) : bool :=
  match e with
  | EvQueuePut _ => true
  | _ => false
  end.

(** ** Conditions of the statements *)

(** A datagram shorter than the header, with a wrong magic number, or with
    an instance id whose length prefix or body runs past its end. *)
Definition malformed (data : bytes) : Prop :=
  len data < 12
  \/ be_value (slice data 0 4) <> MAGIC
  \/ len data < 16
  \/ (be_value (slice data 12 16) <> NULL_QSTRING
      /\ len data < 16 + be_value (slice data 12 16)).

(** A datagram that the listener cannot decode: the header raises, or
    the body of a QSO Logged or ADIF Logged message does. *)
Definition undecodable (env : Env) (data : bytes) : Prop :=
  is_ok (_parse_packet_header data) = false
  \/ (exists wsjtx_id,
        _parse_packet_header data = Ok (MSG_QSO_LOGGED, wsjtx_id)
        /\ _parse_qso_logged env data = None)
  \/ (exists wsjtx_id,
        _parse_packet_header data = Ok (MSG_LOGGED_ADIF, wsjtx_id)
        /\ _parse_adif_logged data = None).

(** A port is in the registry. *)
Definition registered (st : RadioUpdater) (port : Z) : bool :=
  match dict_get (wsjtx_ids st) port with
  | Some _ => true
  | None => false
  end.

(** Every port of the registry had its discovery reported once, and no
    other port had one. *)
Definition discovered_once (st : RadioUpdater) : Prop :=
  forall port,
    discoveries port (trace st) = if registered st port then 1%nat else 0%nat.

(** No earlier contact has the key of [q]. *)
Definition first_with_key (before : list QsoData) (q : QsoData) : Prop :=
  Forall (fun q0 => qso_key q0 <> qso_key q) before.

(** The snapshot [current_pids] holds a process id that the previous
    snapshot did not. *)
Definition new_pid_in (st : RadioUpdater) (current_pids : gset Z) : Prop :=
  exists pid, pid ∈ current_pids /\ pid ∉ jt9_pids st.

(** ** Sample values *)

Definition ascii_bytes (s : string) : bytes := list_byte_of_string s.

(** A string field and a date-time field as WSJT-X writes them. *)
Definition qstring_field (s : string) : bytes :=
  match s with
  | EmptyString => be_bytes 4 NULL_QSTRING
  | _ => be_bytes 4 (len (ascii_bytes s)) ++ ascii_bytes s
  end.

Definition qdatetime_field (julian_day msecs : Z) : bytes :=
  be_bytes 8 julian_day ++ be_bytes 4 msecs ++ [x01].

(** A text of [0xFFFFFFFF] letters [a], one byte each in UTF-8. *)
Definition sentinel_long_text : pystr := repeat 97 (Z.to_nat NULL_QSTRING).

(** An environment with no stamper and no callback; the frequency is
    printed in Hz and [upper] leaves its argument as it is. *)
Definition plain_env : Env :=
  mk_env (fun _ hz => py_str_int hz) (fun s => s) None false.

(** W1AW worked on 6 m, time off 2025-06-14T18:30:15. *)
Definition w1aw_6m : QsoData :=
  mk_qso (str "WSJT-X - ic7610")
         (Some (mk_datetime 2025 6 14 18 30 15 0))
         (Some (mk_datetime 2025 6 14 18 29 45 0))
         (str "W1AW") (str "FN31") 50313000 (str "6m") (str "FT8")
         (str "-10") (str "-12") [] [] [] (str "N5ZY") (str "N5ZY")
         (str "EM15") (str "EM15") (str "FN31") [] None [].

(** The QSO Logged datagram of that contact (Julian day 2460841). *)
Definition qso_logged_w1aw : bytes :=
  be_bytes 4 MAGIC ++ be_bytes 4 SCHEMA ++ be_bytes 4 MSG_QSO_LOGGED
  ++ qstring_field "WSJT-X - ic7610"
  ++ qdatetime_field 2460841 66615000
  ++ qstring_field "W1AW" ++ qstring_field "FN31"
  ++ be_bytes 8 50313000
  ++ qstring_field "FT8" ++ qstring_field "-10" ++ qstring_field "-12"
  ++ qstring_field "" ++ qstring_field "" ++ qstring_field ""
  ++ qdatetime_field 2460841 66585000
  ++ qstring_field "N5ZY" ++ qstring_field "N5ZY" ++ qstring_field "EM15"
  ++ qstring_field "EM15" ++ qstring_field "FN31" ++ qstring_field "".

(** A heartbeat of the instance ["WSJT-X - ic7610"]. *)
Definition heartbeat_ic7610 : bytes :=
  be_bytes 4 MAGIC ++ be_bytes 4 SCHEMA ++ be_bytes 4 MSG_HEARTBEAT
  ++ qstring_field "WSJT-X - ic7610".

(** An object that knows this instance on port 61234, has the grid EM15
    and has seen the jt9 process 1000. *)
Definition em15_station : RadioUpdater :=
  monitor_start
    (update_grid
       (listen_step plain_env (new_updater (str "n1mm"))
          (Datagram heartbeat_ic7610 61234 1000))
       (str "EM15"))
    {[ 1000 ]}.

(** The LocationChange message for that instance and grid. *)
Definition em15_message : bytes :=
  be_bytes 4 MAGIC ++ be_bytes 4 SCHEMA ++ be_bytes 4 MSG_LOCATION
  ++ qstring_field "WSJT-X - ic7610" ++ qstring_field "EM15".

(** Three manual entries of the same contact waiting in the queue of a
    fresh object, and a pass of the worker for each; sixty-one of them. *)
Definition three_waiting : RadioUpdater :=
  fold_left queue_qso_for_relay (repeat w1aw_6m 3) (new_updater (str "n1mm")).

Definition three_passes : list (datetime * NetOutcome) :=
  repeat (epoch, Accepted) 3.

Definition sixty_one_waiting : RadioUpdater :=
  fold_left queue_qso_for_relay (repeat w1aw_6m 61) (new_updater (str "n1mm")).

Definition sixty_one_passes : list (datetime * NetOutcome) :=
  repeat (epoch, Accepted) 61.

(** ** The datagrams of the test tools

    [src/test_qso_relay.py] builds the QSO Logged datagrams that it sends
    to the listener, and [src/test_wsjtx.py] reads heartbeats with a
    decoder of its own. *)

Definition pack_Q := pack_uint 8.
Definition pack_B := pack_uint 1.

(** [encode_qstring(text)] of both tools. *)
Definition encode_qstring (text : option pystr) : result bytes :=
  match text with
  | None | Some [] => pack_I 0xFFFFFFFF
  | Some s =>
    do encoded <- of_option UnicodeEncodeError (utf8_encode s);
    do prefix <- pack_I (len encoded);
    Ok (prefix ++ encoded)
  end.

(** The locals [julian_day] and [msecs] of [encode_qdatetime]. *)
Definition julian_day_of (dt : datetime) : Z :=
  let a := (14 - month dt) / 12 in
  let y := year dt + 4800 - a in
  let m := month dt + 12 * a - 3 in
  day dt + (153 * m + 2) / 5 + 365 * y + y / 4 - y / 100 + y / 400 - 32045.

Definition msecs_of (dt : datetime) : Z :=
  (hour dt * 3600 + minute dt * 60 + second dt) * 1000 + microsecond dt / 1000.

(** [encode_qdatetime(dt)] of [test_qso_relay.py]. *)
Definition encode_qdatetime (dt : datetime) : result bytes :=
  let julian_day := julian_day_of dt in
  let msecs := msecs_of dt in
  do jd <- pack_Q julian_day;
  do ms <- pack_I msecs;
  do spec <- pack_B 1;
  Ok (jd ++ ms ++ spec).

(** [build_qso_logged_message(...)] of [test_qso_relay.py]; [now] is its
    reading of [datetime.datetime.utcnow()]. *)
Definition build_qso_logged_message (now : datetime)
    (wsjtx_id dx_call dx_grid : pystr) (freq_hz : Z)
    (mode rst_sent rst_rcvd my_call my_grid : pystr) : result bytes :=
  do magic <- pack_I MAGIC;
  do schema <- pack_I SCHEMA;
  do type <- pack_I MSG_QSO_LOGGED;
  do f_id <- encode_qstring (Some wsjtx_id);
  do f_off <- encode_qdatetime now;
  do f_call <- encode_qstring (Some dx_call);
  do f_grid <- encode_qstring (Some dx_grid);
  do f_freq <- pack_Q freq_hz;
  do f_mode <- encode_qstring (Some mode);
  do f_sent <- encode_qstring (Some rst_sent);
  do f_rcvd <- encode_qstring (Some rst_rcvd);
  do f_power <- encode_qstring (Some []);
  do f_comments <- encode_qstring (Some []);
  do f_name <- encode_qstring (Some []);
  do f_on <- encode_qdatetime now;
  do f_op <- encode_qstring (Some my_call);
  do f_my_call <- encode_qstring (Some my_call);
  do f_my_grid <- encode_qstring (Some my_grid);
  do f_exch_sent <- encode_qstring (Some my_grid);
  do f_exch_rcvd <- encode_qstring (Some dx_grid);
  do f_prop <- encode_qstring (Some []);
  Ok (magic ++ schema ++ type ++ f_id ++ f_off ++ f_call ++ f_grid ++ f_freq
      ++ f_mode ++ f_sent ++ f_rcvd ++ f_power ++ f_comments ++ f_name
      ++ f_on ++ f_op ++ f_my_call ++ f_my_grid ++ f_exch_sent
      ++ f_exch_rcvd ++ f_prop).

(** A [datetime] as it comes back from the wire: the microseconds are cut
    to whole milliseconds. *)
Definition to_milliseconds (dt : datetime) : datetime :=
  mk_datetime (year dt) (month dt) (day dt) (hour dt) (minute dt) (second dt)
              (microsecond dt / 1000 * 1000).

(** The contact that [build_qso_logged_message] describes, as
    [_parse_qso_logged] stores it. *)
Definition contact_of_message (env : Env) (now : datetime)
    (wsjtx_id dx_call dx_grid : pystr) (freq_hz : Z)
    (mode rst_sent rst_rcvd my_call my_grid : pystr) : QsoData :=
  mk_qso wsjtx_id (Some (to_milliseconds now)) (Some (to_milliseconds now))
         dx_call dx_grid freq_hz (_freq_to_band env freq_hz) mode
         rst_sent rst_rcvd [] [] [] my_call my_call my_grid my_grid dx_grid
         [] None [].

(** [decode_qstring(data, offset)] of [test_wsjtx.py]: where the module
    raises [ValueError] it returns the empty string. *)
Definition decode_qstring (data : bytes) (offset : Z) : result (pystr * Z) :=
  if len data <? offset + 4 then Ok ([], offset)
  else
    do length <- unpack_I (slice data offset (offset + 4));
    let offset := offset + 4 in
    if length =? 0xFFFFFFFF then Ok ([], offset)
    else if len data <? offset + length then Ok ([], offset)
    else
      do string <- of_option UnicodeDecodeError
                     (utf8_decode (slice data offset (offset + length)));
      Ok (string, offset + length).

(** The datagram of that tool for W1AW on 6 m at 2025-06-14T18:30:15. *)
Definition w1aw_test_message : bytes :=
  match build_qso_logged_message (mk_datetime 2025 6 14 18 30 15 123456)
          (str "WSJT-X - ic7610") (str "W1AW") (str "FN31") 50313000
          (str "FT8") (str "-10") (str "-12") (str "N5ZY") (str "EM15") with
  | Ok msg => msg
  | Raise _ => []
  end.

(** ** The band plan

    The tests of [_freq_to_band], in the order of the source: the bounds
    in Hz and the name returned. *)
Definition band_plan : list (Z * Z * pystr) :=
  [ (1800000, 2000000, str "160m"); (3500000, 4000000, str "80m");
    (5300000, 5400000, str "60m"); (7000000, 7300000, str "40m");
    (10100000, 10150000, str "30m"); (14000000, 14350000, str "20m");
    (18068000, 18168000, str "17m"); (21000000, 21450000, str "15m");
    (24890000, 24990000, str "12m"); (28000000, 29700000, str "10m");
    (50000000, 54000000, str "6m"); (144000000, 148000000, str "2m");
    (222000000, 225000000, str "1.25m"); (420000000, 450000000, str "70cm");
    (902000000, 928000000, str "33cm"); (1240000000, 1300000000, str "23cm");
    (2300000000, 2450000000, str "13cm"); (3300000000, 3500000000, str "9cm");
    (5650000000, 5925000000, str "6cm");
    (10000000000, 10500000000, str "3cm");
    (24000000000, 24250000000, str "1.25cm") ].

(** The frequency lies in one of the bands of the plan. *)
Definition in_band_plan (hz : Z) : Prop :=
  exists lo hi name, In (lo, hi, name) band_plan /\ lo <= hz <= hi.

(** [s.upper()] on a text of ASCII characters. *)
Definition ascii_upper (s : pystr) : pystr :=
  map (fun c => if between 97 c 122 then c - 32 else c) s.

(** The local [band_num] of [_send_qso_to_n3fjp]. *)
Definition band_num (band : pystr) : pystr :=
  strip (str_remove (str "m") (str_remove (str "M")
           (str_remove (str "MHz") band))).

(** A text without its letters [m]. *)
Definition without_m (s : pystr) : pystr :=
  List.filter (fun c => negb (c =? 109)) s.

(** ** Reading a run *)

Definition is_update_grid (e : Event) : bool :=
  match e with
  | UpdateGrid _ => true
  | _ => false
  end.

(** The 500 ms that the relay worker sleeps after each contact. *)
Definition is_relay_pause (e : Effect) : bool :=
  match e with
  | EvSleep ms => ms =? 500
  | _ => false
  end.

(** How many contacts were put on the queue, and how many the relay worker
    has taken from it. *)
Definition queue_puts (tr : list Effect) : nat :=
  length (List.filter is_queue_put tr).

Definition relay_passes (tr : list Effect) : nat :=
  length (List.filter is_relay_pause tr).

(** The logger of a TCP operation. *)
Definition tcp_logger (e : Effect) : option Logger :=
  match e with
  | EvTcpConnect l _ => Some l
  | EvTcpSendall l _ => Some l
  | _ => None
  end.

(** Every contact that was put on the queue is still waiting in it or was
    taken by one pass of the relay worker. *)
Definition queue_balanced (st : RadioUpdater) : Prop :=
  queue_puts (trace st)
  = (relay_passes (trace st) + length (qso_queue st))%nat.

(** ** Text helpers of the ADIF backup *)

(** [sub in s] for a non-empty [sub]. *)
Fixpoint contains (sub s : pystr) : bool :=
  starts_with sub s
  || match s with
     | [] => false
     | _ :: s' => contains sub s'
     end.

(** [s.endswith(suffix)] *)
Definition endswith (suffix s : pystr) : bool :=
  starts_with (rev suffix) (rev s).

(** [s.split(sep)[0]] for a separator of one character. *)
Fixpoint split_head (sep : Z) (s : pystr) : pystr :=
  match s with
  | [] => []
  | c :: s' => if c =? sep then [] else c :: split_head sep s'
  end.

(** [map_contest_id(contest_name)] *)
Definition map_contest_id (env : Env) (contest_name : pystr) : pystr :=
  match contest_name with
  | [] => []
  | _ =>
    let name := str_upper env contest_name in
    if contains (str "VHF") name && contains (str "JAN") name
    then str "ARRL-VHF-JAN"
    else if contains (str "VHF") name && contains (str "JUN") name
    then str "ARRL-VHF-JUN"
    else if contains (str "VHF") name && contains (str "SEP") name
    then str "ARRL-VHF-SEP"
    else if contains (str "222") name then str "ARRL-222"
    else if contains (str "UHF") name then str "ARRL-UHF-AUG"
    else if contains (str "SPRINT") name then str "CSVHF-SPRINT"
    else if contains (str "OK") name && contains (str "QSO") name
    then str "OK-QSO-PARTY"
    else if contains (str "CQ") name && contains (str "VHF") name
    then str "CQ-VHF"
    else contest_name
  end.

(** [is_rover_call(callsign)] *)
Definition is_rover_call (env : Env) (callsign : pystr) : bool :=
  endswith (str "/R") (str_upper env callsign).

(** The loop of [_derive_prefix]: the characters up to the first digit,
    the digit included; [None] when the loop ends without a digit. *)
Fixpoint up_to_digit (isdigit : Z -> bool) (s : pystr) : option pystr :=
  match s with
  | [] => None
  | ch :: s' =>
    if isdigit ch then Some [ch]
    else match up_to_digit isdigit s' with
         | Some prefix => Some (ch :: prefix)
         | None => None
         end
  end.

(** [_derive_prefix(callsign)]; [isdigit] is [str.isdigit] on one
    character. *)
Definition _derive_prefix (env : Env) (isdigit : Z -> bool) (callsign : pystr)
  : pystr :=
  match callsign with
  | [] => []
  | _ =>
    let base_call := str_upper env (split_head 47 callsign) in
    match up_to_digit isdigit base_call with
    | Some prefix => prefix
    | None => base_call
    end
  end.

(** ** The record of the ADIF backup *)

(** [qso_data.get(key, default)] for a key that a stamper may have added. *)
Definition get_or (q : QsoData) (key : string) (default : pystr) : pystr :=
  match dict_get (stamped q) (str key) with
  | Some v => v
  | None => default
  end.

(** [if value: fields.append(f"<{name}:{len(value)}>{value}")] *)
Definition opt_field (name : string) (value : pystr) : list pystr :=
  match value with
  | [] => []
  | _ => [adif_field (str name) value]
  end.

(** The list [fields] of [_build_adif_record] before its [<eor>]. *)
Definition adif_record_fields (env : Env) (isdigit : Z -> bool) (q : QsoData)
  : list pystr :=
  let call := dx_call q in
  let freq := fmt_mhz env 6 (freq_hz q) in
  let contest_id := get_or q "contest_id" [] in
  let exch_sent := or_else (exchange_sent q) (get_or q "stx_string" []) in
  let exch_rcvd := or_else (exchange_rcvd q) (get_or q "srx_string" []) in
  let my_call := my_call q in
  let my_grid := my_grid q in
  let rover_qth :=
    match get_or q "rover_qth" [], my_grid with
    | [], _ :: _ => slice my_grid 0 4
    | r, _ => r
    end in
  let comment :=
    str "Via " ++ wsjtx_id q
    ++ match comments q with
       | [] => []
       | c => str " - " ++ c
       end in
  [adif_field (str "call") call]
  ++ match datetime_on q with
     | Some t => [ str "<qso_date:8>" ++ strftime t fmt_Ymd;
                   str "<time_on:6>" ++ strftime t fmt_HMS ]
     | None => []
     end
  ++ match datetime_off q with
     | Some t => [ str "<qso_date_off:8>" ++ strftime t fmt_Ymd;
                   str "<time_off:6>" ++ strftime t fmt_HMS ]
     | None => []
     end
  ++ opt_field "band" (band q)
  ++ opt_field "mode" (mode q)
  ++ [adif_field (str "freq") freq; adif_field (str "freq_rx") freq]
  ++ opt_field "rst_sent" (report_sent q)
  ++ opt_field "rst_rcvd" (report_rcvd q)
  ++ opt_field "tx_pwr" (tx_power q)
  ++ match contest_id with
     | [] => []
     | _ => [adif_field (str "contest_id") (map_contest_id env contest_id)]
     end
  ++ opt_field "stx" (get_or q "stx" [])
  ++ opt_field "srx" (get_or q "srx" [])
  ++ opt_field "stx_string" exch_sent
  ++ opt_field "srx_string" exch_rcvd
  ++ opt_field "gridsquare" (dx_grid q)
  ++ (if is_rover_call env call
      then [ str "<dxcc:3>291"; str "<cqz:1>4"; str "<ituz:1>7";
             str "<country:13>United States" ]
           ++ opt_field "pfx" (_derive_prefix env isdigit call)
      else [])
  ++ match my_call with
     | [] => []
     | _ => [ adif_field (str "station_callsign") my_call;
              adif_field (str "operator") my_call;
              adif_field (str "owner_callsign") (split_head 47 my_call) ]
     end
  ++ opt_field "my_gridsquare" my_grid
  ++ opt_field "my_state" (get_or q "my_state" [])
  ++ opt_field "my_cnty" (get_or q "my_county" [])
  ++ opt_field "my_lat" (get_or q "my_lat" [])
  ++ opt_field "my_lon" (get_or q "my_lon" [])
  ++ [ adif_field (str "my_country") (get_or q "my_country" (str "United States"));
       adif_field (str "my_cq_zone") (get_or q "my_cq_zone" (str "4"));
       adif_field (str "my_itu_zone") (get_or q "my_itu_zone" (str "7"));
       adif_field (str "my_dxcc") (get_or q "my_dxcc" (str "291")) ]
  ++ opt_field "app_n5zy_roverqth" rover_qth
  ++ [ str "<qsl_sent:1>N"; str "<qsl_rcvd:1>N"; str "<lotw_qsl_sent:1>N";
       str "<lotw_qsl_rcvd:1>N"; str "<qso_complete:1>Y";
       str "<programid:12>N5ZY-CoPilot" ]
  ++ [adif_field (str "comment") comment].

(** [_build_adif_record(qso_data)] for a contact that has the keys of
    [_parse_qso_logged]. *)
Definition _build_adif_record (env : Env) (isdigit : Z -> bool) (q : QsoData)
  : pystr :=
  join (str " ") (adif_record_fields env isdigit q ++ [str "<eor>"]).

(** A field of a record that declares the length of its value. *)
Definition adif_field_ok (field : pystr) : Prop :=
  exists name value, field = adif_field name value.

(** ** The ADIF backup file *)

(** [strftime('%A, %B %d, %Y')] in the C locale. *)
Definition weekday (dt : datetime) : Z := (toordinal dt + 6) mod 7.

Definition day_name (dt : datetime) : pystr :=
  match weekday dt with
  | 0 => str "Monday" | 1 => str "Tuesday" | 2 => str "Wednesday"
  | 3 => str "Thursday" | 4 => str "Friday" | 5 => str "Saturday"
  | _ => str "Sunday"
  end.

Definition month_name (dt : datetime) : pystr :=
  match month dt with
  | 1 => str "January" | 2 => str "February" | 3 => str "March"
  | 4 => str "April" | 5 => str "May" | 6 => str "June"
  | 7 => str "July" | 8 => str "August" | 9 => str "September"
  | 10 => str "October" | 11 => str "November" | _ => str "December"
  end.

Definition strftime_created (dt : datetime) : pystr :=
  day_name dt ++ str ", " ++ month_name dt ++ str " "
  ++ strftime dt [dd; lit 44; lit 32; dY].

(** The header that [_write_qso_to_adif] gives a new file; [now] is its
    second reading of the clock. *)
Definition adif_header (now : datetime) : pystr :=
  str "#++++++++++++++++++++++++++++++++++++" ++ [10]
  ++ str "#   N5ZY Co-Pilot GPS-stamped log" ++ [10]
  ++ str "#   Created: " ++ strftime_created now ++ [10]
  ++ str "#   For LoTW upload via Log4OM" ++ [10]
  ++ str "#++++++++++++++++++++++++++++++++++++" ++ [10; 10]
  ++ str "<adif_ver:5>3.1.4" ++ [10]
  ++ str "<programid:12>N5ZY-CoPilot" ++ [10]
  ++ str "<programversion:6>1.8.32" ++ [10]
  ++ str "<eoh>" ++ [10; 10].

(** The files of the log directory by name, each with its text. *)
Definition Files := list (pystr * pystr).

(** The name of the file of the day: [f'n5zy_copilot_{today}.adi']. *)
Definition adif_name (now : datetime) : pystr :=
  str "n5zy_copilot_" ++ strftime now fmt_Ymd ++ str ".adi".

(** [open(path, 'a')] and [f.write(text)]: the file is created when it
    does not exist. *)
Definition append_to (files : Files) (name text : pystr) : Files :=
  match dict_get files name with
  | Some old => dict_set files name (old ++ text)
  | None => dict_set files name text
  end.

(** [_write_qso_to_adif(qso_data)] on the log directory; [now] and
    [created] are its two readings of the clock. *)
Definition _write_qso_to_adif (env : Env) (isdigit : Z -> bool)
    (files : Files) (now created : datetime) (q : QsoData) : Files :=
  let adif_path := adif_name now in
  let write_header :=
    match dict_get files adif_path with
    | Some _ => false
    | None => true
    end in
  let files :=
    if write_header then append_to files adif_path (adif_header created)
    else files in
  append_to files adif_path (_build_adif_record env isdigit q ++ [10]).

(** The file part of [_handle_adif_logged]. *)
Definition append_adif_logged (files : Files) (now : datetime)
    (adif_record : pystr) : Files :=
  append_to files (adif_name now) (adif_record ++ [10]).

(** The writes of a session to the log directory, as the contact handler
    and the ADIF handler make them, each with its readings of the clock. *)
Inductive AdifWrite :=
| WriteQso (now created : datetime) (q : QsoData)
| AppendLogged (now : datetime) (adif_record : pystr).

Definition adif_write (env : Env) (isdigit : Z -> bool) (files : Files)
    (w : AdifWrite) : Files :=
  match w with
  | WriteQso now created q => _write_qso_to_adif env isdigit files now created q
  | AppendLogged now adif_record => append_adif_logged files now adif_record
  end.

Definition adif_writes_all (env : Env) (isdigit : Z -> bool) (files : Files)
    (ws : list AdifWrite) : Files :=
  fold_left (adif_write env isdigit) ws files.

(** The text that a write adds after the header. *)
Definition adif_line (env : Env) (isdigit : Z -> bool) (w : AdifWrite) : pystr :=
  match w with
  | WriteQso _ _ q => _build_adif_record env isdigit q ++ [10]
  | AppendLogged _ adif_record => adif_record ++ [10]
  end.

Definition write_clock (w : AdifWrite) : datetime :=
  match w with
  | WriteQso now _ _ => now
  | AppendLogged now _ => now
  end.

(** An environment whose [upper] is that of ASCII text. *)
Definition ascii_env : Env :=
  mk_env (fun _ hz => py_str_int hz) ascii_upper None false.

(** [str.isdigit] on the ASCII characters. *)
Definition ascii_isdigit (c : Z) : bool := between 48 c 57.
(** * Properties *)

(** ** Bytes and big-endian integers *)

Lemma byte_to_Z_range (b : byte) : 0 <= byte_to_Z b < 256.
Proof.
  unfold byte_to_Z. pose proof (Byte.to_N_bounded b). lia.
Qed.

Lemma byte_of_to_Z (b : byte) : byte_of_Z (byte_to_Z b) = b.
Proof.
  unfold byte_of_Z. pose proof (byte_to_Z_range b) as Hr.
  rewrite Z.mod_small by exact Hr.
  unfold byte_to_Z. rewrite N2Z.id, Byte.of_to_N. reflexivity.
Qed.

Lemma byte_to_of_Z (z : Z) : 0 <= z < 256 -> byte_to_Z (byte_of_Z z) = z.
Proof.
  intros Hz. unfold byte_of_Z. rewrite Z.mod_small by exact Hz.
  destruct (Byte.of_N (Z.to_N z)) as [b|] eqn:E.
  - apply Byte.to_of_N in E. unfold byte_to_Z. rewrite E. lia.
  - apply Byte.of_N_None_iff in E. lia.
Qed.

Lemma byte_of_Z_mod (z : Z) : byte_of_Z (z mod 256) = byte_of_Z z.
Proof.
  unfold byte_of_Z. rewrite Z.mod_mod by lia. reflexivity.
Qed.

Lemma len_app {A} (l1 l2 : list A) : len (l1 ++ l2) = len l1 + len l2.
Proof. unfold len. rewrite length_app. lia. Qed.

Lemma len_nonneg {A} (l : list A) : 0 <= len l.
Proof. unfold len. lia. Qed.

Lemma length_be_bytes k n : length (be_bytes k n) = k.
Proof.
  revert n. induction k as [|k IH]; intros n; simpl; [reflexivity|].
  rewrite length_app, IH. simpl. lia.
Qed.

Lemma be_value_app bs b : be_value (bs ++ [b]) = be_value bs * 256 + byte_to_Z b.
Proof. unfold be_value. rewrite fold_left_app. reflexivity. Qed.

Lemma be_value_bytes k n :
  0 <= n < 256 ^ Z.of_nat k -> be_value (be_bytes k n) = n.
Proof.
  revert n. induction k as [|k IH]; intros n Hn.
  - simpl in *. unfold be_value. simpl. lia.
  - cbn [be_bytes]. rewrite be_value_app.
    rewrite Nat2Z.inj_succ, Z.pow_succ_r in Hn by lia.
    rewrite IH by (split; [apply Z.div_pos; lia | apply Z.div_lt_upper_bound; lia]).
    rewrite <- byte_of_Z_mod, byte_to_of_Z by (apply Z.mod_pos_bound; lia).
    pose proof (Z.div_mod n 256). lia.
Qed.

Lemma be_value_range bs : 0 <= be_value bs < 256 ^ len bs.
Proof.
  induction bs as [|b bs IH] using rev_ind.
  - unfold be_value, len. simpl. lia.
  - rewrite be_value_app, len_app. unfold len at 2. simpl length.
    pose proof (byte_to_Z_range b). pose proof (len_nonneg bs).
    rewrite Z.pow_add_r by lia. change (256 ^ Z.of_nat 1) with 256. nia.
Qed.

Lemma be_bytes_value bs : be_bytes (length bs) (be_value bs) = bs.
Proof.
  induction bs as [|b bs IH] using rev_ind; [reflexivity|].
  rewrite length_app, Nat.add_comm. cbn [length Nat.add be_bytes].
  rewrite be_value_app. pose proof (byte_to_Z_range b).
  replace ((be_value bs * 256 + byte_to_Z b) / 256) with (be_value bs)
    by (apply Z.div_unique with (r := byte_to_Z b); lia).
  rewrite IH. f_equal. f_equal.
  rewrite <- byte_of_Z_mod.
  replace ((be_value bs * 256 + byte_to_Z b) mod 256) with (byte_to_Z b)
    by (apply Z.mod_unique with (q := be_value bs); lia).
  apply byte_of_to_Z.
Qed.

Lemma unpack_pack_uint k n bs :
  pack_uint k n = Ok bs -> unpack_uint k bs = Ok n.
Proof.
  unfold pack_uint, unpack_uint. intros H.
  destruct ((0 <=? n) && (n <? 256 ^ Z.of_nat k)) eqn:E; [|discriminate].
  injection H as <-. rewrite length_be_bytes, Nat.eqb_refl.
  apply andb_true_iff in E as [E1 E2].
  rewrite be_value_bytes by lia. reflexivity.
Qed.

Lemma pack_unpack_uint k bs n :
  unpack_uint k bs = Ok n -> pack_uint k n = Ok bs.
Proof.
  unfold pack_uint, unpack_uint. intros H.
  destruct (Nat.eqb (length bs) k) eqn:E; [|discriminate].
  apply Nat.eqb_eq in E. injection H as <-.
  pose proof (be_value_range bs) as Hr. unfold len in Hr. rewrite E in Hr.
  replace ((0 <=? be_value bs) && (be_value bs <? 256 ^ Z.of_nat k)) with true
    by (symmetry; apply andb_true_iff; lia).
  rewrite <- E, be_bytes_value. reflexivity.
Qed.

(** ** UTF-8 *)

Ltac ltb_true := rewrite (proj2 (Z.ltb_lt _ _)) by lia.
Ltac ltb_false := rewrite (proj2 (Z.ltb_ge _ _)) by lia.
Ltac leb_true := rewrite (proj2 (Z.leb_le _ _)) by lia.
Ltac leb_false := rewrite (proj2 (Z.leb_gt _ _)) by lia.

Lemma is_cont_true x : 0x80 <= x < 0xC0 -> is_cont x = true.
Proof. intros H. unfold is_cont. apply andb_true_iff. lia. Qed.

Lemma is_cont_inv x : is_cont x = true -> 0x80 <= x < 0xC0.
Proof. unfold is_cont. intros H. apply andb_true_iff in H. lia. Qed.

Lemma is_surrogate_false c : c < 0xD800 \/ 0xDFFF < c -> is_surrogate c = false.
Proof. intros H. unfold is_surrogate. apply andb_false_iff. lia. Qed.

Lemma is_surrogate_false_inv c : is_surrogate c = false -> c < 0xD800 \/ 0xDFFF < c.
Proof. unfold is_surrogate. intros H. apply andb_false_iff in H. lia. Qed.

Lemma utf8_decode_encode_char c bs rest :
  utf8_encode_char c = Some bs ->
  utf8_decode (bs ++ rest) = push c (utf8_decode rest).
Proof.
  unfold utf8_encode_char.
  destruct (Z.ltb_spec c 0); [discriminate|].
  destruct (Z.ltb_spec c 0x80).
  { intros [= <-]. cbn [app utf8_decode].
    rewrite byte_to_of_Z by lia. ltb_true. reflexivity. }
  destruct (Z.ltb_spec c 0x800).
  { intros [= <-]. cbn [app utf8_decode].
    pose proof (Z.div_mod c 64 ltac:(lia)) as Hc.
    pose proof (Z.mod_pos_bound c 64 ltac:(lia)) as Hr.
    set (q := c / 64) in *. set (r := c mod 64) in *.
    rewrite !byte_to_of_Z by lia.
    do 2 ltb_false. ltb_true. rewrite is_cont_true by lia.
    f_equal. lia. }
  destruct (Z.ltb_spec c 0x10000).
  { destruct (is_surrogate c) eqn:Hs; [discriminate|].
    apply is_surrogate_false_inv in Hs.
    intros [= <-]. cbn [app utf8_decode].
    pose proof (Z.div_mod c 64 ltac:(lia)) as Hc.
    pose proof (Z.mod_pos_bound c 64 ltac:(lia)) as Hr.
    pose proof (Z.div_mod (c / 64) 64 ltac:(lia)) as Hc1.
    pose proof (Z.mod_pos_bound (c / 64) 64 ltac:(lia)) as Hr1.
    replace (c / 4096) with (c / 64 / 64)
      by (rewrite Z.div_div by lia; reflexivity).
    set (q := c / 64) in *. set (r := c mod 64) in *.
    set (q1 := q / 64) in *. set (r1 := q mod 64) in *.
    rewrite !byte_to_of_Z by lia.
    do 3 ltb_false. ltb_true. rewrite !is_cont_true by lia.
    replace ((224 + q1 - 224) * 4096 + (128 + r1 - 128) * 64 + (128 + r - 128))
      with c by lia.
    leb_true. rewrite is_surrogate_false by lia. reflexivity. }
  destruct (Z.ltb_spec c 0x110000); [|discriminate].
  intros [= <-]. cbn [app utf8_decode].
  pose proof (Z.div_mod c 64 ltac:(lia)) as Hc.
  pose proof (Z.mod_pos_bound c 64 ltac:(lia)) as Hr.
  pose proof (Z.div_mod (c / 64) 64 ltac:(lia)) as Hc1.
  pose proof (Z.mod_pos_bound (c / 64) 64 ltac:(lia)) as Hr1.
  pose proof (Z.div_mod (c / 64 / 64) 64 ltac:(lia)) as Hc2.
  pose proof (Z.mod_pos_bound (c / 64 / 64) 64 ltac:(lia)) as Hr2.
  replace (c / 262144) with (c / 64 / 64 / 64)
    by (rewrite !Z.div_div by lia; reflexivity).
  replace (c / 4096) with (c / 64 / 64)
    by (rewrite Z.div_div by lia; reflexivity).
  set (q := c / 64) in *. set (r := c mod 64) in *.
  set (q1 := q / 64) in *. set (r1 := q mod 64) in *.
  set (q2 := q1 / 64) in *. set (r2 := q1 mod 64) in *.
  rewrite !byte_to_of_Z by lia.
  do 4 ltb_false. ltb_true. rewrite !is_cont_true by lia.
  replace ((240 + q2 - 240) * 262144 + (128 + r2 - 128) * 4096
           + (128 + r1 - 128) * 64 + (128 + r - 128)) with c by lia.
  leb_true. ltb_true. reflexivity.
Qed.

Lemma utf8_decode_encode s bs :
  utf8_encode s = Some bs -> utf8_decode bs = Some s.
Proof.
  revert bs. induction s as [|c s IH]; intros bs; cbn [utf8_encode].
  - intros [= <-]. reflexivity.
  - destruct (utf8_encode_char c) as [cb|] eqn:Ec; [|discriminate].
    destruct (utf8_encode s) as [rest|]; [|discriminate].
    intros [= <-]. rewrite (utf8_decode_encode_char _ _ _ Ec).
    rewrite (IH rest eq_refl). reflexivity.
Qed.

Lemma byte_of_Z_eq z b : z = byte_to_Z b -> byte_of_Z z = b.
Proof. intros ->. apply byte_of_to_Z. Qed.

Lemma utf8_encode_char_1 b0 :
  byte_to_Z b0 < 0x80 -> utf8_encode_char (byte_to_Z b0) = Some [b0].
Proof.
  intros H. pose proof (byte_to_Z_range b0). unfold utf8_encode_char.
  ltb_false. ltb_true. rewrite byte_of_to_Z. reflexivity.
Qed.

Lemma utf8_encode_char_2 b0 b1 :
  0xC2 <= byte_to_Z b0 < 0xE0 -> is_cont (byte_to_Z b1) = true ->
  utf8_encode_char ((byte_to_Z b0 - 0xC0) * 64 + (byte_to_Z b1 - 0x80))
  = Some [b0; b1].
Proof.
  intros H0 H1%is_cont_inv.
  set (x0 := byte_to_Z b0) in *. set (x1 := byte_to_Z b1) in *.
  set (c := (x0 - 0xC0) * 64 + (x1 - 0x80)).
  assert (Hq : c / 64 = x0 - 0xC0)
    by (symmetry; apply Z.div_unique with (r := x1 - 0x80); subst c; lia).
  assert (Hr : c mod 64 = x1 - 0x80)
    by (symmetry; apply Z.mod_unique with (q := x0 - 0xC0); subst c; lia).
  unfold utf8_encode_char. rewrite Hq, Hr.
  do 2 ltb_false. ltb_true.
  rewrite (byte_of_Z_eq _ b0), (byte_of_Z_eq _ b1) by (subst x0 x1; lia).
  reflexivity.
Qed.

Lemma utf8_encode_char_3 b0 b1 b2 :
  let c := (byte_to_Z b0 - 0xE0) * 4096 + (byte_to_Z b1 - 0x80) * 64
           + (byte_to_Z b2 - 0x80) in
  0xE0 <= byte_to_Z b0 < 0xF0 ->
  is_cont (byte_to_Z b1) = true -> is_cont (byte_to_Z b2) = true ->
  0x800 <= c -> is_surrogate c = false ->
  utf8_encode_char c = Some [b0; b1; b2].
Proof.
  intros c H0 H1%is_cont_inv H2%is_cont_inv Hlo Hs.
  set (x0 := byte_to_Z b0) in *. set (x1 := byte_to_Z b1) in *.
  set (x2 := byte_to_Z b2) in *.
  assert (Hq : c / 64 = (x0 - 0xE0) * 64 + (x1 - 0x80))
    by (symmetry; apply Z.div_unique with (r := x2 - 0x80); subst c; lia).
  assert (Hr : c mod 64 = x2 - 0x80)
    by (symmetry; apply Z.mod_unique with (q := (x0 - 0xE0) * 64 + (x1 - 0x80));
        subst c; lia).
  assert (Hq1 : c / 4096 = x0 - 0xE0)
    by (symmetry; apply Z.div_unique with (r := (x1 - 0x80) * 64 + (x2 - 0x80));
        subst c; lia).
  assert (Hr1 : (c / 64) mod 64 = x1 - 0x80)
    by (rewrite Hq; symmetry; apply Z.mod_unique with (q := x0 - 0xE0); lia).
  unfold utf8_encode_char. rewrite Hs, Hq1, Hr1, Hr.
  do 3 ltb_false. ltb_true.
  rewrite (byte_of_Z_eq _ b0), (byte_of_Z_eq _ b1), (byte_of_Z_eq _ b2)
    by (subst x0 x1 x2; lia).
  reflexivity.
Qed.

Lemma utf8_encode_char_4 b0 b1 b2 b3 :
  let c := (byte_to_Z b0 - 0xF0) * 262144 + (byte_to_Z b1 - 0x80) * 4096
           + (byte_to_Z b2 - 0x80) * 64 + (byte_to_Z b3 - 0x80) in
  0xF0 <= byte_to_Z b0 < 0xF5 ->
  is_cont (byte_to_Z b1) = true -> is_cont (byte_to_Z b2) = true ->
  is_cont (byte_to_Z b3) = true ->
  0x10000 <= c < 0x110000 ->
  utf8_encode_char c = Some [b0; b1; b2; b3].
Proof.
  intros c H0 H1%is_cont_inv H2%is_cont_inv H3%is_cont_inv Hc.
  set (x0 := byte_to_Z b0) in *. set (x1 := byte_to_Z b1) in *.
  set (x2 := byte_to_Z b2) in *. set (x3 := byte_to_Z b3) in *.
  set (h := (x0 - 0xF0) * 64 + (x1 - 0x80)).
  assert (Hq : c / 64 = h * 64 + (x2 - 0x80))
    by (symmetry; apply Z.div_unique with (r := x3 - 0x80); subst c h; lia).
  assert (Hr : c mod 64 = x3 - 0x80)
    by (symmetry; apply Z.mod_unique with (q := h * 64 + (x2 - 0x80));
        subst c h; lia).
  assert (Hq1 : c / 4096 = h)
    by (symmetry; apply Z.div_unique with (r := (x2 - 0x80) * 64 + (x3 - 0x80));
        subst c h; lia).
  assert (Hr1 : (c / 64) mod 64 = x2 - 0x80)
    by (rewrite Hq; symmetry; apply Z.mod_unique with (q := h); subst h; lia).
  assert (Hq2 : c / 262144 = x0 - 0xF0)
    by (symmetry;
        apply Z.div_unique
          with (r := (x1 - 0x80) * 4096 + (x2 - 0x80) * 64 + (x3 - 0x80));
        subst c; lia).
  assert (Hr2 : (c / 4096) mod 64 = x1 - 0x80)
    by (rewrite Hq1; symmetry; apply Z.mod_unique with (q := x0 - 0xF0);
        subst h; lia).
  unfold utf8_encode_char. rewrite Hq2, Hr2, Hr1, Hr.
  do 4 ltb_false. ltb_true.
  rewrite (byte_of_Z_eq _ b0), (byte_of_Z_eq _ b1), (byte_of_Z_eq _ b2),
    (byte_of_Z_eq _ b3) by (subst x0 x1 x2 x3; lia).
  reflexivity.
Qed.

Lemma push_Some c o s : push c o = Some s -> exists s', o = Some s' /\ s = c :: s'.
Proof. destruct o as [s'|]; [intros [= <-]; eauto | discriminate]. Qed.

Lemma utf8_encode_cons c s cb rest :
  utf8_encode_char c = Some cb -> utf8_encode s = Some rest ->
  utf8_encode (c :: s) = Some (cb ++ rest).
Proof. intros Hc Hs. cbn [utf8_encode]. rewrite Hc, Hs. reflexivity. Qed.

Lemma utf8_encode_decode_bounded (n : nat) : forall bs s,
  (length bs <= n)%nat -> utf8_decode bs = Some s -> utf8_encode s = Some bs.
Proof.
  induction n as [|n IH]; intros bs s Hn.
  { destruct bs; [|simpl in Hn; lia]. intros [= <-]. reflexivity. }
  destruct bs as [|b0 t0]; [intros [= <-]; reflexivity|].
  cbn [utf8_decode]. cbn [length] in Hn.
  pose proof (byte_to_Z_range b0) as R0.
  destruct (Z.ltb_spec (byte_to_Z b0) 0x80).
  { intros (s' & Hd & ->)%push_Some.
    apply (utf8_encode_cons _ _ [b0] t0); [apply utf8_encode_char_1; lia|].
    apply IH; [lia | exact Hd]. }
  destruct (Z.ltb_spec (byte_to_Z b0) 0xC2); [discriminate|].
  destruct (Z.ltb_spec (byte_to_Z b0) 0xE0).
  { destruct t0 as [|b1 t1]; [discriminate|].
    destruct (is_cont (byte_to_Z b1)) eqn:C1; [|discriminate].
    intros (s' & Hd & ->)%push_Some.
    apply (utf8_encode_cons _ _ [b0; b1] t1);
      [apply utf8_encode_char_2; [lia | exact C1]|].
    apply IH; [cbn [length] in Hn; lia | exact Hd]. }
  destruct (Z.ltb_spec (byte_to_Z b0) 0xF0).
  { destruct t0 as [|b1 [|b2 t2]]; try discriminate.
    destruct (is_cont (byte_to_Z b1)) eqn:C1; [|discriminate].
    destruct (is_cont (byte_to_Z b2)) eqn:C2; [|discriminate].
    cbn [andb].
    match goal with |- context [0x800 <=? ?c] => destruct (Z.leb_spec 0x800 c) end;
      [|discriminate].
    cbn [andb].
    match goal with |- context [is_surrogate ?c] => destruct (is_surrogate c) eqn:Hs end;
      [discriminate|].
    cbn [negb].
    intros (s' & Hd & ->)%push_Some.
    apply (utf8_encode_cons _ _ [b0; b1; b2] t2);
      [apply utf8_encode_char_3; solve [lia | assumption]|].
    apply IH; [cbn [length] in Hn; lia | exact Hd]. }
  destruct (Z.ltb_spec (byte_to_Z b0) 0xF5); [|discriminate].
  destruct t0 as [|b1 [|b2 [|b3 t3]]]; try discriminate.
  destruct (is_cont (byte_to_Z b1)) eqn:C1; [|discriminate].
  destruct (is_cont (byte_to_Z b2)) eqn:C2; [|discriminate].
  destruct (is_cont (byte_to_Z b3)) eqn:C3; [|discriminate].
  cbn [andb].
  match goal with |- context [0x10000 <=? ?c] => destruct (Z.leb_spec 0x10000 c) end;
    [|discriminate].
  cbn [andb].
  match goal with |- context [?c <? 0x110000] => destruct (Z.ltb_spec c 0x110000) end;
    [|discriminate].
  intros (s' & Hd & ->)%push_Some.
  apply (utf8_encode_cons _ _ [b0; b1; b2; b3] t3);
    [apply utf8_encode_char_4; solve [lia | assumption]|].
  apply IH; [cbn [length] in Hn; lia | exact Hd].
Qed.

Lemma utf8_encode_decode bs s :
  utf8_decode bs = Some s -> utf8_encode s = Some bs.
Proof. apply (utf8_encode_decode_bounded (length bs)). lia. Qed.

Lemma utf8_decode_nil_inv bs : utf8_decode bs = Some [] -> bs = [].
Proof.
  intros H%utf8_encode_decode. cbn in H. congruence.
Qed.

(** ** The calendar *)

Lemma month_part n (b : bool) : 0 <= n < 365 ->
  let m := Z.shiftr (n + 50) 5 in
  let preceding := _DAYS_BEFORE_MONTH m + b2z ((2 <? m) && b) in
  let '(m, preceding) :=
    if preceding >? n
    then (m - 1, preceding - (_DAYS_IN_MONTH (m - 1) + b2z ((m - 1 =? 2) && b)))
    else (m, preceding) in
  1 <= m <= 12 /\
  preceding = _DAYS_BEFORE_MONTH m + b2z ((2 <? m) && b) /\
  0 <= n - preceding < _DAYS_IN_MONTH m + b2z ((m =? 2) && b).
Proof.
  intros Hn.
  pose (chk := fun (n : Z) (b : bool) =>
    let m := Z.shiftr (n + 50) 5 in
    let preceding := _DAYS_BEFORE_MONTH m + b2z ((2 <? m) && b) in
    let '(m, preceding) :=
      if preceding >? n
      then (m - 1, preceding - (_DAYS_IN_MONTH (m - 1) + b2z ((m - 1 =? 2) && b)))
      else (m, preceding) in
    (1 <=? m) && (m <=? 12) &&
    (preceding =? _DAYS_BEFORE_MONTH m + b2z ((2 <? m) && b)) &&
    (0 <=? n - preceding) && (n - preceding <? _DAYS_IN_MONTH m + b2z ((m =? 2) && b))).
  assert (Hall : forallb (fun k => chk (Z.of_nat k) true && chk (Z.of_nat k) false) (seq 0 365) = true)
    by (vm_compute; reflexivity).
  rewrite forallb_forall in Hall.
  specialize (Hall (Z.to_nat n)). rewrite Z2Nat.id in Hall by lia.
  assert (Hc : chk n b = true).
  { assert (Hin : In (Z.to_nat n) (seq 0 365)) by (apply in_seq; lia).
    apply Hall in Hin. apply andb_true_iff in Hin. destruct b; tauto. }
  clear Hall. unfold chk in Hc. cbv zeta in *.
  destruct (_ >? n).
  - repeat (apply andb_true_iff in Hc as [Hc ?]). lia.
  - repeat (apply andb_true_iff in Hc as [Hc ?]). lia.
Qed.

Lemma is_leap_spec y :
  _is_leap y = true <-> (y mod 4 = 0 /\ (y mod 100 <> 0 \/ y mod 400 = 0)).
Proof.
  unfold _is_leap. rewrite andb_true_iff, orb_true_iff, negb_true_iff.
  rewrite !Z.eqb_eq, Z.eqb_neq. tauto.
Qed.

Lemma ord2ymd_spec n y m d :
  1 <= n -> _ord2ymd n = (y, m, d) ->
  1 <= y /\ 1 <= m <= 12 /\ 1 <= d <= _days_in_month y m /\ _ymd2ord y m d = n.
Proof.
  intros Hn. unfold _ord2ymd, _DI400Y, _DI100Y, _DI4Y. cbv zeta.
  pose proof (Z.div_mod (n - 1) 146097 ltac:(lia)) as E400.
  pose proof (Z.mod_pos_bound (n - 1) 146097 ltac:(lia)) as B400.
  assert (P400 : 0 <= (n - 1) / 146097) by (apply Z.div_pos; lia).
  set (n400 := (n - 1) / 146097) in *. set (r400 := (n - 1) mod 146097) in *.
  clearbody n400 r400.
  pose proof (Z.div_mod r400 36524 ltac:(lia)) as E100.
  pose proof (Z.mod_pos_bound r400 36524 ltac:(lia)) as B100.
  assert (P100 : 0 <= r400 / 36524) by (apply Z.div_pos; lia).
  set (n100 := r400 / 36524) in *. set (r100 := r400 mod 36524) in *.
  clearbody n100 r100.
  pose proof (Z.div_mod r100 1461 ltac:(lia)) as E4.
  pose proof (Z.mod_pos_bound r100 1461 ltac:(lia)) as B4.
  assert (P4 : 0 <= r100 / 1461) by (apply Z.div_pos; lia).
  set (n4 := r100 / 1461) in *. set (r4 := r100 mod 1461) in *.
  clearbody n4 r4.
  pose proof (Z.div_mod r4 365 ltac:(lia)) as E1.
  pose proof (Z.mod_pos_bound r4 365 ltac:(lia)) as B1.
  assert (P1 : 0 <= r4 / 365) by (apply Z.div_pos; lia).
  set (n1 := r4 / 365) in *. set (r1 := r4 mod 365) in *.
  clearbody n1 r1.
  destruct ((n1 =? 4) || (n100 =? 4)) eqn:Hlast.
  - intros [= <- <- <-].
    apply orb_true_iff in Hlast. rewrite !Z.eqb_eq in Hlast.
    set (Y := n400 * 400 + 1 + (n100 * 100 + n4 * 4 + n1) - 1).
    assert (HL : _is_leap Y = true).
    { apply is_leap_spec. subst Y. Z.div_mod_to_equations. lia. }
    unfold _days_in_month, _ymd2ord, _days_before_year, _days_before_month.
    rewrite HL. cbn [Z.eqb andb Z.ltb Z.compare Pos.compare Pos.compare_cont
                     _DAYS_IN_MONTH _DAYS_BEFORE_MONTH b2z Pos.eqb].
    cbv zeta. subst Y. repeat split; try lia.
    Z.div_mod_to_equations. lia.
  - apply orb_false_iff in Hlast. rewrite !Z.eqb_neq in Hlast.
    set (leapyear := (n1 =? 3) && (negb (n4 =? 24) || (n100 =? 3))).
    pose proof (month_part r1 leapyear B1) as MP. cbv zeta in MP.
    destruct (if _ >? r1 then _ else _) as [mm preceding].
    intros [= <- <- <-].
    set (Y := n400 * 400 + 1 + (n100 * 100 + n4 * 4 + n1)).
    assert (Bn1 : n1 <= 3) by lia.
    assert (Bn100 : n100 <= 3) by lia.
    assert (Bn4 : n4 <= 24) by lia.
    assert (A4 : Y mod 4 = 0 <-> n1 = 3).
    { replace Y with (n1 + 1 + (n400 * 100 + n100 * 25 + n4) * 4) by (subst Y; lia).
      rewrite Z_mod_plus_full. split; intros; Z.div_mod_to_equations; lia. }
    assert (A100 : Y mod 100 = 0 <-> n4 * 4 + n1 + 1 = 100).
    { replace Y with (n4 * 4 + n1 + 1 + (n400 * 4 + n100) * 100) by (subst Y; lia).
      rewrite Z_mod_plus_full. split; intros; Z.div_mod_to_equations; lia. }
    assert (A400 : Y mod 400 = 0 <-> n100 * 100 + n4 * 4 + n1 + 1 = 400).
    { replace Y with (n100 * 100 + n4 * 4 + n1 + 1 + n400 * 400) by (subst Y; lia).
      rewrite Z_mod_plus_full. split; intros; Z.div_mod_to_equations; lia. }
    assert (HL : _is_leap Y = leapyear).
    { subst leapyear. destruct (_is_leap Y) eqn:EL.
      - apply is_leap_spec in EL. symmetry. apply andb_true_iff.
        rewrite orb_true_iff, negb_true_iff, Z.eqb_eq, Z.eqb_neq, Z.eqb_eq.
        lia.
      - symmetry. apply not_true_is_false. intros HT.
        apply andb_true_iff in HT.
        rewrite orb_true_iff, negb_true_iff, Z.eqb_eq, Z.eqb_neq, Z.eqb_eq in HT.
        assert (_is_leap Y = true); [|congruence].
        apply is_leap_spec. lia. }
    unfold _days_in_month, _ymd2ord, _days_before_year, _days_before_month.
    rewrite HL. destruct MP as (Hm & Hp & Hd).
    repeat split; try lia.
    + destruct ((mm =? 2) && leapyear) eqn:F; unfold b2z in Hd; [|lia].
      apply andb_true_iff in F as [F%Z.eqb_eq _]. subst mm.
      change (_DAYS_IN_MONTH 2) with 28 in Hd. lia.
    + rewrite <- Hp. cbv zeta. subst Y. Z.div_mod_to_equations. lia.
Qed.

Lemma days_before_month_bounds y m :
  1 <= m <= 12 -> 0 <= _days_before_month y m <= 335.
Proof.
  intros Hm. unfold _days_before_month, b2z.
  assert (Hc : m = 1 \/ m = 2 \/ m = 3 \/ m = 4 \/ m = 5 \/ m = 6 \/ m = 7
               \/ m = 8 \/ m = 9 \/ m = 10 \/ m = 11 \/ m = 12) by lia.
  destruct (_is_leap y);
    repeat (destruct Hc as [-> | Hc]; [cbn; lia|]); subst m; cbn; lia.
Qed.

Lemma ymd2ord_year_bound y m d :
  1 <= m <= 12 -> 1 <= d -> _ymd2ord y m d <= 3652059 -> y <= 9999.
Proof.
  intros Hm Hd. pose proof (days_before_month_bounds y m Hm).
  unfold _ymd2ord, _days_before_year. cbv zeta. intros Ho.
  destruct (Z_le_gt_dec y 9999) as [|Hy]; [assumption|exfalso].
  Z.div_mod_to_equations. lia.
Qed.

Lemma toordinal_bounds dt :
  valid_datetime dt -> 1 <= toordinal dt <= 3652060.
Proof.
  intros (Hy & Hm & Hd & _).
  pose proof (days_before_month_bounds (year dt) (month dt) Hm) as Hb.
  unfold toordinal, _ymd2ord in *.
  assert (Hdim : _days_in_month (year dt) (month dt)
                 + _days_before_month (year dt) (month dt) <= 366).
  { unfold _days_in_month, _days_before_month, b2z.
    assert (Hc : month dt = 1 \/ month dt = 2 \/ month dt = 3 \/ month dt = 4
                 \/ month dt = 5 \/ month dt = 6 \/ month dt = 7
                 \/ month dt = 8 \/ month dt = 9 \/ month dt = 10
                 \/ month dt = 11 \/ month dt = 12) by lia.
    destruct (_is_leap (year dt));
      repeat (destruct Hc as [-> | Hc]; [cbn; lia|]); rewrite Hc; cbn; lia. }
  unfold _days_before_year. cbv zeta.
  Z.div_mod_to_equations. lia.
Qed.

Lemma toordinal_epoch : toordinal epoch = 719163.
Proof. reflexivity. Qed.

Lemma new_timedelta_spec d s us t :
  new_timedelta d s us = Ok t ->
  (td_days t * 86400 + td_seconds t) * 1000000 + td_microseconds t
  = (d * 86400 + s) * 1000000 + us
  /\ 0 <= td_seconds t < 86400 /\ 0 <= td_microseconds t < 1000000.
Proof.
  unfold new_timedelta. cbv zeta.
  destruct (_ >? 999999999); [discriminate|].
  intros [= <-]. cbn [td_days td_seconds td_microseconds].
  Z.div_mod_to_equations. lia.
Qed.


Lemma datetime_add_spec dt td r :
  datetime_add dt td = Ok r ->
  valid_datetime r
  /\ epoch_microseconds r
     = epoch_microseconds dt
       + (td_days td * 86400 + td_seconds td) * 1000000 + td_microseconds td.
Proof.
  unfold datetime_add. cbv zeta.
  destruct (new_timedelta (toordinal dt) _ _) as [self|] eqn:Es; [|discriminate].
  cbn [bind]. unfold timedelta_add.
  destruct (new_timedelta (td_days self + _) _ _) as [delta|] eqn:Ed;
    [|discriminate].
  cbn [bind].
  apply new_timedelta_spec in Es as (Es & _ & _).
  apply new_timedelta_spec in Ed as (Ed & Bs & Bu).
  destruct ((0 <? td_days delta) && (td_days delta <=? _MAXORDINAL)) eqn:Hr;
    [|discriminate].
  apply andb_true_iff in Hr as [Hlo%Z.ltb_lt Hhi%Z.leb_le].
  destruct (_ord2ymd (td_days delta)) as [[y m] d] eqn:Eo.
  apply ord2ymd_spec in Eo as (Hy & Hm & Hd & Ho); [|lia].
  intros [= <-].
  assert (Hy' : y <= 9999)
    by (apply (ymd2ord_year_bound y m d); unfold _MAXORDINAL in *; lia).
  unfold valid_datetime, epoch_microseconds, epoch_seconds, toordinal.
  cbn [year month day hour minute second microsecond].
  rewrite Ho. change (_ymd2ord 1970 1 1) with 719163.
  split; [repeat split; try lia; Z.div_mod_to_equations; lia|].
  fold (toordinal dt).
  Z.div_mod_to_equations. lia.
Qed.

(** ** Slices *)

Lemma norm_index_in_range n i : 0 <= i <= n -> norm_index n i = i.
Proof. intros H. unfold norm_index. ltb_false. lia. Qed.

Lemma slice_in_range {A} (data : list A) lo hi :
  0 <= lo <= hi -> hi <= len data ->
  slice data lo hi = take (Z.to_nat (hi - lo)) (drop (Z.to_nat lo) data).
Proof.
  intros H1 H2. unfold slice. cbv zeta.
  rewrite !norm_index_in_range by lia. reflexivity.
Qed.

Lemma len_slice {A} (data : list A) lo hi :
  0 <= lo <= hi -> hi <= len data -> len (slice data lo hi) = hi - lo.
Proof.
  intros H1 H2. rewrite slice_in_range by assumption. unfold len in *.
  rewrite length_take, length_drop. lia.
Qed.

Lemma slice_app_mid {A} (a b c : list A) :
  slice (a ++ b ++ c) (len a) (len a + len b) = b.
Proof.
  pose proof (len_nonneg a). pose proof (len_nonneg b). pose proof (len_nonneg c).
  rewrite slice_in_range by (rewrite ?len_app; lia).
  replace (len a + len b - len a) with (len b) by lia.
  unfold len. rewrite !Nat2Z.id, drop_app_length, take_app_length. reflexivity.
Qed.

Lemma slice_app_mid' {A} (a b c : list A) lo hi :
  lo = len a -> hi = len a + len b -> slice (a ++ b ++ c) lo hi = b.
Proof. intros -> ->. apply slice_app_mid. Qed.

Lemma slice_cat {A} (data : list A) lo mid hi :
  0 <= lo <= mid -> mid <= hi -> hi <= len data ->
  slice data lo mid ++ slice data mid hi = slice data lo hi.
Proof.
  intros H1 H2 H3. rewrite !slice_in_range by lia.
  replace (Z.to_nat mid) with (Z.to_nat lo + Z.to_nat (mid - lo))%nat by lia.
  rewrite <- drop_drop, take_take_drop. f_equal. lia.
Qed.

(** ** Length-prefixed strings *)


Lemma utf8_encode_nil_inv s : utf8_encode s = Some [] -> s = [].
Proof.
  destruct s as [|c s]; [reflexivity|]. cbn [utf8_encode].
  destruct (utf8_encode_char c) as [cb|] eqn:Ec; [|discriminate].
  destruct (utf8_encode s); [|discriminate].
  intros [= H]. apply app_eq_nil in H as [-> _].
  unfold utf8_encode_char in Ec.
  repeat match type of Ec with
         | (if ?b then _ else _) = _ => destruct b; try discriminate
         end.
Qed.

Lemma encode_qstring_cases s bs :
  _encode_qstring (Some s) = Ok bs ->
  (s = [] /\ bs = be_bytes 4 NULL_QSTRING)
  \/ (s <> [] /\ exists enc, utf8_encode s = Some enc /\ enc <> []
      /\ len enc < 2 ^ 32 /\ bs = be_bytes 4 (len enc) ++ enc).
Proof.
  destruct s as [|c s].
  - cbn. intros [= <-]. left. split; reflexivity.
  - cbn [_encode_qstring]. intros H. right. split; [discriminate|].
    destruct (utf8_encode (c :: s)) as [enc|] eqn:E; [|discriminate].
    cbn [of_option bind] in H.
    unfold pack_I, pack_uint in H.
    destruct ((0 <=? len enc) && (len enc <? 256 ^ Z.of_nat 4)) eqn:R;
      [|discriminate].
    cbn [bind] in H. injection H as <-.
    apply andb_true_iff in R as [_ R%Z.ltb_lt].
    exists enc. repeat split; try assumption.
    intros ->. apply utf8_encode_nil_inv in E. discriminate.
Qed.

Lemma decode_encoded_qstring pre s bs post :
  _encode_qstring (Some s) = Ok bs ->
  len bs < 4 + NULL_QSTRING ->
  _decode_qstring (pre ++ bs ++ post) (len pre) = Ok (s, len pre + len bs).
Proof.
  intros He Hlen.
  pose proof (len_nonneg pre). pose proof (len_nonneg post).
  apply encode_qstring_cases in He
    as [[-> ->] | (Hs & enc & Henc & Hne & Hr & ->)].
  - unfold _decode_qstring.
    rewrite !len_app. change (len (be_bytes 4 NULL_QSTRING)) with 4.
    ltb_false.
    rewrite (slice_app_mid' pre (be_bytes 4 NULL_QSTRING) post) by reflexivity.
    reflexivity.
  - assert (L4 : len (be_bytes 4 (len enc)) = 4)
      by (unfold len; rewrite length_be_bytes; reflexivity).
    pose proof (len_nonneg enc).
    rewrite len_app, L4 in Hlen |- *.
    unfold _decode_qstring.
    rewrite !len_app, L4. ltb_false.
    rewrite <- (app_assoc _ enc post).
    rewrite (slice_app_mid' pre (be_bytes 4 (len enc)) (enc ++ post))
      by (rewrite ?L4; reflexivity).
    unfold unpack_I, unpack_uint. rewrite length_be_bytes. cbn [Nat.eqb bind].
    rewrite be_value_bytes by (change (256 ^ Z.of_nat 4) with (2 ^ 32); lia).
    rewrite (proj2 (Z.eqb_neq _ _)) by lia.
    ltb_false.
    rewrite (app_assoc pre).
    rewrite (slice_app_mid' (pre ++ be_bytes 4 (len enc)) enc post)
      by (rewrite len_app, L4; lia).
    rewrite (utf8_decode_encode _ _ Henc). cbn [of_option bind].
    f_equal. f_equal. lia.
Qed.

Lemma decode_qstring_inv data offset s off' :
  0 <= offset -> _decode_qstring data offset = Ok (s, off') ->
  exists n,
    offset + 4 <= len data
    /\ unpack_I (slice data offset (offset + 4)) = Ok n
    /\ ((n = NULL_QSTRING /\ s = [] /\ off' = offset + 4)
        \/ (n <> NULL_QSTRING /\ 0 <= n /\ off' = offset + 4 + n
            /\ off' <= len data
            /\ utf8_decode (slice data (offset + 4) off') = Some s)).
Proof.
  intros Hoff. unfold _decode_qstring.
  destruct (Z.ltb_spec (len data) (offset + 4)); [discriminate|].
  destruct (unpack_I (slice data offset (offset + 4))) as [n|] eqn:Eu;
    [|discriminate].
  cbn [bind].
  destruct (Z.eqb_spec n NULL_QSTRING).
  - intros [= <- <-]. exists n. auto 10.
  - destruct (Z.ltb_spec (len data) (offset + 4 + n)); [discriminate|].
    destruct (utf8_decode _) as [s'|] eqn:Ed; [|discriminate].
    cbn [of_option bind]. intros [= <- <-].
    exists n. split; [assumption|]. split; [reflexivity|]. right.
    unfold unpack_I, unpack_uint in Eu.
    destruct (Nat.eqb _ 4); [|discriminate]. injection Eu as <-.
    pose proof (be_value_range (slice data offset (offset + 4))).
    repeat split; try assumption; lia.
Qed.

Lemma encode_decoded_qstring data offset s off' :
  0 <= offset -> _decode_qstring data offset = Ok (s, off') ->
  unpack_I (slice data offset (offset + 4)) <> Ok 0 ->
  offset + 4 <= off' <= len data
  /\ _encode_qstring (Some s) = Ok (slice data offset off').
Proof.
  intros Hoff Hd Hnz.
  apply decode_qstring_inv in Hd as (n & Hlen & Hu & Hcase); [|assumption].
  destruct Hcase as [(-> & -> & ->) | (Hn & Hn0 & -> & Hle & Hdec)].
  - split; [lia|]. cbn [_encode_qstring].
    apply pack_unpack_uint. exact Hu.
  - split; [lia|].
    assert (Hnz' : n <> 0) by (intros ->; apply Hnz; exact Hu).
    set (body := slice data (offset + 4) (offset + 4 + n)) in *.
    assert (Hbody : len body = n)
      by (subst body; rewrite len_slice by lia; lia).
    assert (Hs : s <> []).
    { intros ->. apply utf8_decode_nil_inv in Hdec.
      rewrite Hdec in Hbody. unfold len in Hbody. simpl in Hbody. lia. }
    destruct s as [|c s]; [congruence|].
    cbn [_encode_qstring].
    rewrite (utf8_encode_decode _ _ Hdec). cbn [of_option bind].
    rewrite Hbody. unfold pack_I.
    rewrite (pack_unpack_uint _ _ _ Hu). cbn [bind].
    f_equal. subst body. apply slice_cat; lia.
Qed.

(** ** Round trips of the codec *)

Lemma location_message_decodes wsjtx_id grid message :
  location_message wsjtx_id grid = Ok message ->
  len message < NULL_QSTRING ->
  _parse_packet_header message = Ok (MSG_LOCATION, wsjtx_id)
  /\ exists offset,
       _decode_qstring message 12 = Ok (wsjtx_id, offset)
       /\ _decode_qstring message offset = Ok (grid, len message).
Proof.
  unfold location_message.
  change (pack_I MAGIC) with (Ok (be_bytes 4 MAGIC)).
  change (pack_I SCHEMA) with (Ok (be_bytes 4 SCHEMA)).
  change (pack_I MSG_LOCATION) with (Ok (be_bytes 4 MSG_LOCATION)).
  remember (be_bytes 4 MAGIC) as b_magic eqn:Em.
  remember (be_bytes 4 SCHEMA) as b_schema eqn:Es.
  remember (be_bytes 4 MSG_LOCATION) as b_type eqn:Et.
  unfold bind at 1 2 3.
  destruct (_encode_qstring (Some wsjtx_id)) as [id|] eqn:Ei; [|discriminate].
  destruct (_encode_qstring (Some grid)) as [location|] eqn:Eg; [|discriminate].
  unfold bind. intros [= <-] Hlen.
  set (header := b_magic ++ b_schema ++ b_type).
  assert (Hh : len header = 12) by (subst; reflexivity).
  replace (b_magic ++ b_schema ++ b_type ++ id ++ location)
    with (header ++ id ++ location) in *
    by (subst header; rewrite <- !app_assoc; reflexivity).
  rewrite !len_app, Hh in Hlen.
  pose proof (len_nonneg id). pose proof (len_nonneg location).
  unfold NULL_QSTRING in *.
  assert (D1 : _decode_qstring (header ++ id ++ location) 12
               = Ok (wsjtx_id, 12 + len id)).
  { rewrite <- Hh.
    apply decode_encoded_qstring; [exact Ei | unfold NULL_QSTRING; lia]. }
  assert (D2 : _decode_qstring (header ++ id ++ location) (12 + len id)
               = Ok (grid, len (header ++ id ++ location))).
  { pose proof (decode_encoded_qstring (header ++ id) grid location [] Eg
                  ltac:(unfold NULL_QSTRING; lia)) as D.
    rewrite app_nil_r, <- app_assoc, !len_app, Hh in D.
    rewrite !len_app, Hh. rewrite D. f_equal. f_equal. lia. }
  split; [|exists (12 + len id); split; assumption].
  unfold _parse_packet_header. rewrite !len_app, Hh. ltb_false.
  assert (L1 : len b_magic = 4) by (subst; reflexivity).
  assert (L2 : len b_schema = 4) by (subst; reflexivity).
  assert (L3 : len b_type = 4) by (subst; reflexivity).
  replace (slice (header ++ id ++ location) 0 4) with b_magic.
  2:{ subst header. rewrite <- !app_assoc.
      symmetry. apply (slice_app_mid' [] b_magic); [reflexivity|].
      rewrite L1. reflexivity. }
  replace (slice (header ++ id ++ location) 4 8) with b_schema.
  2:{ subst header. rewrite <- !app_assoc.
      symmetry. apply (slice_app_mid' b_magic b_schema); lia. }
  replace (slice (header ++ id ++ location) 8 12) with b_type.
  2:{ subst header. rewrite <- !app_assoc.
      rewrite (app_assoc b_magic).
      symmetry. apply (slice_app_mid' (b_magic ++ b_schema) b_type);
        rewrite ?len_app; lia. }
  rewrite D1. subst b_magic b_schema b_type. reflexivity.
Qed.


(** Claim C10, as amended.  Encoding a string whose UTF-8 form is shorter
    than [0xFFFFFFFF] bytes and decoding the bytes gives the string back:
    [None] and the empty string are encoded as the null sentinel
    [0xFFFFFFFF] and decode to the empty string; a non-empty string is
    encoded as the length of its UTF-8 form followed by that form, and
    decodes to itself, the decoder consuming every byte. *)
Theorem qstring_decode_encode (s : pystr) (bs : bytes) :
  _encode_qstring (Some s) = Ok bs ->
  len bs < 4 + NULL_QSTRING ->
  _decode_qstring bs 0 = Ok (s, len bs)
  /\ _encode_qstring None = _encode_qstring (Some [])
  /\ (s = [] -> bs = [xff; xff; xff; xff])
  /\ (s <> [] -> exists enc,
        utf8_encode s = Some enc /\ bs = be_bytes 4 (len enc) ++ enc).
Proof.
  intros He Hlen. split; [|split; [reflexivity|split]].
  - pose proof (decode_encoded_qstring [] s bs [] He Hlen) as H.
    cbn [app] in H. rewrite app_nil_r in H. exact H.
  - intros ->. cbn in He. injection He as <-. reflexivity.
  - intros Hs. apply encode_qstring_cases in He
      as [[-> _] | (_ & enc & Henc & _ & _ & ->)]; [congruence|].
    exists enc. auto.
Qed.

Lemma qstring_decode_encode_witness :
  _decode_qstring
    [x00; x00; x00; x04; "E"%byte; "M"%byte; "1"%byte; "5"%byte] 0
  = Ok (str "EM15", 8).
Proof.
  apply (proj1 (qstring_decode_encode (str "EM15")
    [x00; x00; x00; x04; "E"%byte; "M"%byte; "1"%byte; "5"%byte]
    eq_refl eq_refl)).
Defined.

(** The length [0xFFFFFFFF] is the sentinel: a text of exactly that many
    bytes would be read back as the null string. *)
Lemma sentinel_length_is_null (s : pystr) (enc bs : bytes) :
  utf8_encode s = Some enc -> len enc = NULL_QSTRING ->
  _encode_qstring (Some s) = Ok bs ->
  _decode_qstring bs 0 = Ok ([], 4).
Proof.
  intros Henc Hlen He.
  apply encode_qstring_cases in He as [[-> ->] | (_ & enc' & Henc' & _ & _ & ->)];
    [reflexivity|].
  assert (enc' = enc) by congruence. subst enc'.
  pose proof (len_nonneg enc).
  unfold _decode_qstring. rewrite len_app.
  change (len (be_bytes 4 (len enc))) with 4. ltb_false.
  rewrite (slice_app_mid' [] (be_bytes 4 (len enc)) enc) by reflexivity.
  rewrite Hlen. reflexivity.
Qed.

Lemma utf8_encode_letters n :
  utf8_encode (repeat 97 n) = Some (repeat "a"%byte n).
Proof.
  induction n as [|n IH]; [reflexivity|].
  cbn [repeat utf8_encode]. rewrite IH. reflexivity.
Qed.

Lemma letters_read_as_null n :
  Z.of_nat n = NULL_QSTRING ->
  repeat 97 n <> []
  /\ exists bs,
       _encode_qstring (Some (repeat 97 n)) = Ok bs
       /\ _decode_qstring bs 0 = Ok ([], 4).
Proof.
  intros Hn.
  assert (Hlen : len (repeat "a"%byte n) = NULL_QSTRING)
    by (unfold len; rewrite repeat_length; exact Hn).
  assert (He : _encode_qstring (Some (repeat 97 n))
               = Ok (be_bytes 4 NULL_QSTRING ++ repeat "a"%byte n)).
  { destruct n as [|n]; [discriminate|].
    change (repeat 97 (S n)) with (97 :: repeat 97 n).
    cbn [_encode_qstring].
    change (97 :: repeat 97 n) with (repeat 97 (S n)).
    rewrite utf8_encode_letters. cbn [of_option bind].
    rewrite Hlen. reflexivity. }
  split.
  - destruct n; [discriminate|]. discriminate.
  - eexists. split; [exact He|].
    apply (sentinel_length_is_null (repeat 97 n) (repeat "a"%byte n));
      [apply utf8_encode_letters | exact Hlen | exact He].
Qed.

(** Claim C10 as stated fails for a text of exactly [0xFFFFFFFF] bytes: its
    length prefix is the sentinel, and the bytes decode to the empty
    string. *)
Lemma sentinel_long_text_lost :
  sentinel_long_text <> []
  /\ exists bs,
       _encode_qstring (Some sentinel_long_text) = Ok bs
       /\ _decode_qstring bs 0 = Ok ([], 4).
Proof.
  apply (letters_read_as_null (Z.to_nat NULL_QSTRING)).
  apply Z2Nat.id. discriminate.
Qed.




(** ** Packed date-times *)

Lemma new_timedelta_normal d s us :
  Z.abs d <= 999999999 -> 0 <= s < 86400 -> 0 <= us < 1000000 ->
  new_timedelta d s us = Ok (mk_td d s us).
Proof.
  intros Hd Hs Hu. unfold new_timedelta. cbv zeta.
  rewrite (Z.div_small us), Z.add_0_r, (Z.div_small s), Z.add_0_r by lia.
  rewrite !Z.mod_small by lia.
  destruct (Z.gtb_spec (Z.abs d) 999999999); [lia | reflexivity].
Qed.

Lemma datetime_add_ok dt td :
  let secs := hour dt * 3600 + minute dt * 60 + second dt in
  let days := toordinal dt + td_days td
              + (secs + td_seconds td
                 + (microsecond dt + td_microseconds td) / 1000000) / 86400 in
  Z.abs (toordinal dt) <= 999999999 ->
  0 <= secs < 86400 -> 0 <= microsecond dt < 1000000 ->
  1 <= days <= _MAXORDINAL ->
  exists r, datetime_add dt td = Ok r.
Proof.
  intros secs days Ho Hs Hu Hd. unfold datetime_add. cbv zeta.
  fold secs. rewrite (new_timedelta_normal _ _ _ Ho Hs Hu). cbn [bind].
  unfold timedelta_add. cbn [td_days td_seconds td_microseconds].
  unfold new_timedelta. cbv zeta. fold days.
  unfold _MAXORDINAL in *.
  destruct (Z.gtb_spec (Z.abs days) 999999999); [lia|].
  cbn [bind td_days td_seconds td_microseconds].
  replace ((0 <? days) && (days <=? 3652059)) with true
    by (symmetry; apply andb_true_iff; lia).
  destruct (_ord2ymd days) as [[y m] d]. eauto.
Qed.

Lemma decode_qdatetime_bytes pre J m time_spec post :
  0 <= J < 2 ^ 64 -> 0 <= m < 2 ^ 32 ->
  _decode_qdatetime
    (pre ++ be_bytes 8 J ++ be_bytes 4 m ++ [time_spec] ++ post) (len pre)
  = (do delta <- new_timedelta (J - 2440588) 0 (m * 1000);
     do dt <- datetime_add epoch delta;
     Ok (dt, len pre + 13)).
Proof.
  intros HJ Hm.
  pose proof (len_nonneg pre). pose proof (len_nonneg post).
  assert (L8 : len (be_bytes 8 J) = 8)
    by (unfold len; rewrite length_be_bytes; reflexivity).
  assert (L4 : len (be_bytes 4 m) = 4)
    by (unfold len; rewrite length_be_bytes; reflexivity).
  unfold _decode_qdatetime.
  rewrite !len_app, L8, L4. change (len [time_spec]) with 1. ltb_false.
  rewrite (slice_app_mid' pre (be_bytes 8 J)) by lia.
  unfold unpack_Q, unpack_uint at 1. rewrite length_be_bytes.
  cbn [Nat.eqb bind].
  rewrite be_value_bytes by (change (256 ^ Z.of_nat 8) with (2 ^ 64); lia).
  rewrite (app_assoc pre).
  rewrite (slice_app_mid' (pre ++ be_bytes 8 J) (be_bytes 4 m))
    by (rewrite len_app; lia).
  unfold unpack_I, unpack_uint at 1. rewrite length_be_bytes.
  cbn [Nat.eqb bind].
  rewrite be_value_bytes by (change (256 ^ Z.of_nat 4) with (2 ^ 32); lia).
  rewrite (app_assoc _ (be_bytes 4 m)).
  rewrite (slice_app_mid' ((pre ++ be_bytes 8 J) ++ be_bytes 4 m) [time_spec])
    by (rewrite !len_app; change (len [time_spec]) with 1; lia).
  unfold unpack_B, unpack_uint. cbn [length Nat.eqb bind].
  replace (len pre + 8 + 4 + 1) with (len pre + 13) by lia.
  reflexivity.
Qed.

(** Claim C9, as amended.  A packed date-time is thirteen bytes: the
    Julian day [J] on eight bytes, big-endian, the milliseconds since
    midnight [m] on four, and the time-spec flag.  When the day it names is
    one of the calendar (years 1 to 9999), decoding it consumes exactly
    these thirteen bytes and gives the date and time that lies
    [J - 2440588] days and [m] milliseconds after 1970-01-01T00:00:00;
    Julian day 2440588 with 0 milliseconds is 1970-01-01T00:00:00
    itself. *)
Theorem decode_qdatetime_spec (pre post : bytes) (J m : Z) (time_spec : byte) :
  0 <= J < 2 ^ 64 -> 0 <= m < 2 ^ 32 ->
  1 <= toordinal epoch + (J - 2440588) + m / 86400000 <= _MAXORDINAL ->
  exists dt,
    _decode_qdatetime
      (pre ++ be_bytes 8 J ++ be_bytes 4 m ++ [time_spec] ++ post) (len pre)
    = Ok (dt, len pre + 13)
    /\ valid_datetime dt
    /\ epoch_microseconds dt = ((J - 2440588) * 86400000 + m) * 1000
    /\ (J = 2440588 -> m = 0 -> dt = epoch).
Proof.
  intros HJ Hm Hr. rewrite toordinal_epoch in Hr. unfold _MAXORDINAL in Hr.
  rewrite decode_qdatetime_bytes by assumption.
  assert (Hdm : (0 + m * 1000 / 1000000) / 86400 = m / 86400000).
  { rewrite Z.add_0_l.
    replace 1000000 with (1000 * 1000) by reflexivity.
    rewrite Z.div_mul_cancel_r by lia.
    rewrite Z.div_div by lia. reflexivity. }
  destruct (new_timedelta (J - 2440588) 0 (m * 1000)) as [delta|] eqn:Ed.
  2:{ exfalso. unfold new_timedelta in Ed. cbv zeta in Ed. rewrite Hdm in Ed.
      destruct (Z.gtb_spec (Z.abs (J - 2440588 + m / 86400000)) 999999999);
        [lia | discriminate]. }
  cbn [bind].
  pose proof (new_timedelta_spec _ _ _ _ Ed) as (Etot & Bs & Bu).
  assert (Edays : td_days delta = J - 2440588 + m / 86400000).
  { unfold new_timedelta in Ed. cbv zeta in Ed. rewrite Hdm in Ed.
    destruct (_ >? _); [discriminate|]. injection Ed as <-. reflexivity. }
  destruct (datetime_add_ok epoch delta) as [dt Hdt].
  { rewrite toordinal_epoch. lia. }
  { cbn. lia. }
  { cbn. lia. }
  { rewrite toordinal_epoch. cbn [hour minute second microsecond epoch].
    rewrite Edays. unfold _MAXORDINAL.
    replace ((0 * 3600 + 0 * 60 + 0 + td_seconds delta
              + (0 + td_microseconds delta) / 1000000) / 86400) with 0
      by (symmetry; apply Z.div_small;
          rewrite Z.add_0_l, (Z.div_small (td_microseconds delta)) by lia; lia).
    lia. }
  rewrite Hdt. cbn [bind]. exists dt. split; [reflexivity|].
  pose proof (datetime_add_spec _ _ _ Hdt) as (Hv & He).
  split; [exact Hv|]. split.
  - rewrite He. change (epoch_microseconds epoch) with 0. lia.
  - intros -> ->. change (new_timedelta (2440588 - 2440588) 0 (0 * 1000))
      with (Ok (mk_td 0 0 0)) in Ed.
    injection Ed as <-. vm_compute in Hdt.
    injection Hdt as <-. reflexivity.
Qed.

Lemma decode_qdatetime_spec_witness :
  exists dt,
    _decode_qdatetime
      ([] ++ be_bytes 8 2440588 ++ be_bytes 4 0 ++ [x01] ++ [])
      (len (@nil byte))
    = Ok (dt, len (@nil byte) + 13)
    /\ valid_datetime dt
    /\ epoch_microseconds dt = ((2440588 - 2440588) * 86400000 + 0) * 1000
    /\ (2440588 = 2440588 -> 0 = 0 -> dt = epoch).
Proof.
  apply (decode_qdatetime_spec [] [] 2440588 0 x01).
  - lia.
  - lia.
  - vm_compute. split; discriminate.
Defined.

(** Claim C9 as stated fails outside the calendar: Julian day 0 lies
    before year 1, and the decoder raises instead of giving a date. *)
Lemma julian_day_zero_raises :
  _decode_qdatetime (be_bytes 8 0 ++ be_bytes 4 0 ++ [x01]) 0
  = Raise OverflowError.
Proof. reflexivity. Qed.

(** ** The model on the examples of the specification *)

Example band_of_50313000 env : _freq_to_band env 50313000 = str "6m".
Proof. reflexivity. Qed.

Example band_of_144174000 env : _freq_to_band env 144174000 = str "2m".
Proof. reflexivity. Qed.

Example band_of_432065000 env : _freq_to_band env 432065000 = str "70cm".
Proof. reflexivity. Qed.

Example parse_qso_logged_w1aw :
  _parse_qso_logged plain_env qso_logged_w1aw = Some w1aw_6m.
Proof. vm_compute. reflexivity. Qed.

(** A datagram of an older schema, without the trailing propagation mode,
    gives the same contact. *)
Example parse_without_prop_mode :
  _parse_qso_logged plain_env
    (take (length qso_logged_w1aw - 4) qso_logged_w1aw)
  = Some w1aw_6m.
Proof. vm_compute. reflexivity. Qed.

Example n1mm_record_of_w1aw :
  _build_adif_for_n1mm plain_env (set_time_offset w1aw_6m 59)
  = Ok (str "<call:4>W1AW <gridsquare:4>FN31 <mode:3>FT8 <rst_sent:3>-10 <rst_rcvd:3>-12 <freq:8>50313000 <band:2>6M <qso_date:8>20250614 <time_on:6>183114 <time_off:6>183114 <eor>"
        ++ [13; 10]).
Proof. vm_compute. reflexivity. Qed.

(** ** The decode listener *)

Lemma unpack_uint_slice data lo hi k :
  0 <= lo -> hi = lo + Z.of_nat k -> hi <= len data ->
  unpack_uint k (slice data lo hi) = Ok (be_value (slice data lo hi)).
Proof.
  intros H1 -> H2. unfold unpack_uint.
  pose proof (len_slice data lo (lo + Z.of_nat k) ltac:(lia) H2) as L.
  unfold len in L.
  replace (length (slice data lo (lo + Z.of_nat k))) with k by lia.
  rewrite Nat.eqb_refl. reflexivity.
Qed.

Lemma malformed_not_parsed data :
  malformed data -> is_ok (_parse_packet_header data) = false.
Proof.
  intros H. unfold _parse_packet_header.
  destruct (Z.ltb_spec (len data) 12) as [|H12]; [reflexivity|].
  unfold unpack_I.
  rewrite (unpack_uint_slice data 0 4), (unpack_uint_slice data 4 8),
    (unpack_uint_slice data 8 12) by lia.
  cbn [bind].
  destruct (Z.eqb_spec (be_value (slice data 0 4)) MAGIC) as [Hm|Hm];
    [|reflexivity].
  cbn [negb]. unfold _decode_qstring. change (12 + 4) with 16.
  destruct (Z.ltb_spec (len data) 16) as [|H16]; [reflexivity|].
  unfold unpack_I. rewrite (unpack_uint_slice data 12 16) by lia.
  cbn [bind].
  destruct H as [H | [H | [H | [Hn Ht]]]]; try lia; try contradiction.
  rewrite (proj2 (Z.eqb_neq _ _)) by exact Hn.
  ltb_true. reflexivity.
Qed.

Lemma undecodable_discarded env st data source_port now :
  is_ok (_parse_packet_header data) = false ->
  listen_step env st (Datagram data source_port now) = st.
Proof.
  intros H. cbn [listen_step].
  destruct (_parse_packet_header data); [discriminate | reflexivity].
Qed.

Lemma listen_loop_cons env st r rs :
  listen_loop env st (r :: rs)
  = listen_loop env (if running st then listen_step env st r else st) rs.
Proof. reflexivity. Qed.

Lemma decode_qstring_bounds data offset s off' :
  0 <= offset -> _decode_qstring data offset = Ok (s, off') ->
  offset + 4 <= off' <= len data.
Proof.
  intros Hoff Hd.
  apply decode_qstring_inv in Hd as (n & Hlen & _ & Hcase); [|assumption].
  destruct Hcase as [(_ & _ & ->) | (_ & Hn & -> & Hle & _)]; lia.
Qed.

Lemma undecodable_step env st data source_port now :
  undecodable env data ->
  listen_step env st (Datagram data source_port now) = st.
Proof.
  intros [H | [(i & Hp & Hq) | (i & Hp & Ha)]].
  - apply undecodable_discarded, H.
  - cbn [listen_step]. rewrite Hp, Hq. reflexivity.
  - cbn [listen_step]. rewrite Hp, Ha. reflexivity.
Qed.



(** ** The endpoint registry *)

Lemma dict_get_set_eq {K V} `{EqDecision K} (d : list (K * V)) k v :
  dict_get (dict_set d k v) k = Some v.
Proof.
  induction d as [|[k' v'] d IH]; cbn.
  - destruct (decide (k = k)); congruence.
  - destruct (decide (k' = k)) as [->|Hne]; cbn.
    + destruct (decide (k = k)); congruence.
    + destruct (decide (k' = k)); [contradiction | exact IH].
Qed.

Lemma dict_get_set_ne {K V} `{EqDecision K} (d : list (K * V)) k k' v :
  k' <> k -> dict_get (dict_set d k v) k' = dict_get d k'.
Proof.
  intros Hne. induction d as [|[k0 v0] d IH]; cbn.
  - destruct (decide (k = k')); congruence.
  - destruct (decide (k0 = k)) as [->|Hk]; cbn.
    + destruct (decide (k = k')); [congruence|reflexivity].
    + destruct (decide (k0 = k')); [reflexivity | exact IH].
Qed.

Lemma discoveries_app port a b :
  discoveries port (a ++ b) = (discoveries port a + discoveries port b)%nat.
Proof. unfold discoveries. rewrite List.filter_app, length_app. reflexivity. Qed.

Lemma no_discovery_nil : no_discovery [].
Proof. intros p. reflexivity. Qed.

Lemma no_discovery_app a b :
  no_discovery a -> no_discovery b -> no_discovery (a ++ b).
Proof. intros Ha Hb p. rewrite discoveries_app, Ha, Hb. reflexivity. Qed.

Lemma no_discovery_cons e es :
  (forall p, is_discovery p e = false) -> no_discovery es ->
  no_discovery (e :: es).
Proof.
  intros He Hes p. unfold discoveries. cbn [List.filter]. rewrite He.
  apply Hes.
Qed.

Ltac quiet :=
  repeat first
    [ apply no_discovery_nil
    | apply no_discovery_app
    | apply no_discovery_cons; [intros ?; reflexivity|] ].

Lemma send_wsjt_location_quiet wsjtx_id port grid :
  no_discovery (_send_wsjt_location wsjtx_id port grid).
Proof.
  unfold _send_wsjt_location. destruct (location_message _ _); quiet.
Qed.

Lemma location_sends_quiet (f : Z * (pystr * Z) -> list Effect) ids :
  (forall x, no_discovery (f x)) -> no_discovery (flat_map f ids).
Proof.
  intros Hf. induction ids as [|x ids IH]; cbn [flat_map]; [quiet|].
  apply no_discovery_app; [apply Hf | exact IH].
Qed.

Lemma tcp_exchange_quiet l text o : no_discovery (snd (tcp_exchange l text o)).
Proof.
  unfold tcp_exchange. destruct o; [destruct (utf8_encode text)|..];
    cbn [snd]; quiet.
Qed.

Lemma handle_qso_logged_added env st q :
  exists es, added st (_handle_qso_logged env st q) es /\ no_discovery es
             /\ wsjtx_ids (_handle_qso_logged env st q) = wsjtx_ids st.
Proof.
  unfold _handle_qso_logged, added.
  destruct (decide (qso_key q ∈ logged_qsos st)).
  { eexists. split; [reflexivity|]. split; [quiet | reflexivity]. }
  cbv zeta. unfold stamp.
  destruct (location_stamper env) as [f|]; [destruct (f q)|];
    destruct (qso_callback env); cbn [trace emit set_qso_queue set_logged_qsos];
    rewrite <- ?app_assoc;
    (eexists; split; [reflexivity|]; split; [quiet | reflexivity]).
Qed.

Lemma added_refl st : added st st [].
Proof. unfold added. rewrite app_nil_r. reflexivity. Qed.

Lemma relay_step_added env st now o :
  exists es, added st (relay_step env st now o) es /\ no_discovery es
             /\ wsjtx_ids (relay_step env st now o) = wsjtx_ids st.
Proof.
  unfold relay_step. destruct (qso_queue st) as [|q rest].
  { exists []. split; [apply added_refl|]. split; [quiet | reflexivity]. }
  unfold relay_deliver, added. cbv zeta.
  destruct (is_n3fjp st).
  - unfold _send_qso_to_n3fjp, _send_n3fjp_command.
    pose proof (tcp_exchange_quiet N3FJP
      (tagged (str "CMD")
         (n3fjp_command env now (set_time_offset q (qso_offset st)))) o) as Hq.
    destruct (tcp_exchange _ _ _) as [success es]. cbn [snd] in Hq.
    eexists. split; [reflexivity|]. split; [quiet; exact Hq | reflexivity].
  - unfold _send_qso_to_n1mm.
    destruct (_build_adif_for_n1mm env _) as [record|].
    + pose proof (tcp_exchange_quiet N1MM record o) as Hq.
      destruct (tcp_exchange _ _ _) as [[|] es]; cbn [snd] in Hq;
        (eexists; split; [reflexivity|]; split; [quiet; exact Hq | reflexivity]).
    + eexists. split; [reflexivity|]. split; [quiet | reflexivity].
Qed.

Lemma resend_grid_added st :
  exists es, added st (_resend_grid_to_all st) es /\ no_discovery es
             /\ wsjtx_ids (_resend_grid_to_all st) = wsjtx_ids st.
Proof.
  unfold _resend_grid_to_all. destruct (negb (truthy (current_grid st))).
  { exists []. split; [apply added_refl|]. split; [quiet | reflexivity]. }
  eexists. split; [reflexivity|]. split; [|reflexivity].
  apply location_sends_quiet. intros [p [i t]]. apply send_wsjt_location_quiet.
Qed.

Lemma monitor_step_added st pids :
  exists es, added st (monitor_step st pids) es /\ no_discovery es
             /\ wsjtx_ids (monitor_step st pids) = wsjtx_ids st.
Proof.
  unfold monitor_step. cbv zeta.
  destruct (bool_decide _ && truthy _).
  - destruct (resend_grid_added (emit (emit st [EvSleep 3000]) [EvSleep 2000]))
      as (es & Ha & Hq & Hw).
    unfold added in *. cbn [trace set_jt9_pids wsjtx_ids] in *.
    rewrite Ha. cbn [emit trace]. rewrite <- !app_assoc.
    eexists. split; [reflexivity|]. split; [quiet; exact Hq|].
    rewrite Hw. reflexivity.
  - eexists. split; [reflexivity|]. split; [quiet | reflexivity].
Qed.

Lemma update_grid_added st g :
  exists es, added st (update_grid st g) es /\ no_discovery es
             /\ wsjtx_ids (update_grid st g) = wsjtx_ids st.
Proof.
  unfold update_grid, added. cbv zeta. cbn [emit trace set_current_grid wsjtx_ids].
  rewrite <- app_assoc.
  eexists. split; [reflexivity|]. split; [|reflexivity].
  apply no_discovery_app; [|quiet].
  apply location_sends_quiet. intros [p [i t]]. apply send_wsjt_location_quiet.
Qed.

(** A pass of a listener either records a heartbeat or leaves the registry
    alone and reports no discovery. *)
Lemma listen_step_cases env st r :
  (exists data source_port now wsjtx_id,
      r = Datagram data source_port now
      /\ _parse_packet_header data = Ok (MSG_HEARTBEAT, wsjtx_id)
      /\ listen_step env st r = record_heartbeat st source_port wsjtx_id now)
  \/ (exists es, added st (listen_step env st r) es /\ no_discovery es
                 /\ wsjtx_ids (listen_step env st r) = wsjtx_ids st).
Proof.
  destruct r as [data source_port now| |]; cbn [listen_step].
  - destruct (_parse_packet_header data) as [[msg_type wsjtx_id]|] eqn:Ep.
    + destruct (Z.eqb_spec msg_type MSG_HEARTBEAT) as [->|_].
      { left. exists data, source_port, now, wsjtx_id. auto. }
      right. destruct (msg_type =? MSG_QSO_LOGGED).
      { destruct (_parse_qso_logged env data).
        - apply handle_qso_logged_added.
        - exists []. split; [apply added_refl|]. split; [quiet | reflexivity]. }
      destruct (msg_type =? MSG_LOGGED_ADIF).
      { destruct (_parse_adif_logged data) as [[? record]|].
        - eexists. split; [reflexivity|]. split; [quiet | reflexivity].
        - exists []. split; [apply added_refl|]. split; [quiet | reflexivity]. }
      exists []. split; [apply added_refl|]. split; [quiet | reflexivity].
    + right. exists []. split; [apply added_refl|]. split; [quiet | reflexivity].
  - right. exists []. split; [apply added_refl|]. split; [quiet | reflexivity].
  - right. destruct (running st).
    + eexists. split; [reflexivity|]. split; [quiet | reflexivity].
    + exists []. split; [apply added_refl|]. split; [quiet | reflexivity].
Qed.

Lemma step_cases env st e :
  (exists data source_port now wsjtx_id,
      _parse_packet_header data = Ok (MSG_HEARTBEAT, wsjtx_id)
      /\ step env st e = record_heartbeat st source_port wsjtx_id now)
  \/ (exists es, added st (step env st e) es /\ no_discovery es
                 /\ wsjtx_ids (step env st e) = wsjtx_ids st).
Proof.
  assert (Hsame : exists es, added st st es /\ no_discovery es
                             /\ wsjtx_ids st = wsjtx_ids st)
    by (exists []; split; [apply added_refl|]; split; [quiet | reflexivity]).
  destruct e as [r|now o|pids|g|q|l|]; cbn [step].
  - destruct (running st); [|right; exact Hsame].
    destruct (listen_step_cases env st r)
      as [(data & p & now & i & _ & Hp & Hs) | H]; [left; eauto 10 | right; exact H].
  - right. destruct (running st); [apply relay_step_added | exact Hsame].
  - right. destruct (running st); [apply monitor_step_added | exact Hsame].
  - right. apply update_grid_added.
  - right. eexists. split; [reflexivity|]. split; [quiet | reflexivity].
  - right. exact Hsame.
  - right. exact Hsame.
Qed.

Lemma step_appends env st e : exists es, added st (step env st e) es.
Proof.
  destruct (step_cases env st e)
    as [(data & p & now & i & _ & ->) | (es & H & _)]; [|eauto].
  unfold record_heartbeat, added.
  destruct (dict_get (wsjtx_ids st) p); cbn [trace set_wsjtx_ids emit].
  - exists []. rewrite app_nil_r. reflexivity.
  - eauto.
Qed.

Lemma run_appends env es : forall st, exists tr, added st (run env st es) tr.
Proof.
  induction es as [|e es IH]; intros st; cbn [run fold_left].
  - exists []. apply added_refl.
  - destruct (step_appends env st e) as (tr1 & H1).
    destruct (IH (step env st e)) as (tr2 & H2).
    exists (tr1 ++ tr2). unfold added, run in *.
    rewrite H2, H1, app_assoc. reflexivity.
Qed.

Lemma record_heartbeat_registry st source_port wsjtx_id now :
  let st' := record_heartbeat st source_port wsjtx_id now in
  dict_get (wsjtx_ids st') source_port = Some (wsjtx_id, now)
  /\ (forall port, port <> source_port ->
        dict_get (wsjtx_ids st') port = dict_get (wsjtx_ids st) port)
  /\ trace st'
     = trace st ++ (if registered st source_port then []
                    else [EvPrintDiscovered wsjtx_id source_port]).
Proof.
  cbv zeta. unfold record_heartbeat, registered.
  destruct (dict_get (wsjtx_ids st) source_port) eqn:Eg;
    cbn [wsjtx_ids trace set_wsjtx_ids emit].
  - split; [apply dict_get_set_eq|]. split.
    + intros port Hne. apply dict_get_set_ne. exact Hne.
    + rewrite app_nil_r. reflexivity.
  - split; [apply dict_get_set_eq|]. split.
    + intros port Hne. apply dict_get_set_ne. exact Hne.
    + reflexivity.
Qed.

Lemma record_heartbeat_once st source_port wsjtx_id now :
  discovered_once st ->
  discovered_once (record_heartbeat st source_port wsjtx_id now).
Proof.
  intros Inv port.
  destruct (record_heartbeat_registry st source_port wsjtx_id now)
    as (Hget & Hother & Htr).
  rewrite Htr, discoveries_app, (Inv port). unfold registered in *.
  destruct (Z.eq_dec port source_port) as [->|Hne].
  - rewrite Hget.
    destruct (dict_get (wsjtx_ids st) source_port); [reflexivity|].
    unfold discoveries. cbn. rewrite Z.eqb_refl. reflexivity.
  - rewrite (Hother port Hne).
    assert (Hz : discoveries port
                   (if match dict_get (wsjtx_ids st) source_port with
                       | Some _ => true
                       | None => false
                       end
                    then [] else [EvPrintDiscovered wsjtx_id source_port])
                 = 0%nat).
    { destruct (dict_get (wsjtx_ids st) source_port); [reflexivity|].
      unfold discoveries. cbn.
      rewrite (proj2 (Z.eqb_neq _ _)) by congruence. reflexivity. }
    rewrite Hz. lia.
Qed.

Lemma step_once env st e : discovered_once st -> discovered_once (step env st e).
Proof.
  intros Inv.
  destruct (step_cases env st e)
    as [(data & p & now & i & _ & ->) | (es & Ha & Hq & Hw)].
  - apply record_heartbeat_once. exact Inv.
  - intros port. unfold added in Ha. unfold registered.
    rewrite Ha, discoveries_app, Hq, Hw, Nat.add_0_r. apply Inv.
Qed.

Lemma run_once env es : forall st,
  discovered_once st -> discovered_once (run env st es).
Proof.
  induction es as [|e es IH]; intros st Inv; cbn [run fold_left];
    [exact Inv|].
  apply IH, step_once, Inv.
Qed.

(** Claim C6.  A heartbeat makes the listener set the entry of the
    registry under the source port of its sender to the instance id of the
    heartbeat and the time of its arrival; the entries under other ports
    (the configured port among them) stay as they were; the discovery is
    printed when the port was not in the registry and not otherwise.
    Over any run of the module the discovery of a port is reported once
    if the port is in the registry, and never if it is not. *)
Theorem heartbeat_keyed_by_source_port
    (env : Env) (st : RadioUpdater) (data : bytes) (wsjtx_id : pystr)
    (source_port now : Z) :
  _parse_packet_header data = Ok (MSG_HEARTBEAT, wsjtx_id) ->
  let st' := listen_step env st (Datagram data source_port now) in
  dict_get (wsjtx_ids st') source_port = Some (wsjtx_id, now)
  /\ (forall port, port <> source_port ->
        dict_get (wsjtx_ids st') port = dict_get (wsjtx_ids st) port)
  /\ trace st'
     = trace st ++ (if registered st source_port then []
                    else [EvPrintDiscovered wsjtx_id source_port])
  /\ (forall logger events,
        discovered_once (run env (new_updater logger) events)).
Proof.
  intros Hp. cbv zeta. cbn [listen_step]. rewrite Hp.
  change (MSG_HEARTBEAT =? MSG_HEARTBEAT) with true. cbv iota.
  destruct (record_heartbeat_registry st source_port wsjtx_id now)
    as (H1 & H2 & H3).
  repeat split; try assumption.
  intros logger events. apply run_once. intros port. reflexivity.
Qed.

(** The heartbeat of ["WSJT-X - ic7610"] from source port 61234 makes the
    entry 61234, and none under the configured port 2237. *)
Lemma heartbeat_keyed_by_source_port_witness :
  let st' := listen_step plain_env (new_updater (str "n1mm"))
               (Datagram heartbeat_ic7610 61234 1000) in
  dict_get (wsjtx_ids st') 61234 = Some (str "WSJT-X - ic7610", 1000)
  /\ dict_get (wsjtx_ids st') 2237 = None
  /\ trace st' = [EvPrintDiscovered (str "WSJT-X - ic7610") 61234].
Proof.
  destruct (heartbeat_keyed_by_source_port plain_env (new_updater (str "n1mm"))
              heartbeat_ic7610 (str "WSJT-X - ic7610") 61234 1000 eq_refl)
    as (H1 & H2 & H3 & _).
  split; [exact H1|]. split; [|exact H3].
  rewrite (H2 2237) by discriminate. reflexivity.
Defined.

(** ** The duplicate filter and the durable log *)

Lemma handle_new_contact env st q :
  qso_key q ∉ logged_qsos st ->
  let st' := _handle_qso_logged env st q in
  let q' := fst (stamp env q) in
  trace st'
  = trace st ++ snd (stamp env q) ++ [EvAdifWrite q'; EvQueuePut q']
    ++ (if qso_callback env then [EvCallback q'] else [])
  /\ qso_queue st' = qso_queue st ++ [q']
  /\ logged_qsos st' = logged_qsos st ∪ {[ qso_key q ]}.
Proof.
  intros Hk. cbv zeta. unfold _handle_qso_logged.
  destruct (decide (qso_key q ∈ logged_qsos st)); [contradiction|].
  cbv zeta. destruct (stamp env q) as [q' se]. cbn [fst snd].
  destruct (qso_callback env);
    cbn [trace qso_queue logged_qsos emit set_qso_queue set_logged_qsos];
    rewrite <- ?app_assoc; cbn [app]; auto.
Qed.

Lemma handle_duplicate env st q :
  qso_key q ∈ logged_qsos st ->
  _handle_qso_logged env st q = emit st [EvPrintDuplicate (dx_call q) (band q)].
Proof.
  intros Hk. unfold _handle_qso_logged.
  destruct (decide (qso_key q ∈ logged_qsos st)); [reflexivity|contradiction].
Qed.

Lemma handle_logged_qsos env st q k :
  k ∈ logged_qsos (_handle_qso_logged env st q)
  <-> k ∈ logged_qsos st \/ k = qso_key q.
Proof.
  destruct (decide (qso_key q ∈ logged_qsos st)) as [Hin|Hout].
  - rewrite (handle_duplicate env st q Hin). cbn [logged_qsos emit].
    split; [auto|]. intros [H | ->]; assumption.
  - destruct (handle_new_contact env st q Hout) as (_ & _ & ->).
    rewrite elem_of_union, elem_of_singleton. reflexivity.
Qed.

(** Claim C1, as amended.  A contact that the duplicate filter admits is
    written to the ADIF backup and then put on the relay queue: the write
    comes first and needs nothing from the logger, and whatever the module
    does afterwards, the relay and its outcomes included, only adds to the
    trace.  A later contact with the same key is reported as a duplicate
    and is neither written nor queued. *)
Theorem adif_write_before_queue (env : Env) (st : RadioUpdater) (q : QsoData) :
  qso_key q ∉ logged_qsos st ->
  let st' := _handle_qso_logged env st q in
  let q' := fst (stamp env q) in
  trace st'
  = trace st ++ snd (stamp env q) ++ [EvAdifWrite q'; EvQueuePut q']
    ++ (if qso_callback env then [EvCallback q'] else [])
  /\ qso_queue st' = qso_queue st ++ [q']
  /\ (forall events,
        exists later, trace (run env st' events) = trace st' ++ later)
  /\ (forall q2, qso_key q2 = qso_key q ->
        trace (_handle_qso_logged env st' q2)
        = trace st' ++ [EvPrintDuplicate (dx_call q2) (band q2)]
        /\ qso_queue (_handle_qso_logged env st' q2) = qso_queue st').
Proof.
  intros Hk. cbv zeta.
  destruct (handle_new_contact env st q Hk) as (Ht & Hq & Hl).
  split; [exact Ht|]. split; [exact Hq|]. split.
  - intros events. apply run_appends.
  - intros q2 Hk2.
    rewrite (handle_duplicate env (_handle_qso_logged env st q) q2).
    + split; reflexivity.
    + rewrite Hl, Hk2. apply elem_of_union_r, elem_of_singleton. reflexivity.
Qed.

Lemma adif_write_before_queue_witness :
  trace (_handle_qso_logged plain_env (new_updater (str "n1mm")) w1aw_6m)
  = [EvAdifWrite w1aw_6m; EvQueuePut w1aw_6m].
Proof.
  apply (proj1 (adif_write_before_queue plain_env (new_updater (str "n1mm"))
                  w1aw_6m (not_elem_of_empty _))).
Defined.

(** Claim C1 as stated fails on a duplicate: of two datagrams for the same
    contact the listener writes the first to the ADIF backup and drops the
    second before the write. *)
Lemma duplicate_contact_not_written :
  let st1 := listen_loop plain_env (new_updater (str "n1mm"))
               [Datagram qso_logged_w1aw 61234 5] in
  let st2 := listen_loop plain_env (new_updater (str "n1mm"))
               [Datagram qso_logged_w1aw 61234 5;
                Datagram qso_logged_w1aw 61234 6] in
  _parse_qso_logged plain_env qso_logged_w1aw = Some w1aw_6m
  /\ trace st1 = [EvAdifWrite w1aw_6m; EvQueuePut w1aw_6m]
  /\ trace st2 = trace st1 ++ [EvPrintDuplicate (str "W1AW") (str "6m")]
  /\ adif_writes (trace st2) = 1%nat.
Proof.
  cbv zeta. repeat split; vm_compute; reflexivity.
Qed.


Lemma handle_all_logged env qs : forall st k,
  k ∈ logged_qsos (handle_all env st qs)
  <-> k ∈ logged_qsos st \/ k ∈ map qso_key qs.
Proof.
  induction qs as [|q qs IH]; intros st k; cbn [handle_all fold_left map].
  - rewrite elem_of_nil. tauto.
  - fold (handle_all env (_handle_qso_logged env st q) qs).
    rewrite IH, handle_logged_qsos, elem_of_cons. tauto.
Qed.

Lemma admitted_fresh env qs : forall st q,
  q ∈ admitted env st qs -> qso_key q ∉ logged_qsos st.
Proof.
  induction qs as [|q0 qs IH]; intros st q; cbn [admitted].
  - intros H. apply elem_of_nil in H. contradiction.
  - intros [H|H]%elem_of_app.
    + destruct (decide (qso_key q0 ∈ logged_qsos st)) as [|Hout].
      * apply elem_of_nil in H. contradiction.
      * apply list_elem_of_singleton in H. subst q. exact Hout.
    + apply IH in H. intros Hin. apply H.
      apply handle_logged_qsos. left. exact Hin.
Qed.

Lemma admitted_NoDup env qs : forall st,
  NoDup (map qso_key (admitted env st qs)).
Proof.
  induction qs as [|q qs IH]; intros st; cbn [admitted].
  - constructor.
  - destruct (decide (qso_key q ∈ logged_qsos st)) as [Hin|Hout];
      cbn [app map]; [apply IH|].
    constructor; [|apply IH].
    intros (q1 & Hk & Hq1)%list_elem_of_fmap.
    apply admitted_fresh in Hq1. apply Hq1.
    apply handle_logged_qsos. right. symmetry. exact Hk.
Qed.

Lemma handle_all_queue env qs : forall st,
  qso_queue (handle_all env st qs)
  = qso_queue st ++ map (fun q => fst (stamp env q)) (admitted env st qs).
Proof.
  induction qs as [|q qs IH]; intros st; cbn [handle_all fold_left admitted].
  - rewrite app_nil_r. reflexivity.
  - fold (handle_all env (_handle_qso_logged env st q) qs). rewrite IH.
    destruct (decide (qso_key q ∈ logged_qsos st)) as [Hin|Hout].
    + rewrite (handle_duplicate env st q Hin). reflexivity.
    + destruct (handle_new_contact env st q Hout) as (_ & -> & _).
      cbn [app map]. rewrite <- app_assoc. reflexivity.
Qed.

Lemma first_with_key_iff before q :
  first_with_key before q <-> qso_key q ∉ map qso_key before.
Proof.
  unfold first_with_key. rewrite Forall_forall. split.
  - intros H (q0 & Hk & Hin)%list_elem_of_fmap. apply (H q0 Hin). congruence.
  - intros H q0 Hin Hk. apply H. apply list_elem_of_fmap. exists q0. auto.
Qed.



(** ** The relay worker *)

Lemma connects_app a b : connects (a ++ b) = (connects a + connects b)%nat.
Proof. unfold connects. rewrite List.filter_app, length_app. reflexivity. Qed.

Lemma tcp_exchange_once l text o :
  (connects (snd (tcp_exchange l text o)) <= 1)%nat
  /\ Forall (fun e => is_queue_put e = false) (snd (tcp_exchange l text o)).
Proof.
  unfold tcp_exchange. destruct o; [destruct (utf8_encode text)|..];
    cbn; split; try lia; repeat constructor.
Qed.

(** What a pass of the worker does for the contact at the head of the
    queue: the effects of the one attempt, whatever its outcome. *)
Lemma relay_deliver_attempt env st q rest now o :
  exists attempt,
    trace (relay_deliver env st q rest now o)
    = trace st ++ attempt ++ [EvSleep 500]
    /\ (connects attempt <= 1)%nat
    /\ Forall (fun e => is_queue_put e = false) attempt
    /\ qso_queue (relay_deliver env st q rest now o) = rest
    /\ qso_offset (relay_deliver env st q rest now o)
       = (if qso_offset st + 1 >? 59 then 0 else qso_offset st + 1)
    /\ running (relay_deliver env st q rest now o) = running st
    /\ contest_logger (relay_deliver env st q rest now o) = contest_logger st.
Proof.
  unfold relay_deliver. cbv zeta.
  destruct (is_n3fjp st).
  - unfold _send_qso_to_n3fjp, _send_n3fjp_command.
    pose proof (tcp_exchange_once N3FJP
      (tagged (str "CMD")
         (n3fjp_command env now (set_time_offset q (qso_offset st)))) o)
      as [Hc Hq].
    destruct (tcp_exchange _ _ _) as [success es]. cbn [snd] in *.
    exists es. cbn. auto 10.
  - unfold _send_qso_to_n1mm.
    destruct (_build_adif_for_n1mm env _) as [record|].
    + pose proof (tcp_exchange_once N1MM record o) as [Hc Hq].
      destruct (tcp_exchange _ _ _) as [[|] es]; cbn [snd] in *.
      * exists (es ++ [EvSleep 100]). cbn. rewrite connects_app. cbn.
        repeat split; try lia.
        apply Forall_app. split; [exact Hq | repeat constructor].
      * exists es. cbn. auto 10.
    + exists []. cbn. repeat split; try lia. constructor.
Qed.

Lemma next_offset_mod o :
  0 <= o <= 59 -> (if o + 1 >? 59 then 0 else o + 1) = (o + 1) mod 60.
Proof.
  intros H. destruct (Z.gtb_spec (o + 1) 59).
  - replace o with 59 by lia. reflexivity.
  - rewrite Z.mod_small by lia. reflexivity.
Qed.

Lemma relay_run_cons env st tick ticks :
  relay_run env st (tick :: ticks)
  = relay_run env (relay_step env st (fst tick) (snd tick)) ticks.
Proof. reflexivity. Qed.

Lemma relay_run_queue env ticks : forall st,
  qso_queue (relay_run env st ticks) = drop (length ticks) (qso_queue st).
Proof.
  induction ticks as [|[now o] ticks IH]; intros st; [reflexivity|].
  rewrite relay_run_cons, IH. cbn [fst snd length]. unfold relay_step.
  destruct (qso_queue st) as [|q rest] eqn:Eq.
  - rewrite Eq, !drop_nil. reflexivity.
  - destruct (relay_deliver_attempt env st q rest now o)
      as (_ & _ & _ & _ & -> & _). reflexivity.
Qed.

Lemma relay_run_offset env ticks : forall st,
  0 <= qso_offset st <= 59 ->
  (length ticks <= length (qso_queue st))%nat ->
  qso_offset (relay_run env st ticks) = (qso_offset st + len ticks) mod 60.
Proof.
  induction ticks as [|[now o] ticks IH]; intros st Ho Hl.
  - cbn. unfold len. cbn. rewrite Z.add_0_r, Z.mod_small by lia. reflexivity.
  - rewrite relay_run_cons. cbn [fst snd]. unfold relay_step.
    destruct (qso_queue st) as [|q rest] eqn:Eq; [cbn in Hl; lia|].
    destruct (relay_deliver_attempt env st q rest now o)
      as (_ & _ & _ & _ & Hq & Hoff & _).
    rewrite next_offset_mod in Hoff by exact Ho.
    rewrite IH.
    + rewrite Hoff. unfold len. cbn [length]. rewrite Nat2Z.inj_succ.
      rewrite Zplus_mod_idemp_l. f_equal. lia.
    + rewrite Hoff.
      pose proof (Z.mod_pos_bound (qso_offset st + 1) 60 ltac:(lia)). lia.
    + rewrite Hq. cbn in Hl. lia.
Qed.

Lemma envelope_of_pass_head env st ticks i q :
  (i <= length ticks)%nat -> qso_queue st !! i = Some q ->
  envelope_of_pass env st ticks i
  = Some (set_time_offset q (offset_of_pass env st ticks i)).
Proof.
  intros Hi Hq. unfold envelope_of_pass, offset_of_pass. cbv zeta.
  rewrite relay_run_queue, length_take, Nat.min_l by exact Hi.
  rewrite (drop_S _ _ _ Hq). reflexivity.
Qed.

(** Claim C4.  A pass of the relay worker takes the contact at the head of
    the queue, makes one attempt with the active logger (at most one
    connection), sleeps 500 ms and leaves the rest of the queue for the
    next passes.  The contact is not put back, whether the attempt
    succeeded or failed; the queue and the offset counter after the pass
    do not depend on the outcome, and each contact that waits is at the
    head of the queue when its pass comes, whatever happened to the
    attempts before it. *)
Theorem relay_moves_on
    (env : Env) (st : RadioUpdater) (q : QsoData) (rest : list QsoData)
    (now : datetime) (o : NetOutcome) :
  running st = true ->
  qso_queue st = q :: rest ->
  let st' := step env st (Relay now o) in
  (exists attempt,
      trace st' = trace st ++ attempt ++ [EvSleep 500]
      /\ (connects attempt <= 1)%nat
      /\ Forall (fun e => is_queue_put e = false) attempt)
  /\ qso_queue st' = rest
  /\ running st' = true
  /\ (forall now' o',
        qso_queue (step env st (Relay now' o')) = qso_queue st'
        /\ qso_offset (step env st (Relay now' o')) = qso_offset st')
  /\ (forall ticks i q_i,
        (i <= length ticks)%nat -> rest !! i = Some q_i ->
        exists k, envelope_of_pass env st' ticks i
                  = Some (set_time_offset q_i k))
  /\ (forall ticks,
        length ticks = length rest -> qso_queue (relay_run env st' ticks) = []).
Proof.
  intros Hr Hq. cbv zeta. cbn [step]. rewrite Hr. unfold relay_step.
  rewrite Hq.
  destruct (relay_deliver_attempt env st q rest now o)
    as (attempt & Ht & Hc & Hp & Hqq & Hoff & Hrun & _).
  split; [exists attempt; auto|]. split; [exact Hqq|].
  split; [congruence|]. split; [|split].
  - intros now' o'.
    destruct (relay_deliver_attempt env st q rest now' o')
      as (_ & _ & _ & _ & Hqq' & Hoff' & _).
    split; congruence.
  - intros ticks i q_i Hi Hl. eexists.
    apply envelope_of_pass_head; [exact Hi | rewrite Hqq; exact Hl].
  - intros ticks Hl. rewrite relay_run_queue, Hqq, Hl. apply drop_all.
Qed.

(** N1MM+ refuses the connection: the contact leaves the queue all the
    same and the worker sleeps its 500 ms. *)
Lemma relay_moves_on_witness :
  let st := queue_qso_for_relay
              (queue_qso_for_relay (new_updater (str "n1mm")) w1aw_6m)
              w1aw_6m in
  qso_queue (step plain_env st (Relay epoch Refused)) = [w1aw_6m].
Proof.
  apply (proj1 (proj2 (relay_moves_on plain_env
    (queue_qso_for_relay
       (queue_qso_for_relay (new_updater (str "n1mm")) w1aw_6m) w1aw_6m)
    w1aw_6m [w1aw_6m] epoch Refused eq_refl eq_refl))).
Defined.

Lemma offset_of_pass_mod env st ticks i :
  0 <= qso_offset st <= 59 ->
  (i <= length ticks)%nat -> (i <= length (qso_queue st))%nat ->
  offset_of_pass env st ticks i = (qso_offset st + Z.of_nat i) mod 60.
Proof.
  intros Ho Hi Hq. unfold offset_of_pass.
  rewrite relay_run_offset; [|exact Ho|rewrite length_take; lia].
  unfold len. rewrite length_take, Nat.min_l by exact Hi. reflexivity.
Qed.

Lemma mod60_distinct o i j :
  0 <= i < j -> j - i < 60 -> (o + i) mod 60 <> (o + j) mod 60.
Proof. intros H1 H2. Z.div_mod_to_equations. lia. Qed.

Lemma mod60_wraps o i : (o + (i + 60)) mod 60 = (o + i) mod 60.
Proof.
  replace (o + (i + 60)) with (o + i + 1 * 60) by lia.
  apply Z_mod_plus_full.
Qed.

Lemma n1mm_time_fields_spec q base k :
  datetime_off q = Some base -> _time_offset q = Some k ->
  valid_datetime base -> 0 <= k <= 59 -> toordinal base < _MAXORDINAL ->
  exists adjusted,
    n1mm_time_fields q
    = Ok [ str "<qso_date:8>" ++ strftime adjusted fmt_Ymd;
           str "<time_on:6>" ++ strftime adjusted fmt_HMS;
           str "<time_off:6>" ++ strftime adjusted fmt_HMS ]
    /\ valid_datetime adjusted
    /\ epoch_seconds adjusted = epoch_seconds base + k
    /\ microsecond adjusted = microsecond base.
Proof.
  intros Hb Hk Hv Hk59 Hmax. unfold n1mm_time_fields. rewrite Hb, Hk.
  unfold seconds_delta. rewrite new_timedelta_normal by lia. cbn [bind].
  pose proof (toordinal_bounds base Hv) as Hord.
  destruct Hv as (Hy & Hm & Hd & Hh & Hmi & Hs & Hus).
  destruct (datetime_add_ok base (mk_td 0 k 0)) as [adj Hadj].
  { lia. }
  { lia. }
  { lia. }
  { cbn [td_days td_seconds td_microseconds]. unfold _MAXORDINAL in *.
    Z.div_mod_to_equations. lia. }
  rewrite Hadj. cbn [bind]. exists adj. split; [reflexivity|].
  apply datetime_add_spec in Hadj as (Hva & He).
  split; [exact Hva|].
  cbn [td_days td_seconds td_microseconds] in He.
  unfold epoch_microseconds in He.
  destruct Hva as (_ & _ & _ & _ & _ & _ & Hus').
  split; lia.
Qed.




(** ** The process watchdog *)

Lemma new_pid_in_iff st current_pids :
  new_pid_in st current_pids <-> current_pids ∖ jt9_pids st ≠ ∅.
Proof.
  unfold new_pid_in. split.
  - intros (pid & Hin & Hout) He.
    assert (H : pid ∈ current_pids ∖ jt9_pids st)
      by (apply elem_of_difference; auto).
    rewrite He in H. apply not_elem_of_empty in H. exact H.
  - intros Hne. apply set_choose_L in Hne as (pid & Hpid).
    apply elem_of_difference in Hpid. eauto.
Qed.

Lemma truthy_inv g : truthy g = true -> exists grid, g = Some grid /\ grid <> [].
Proof.
  destruct g as [[|c s]|]; try discriminate. intros _.
  eexists. split; [reflexivity | discriminate].
Qed.

Lemma location_sent_to (ids : list (Z * (pystr * Z))) (grid : pystr)
    (port : Z) (wsjtx_id : pystr) (seen : Z) (message : bytes) :
  (port, (wsjtx_id, seen)) ∈ ids ->
  location_message wsjtx_id grid = Ok message ->
  EvUdpSendto message port
  ∈ flat_map (fun '(source_port, (wsjtx_id, _)) =>
                _send_wsjt_location wsjtx_id source_port grid) ids.
Proof.
  intros Hin Hm. apply list_elem_of_In, in_flat_map.
  exists (port, (wsjtx_id, seen)). split; [apply list_elem_of_In, Hin|].
  unfold _send_wsjt_location. rewrite Hm. left. reflexivity.
Qed.



(** An empty grid is no grid: the watchdog sends nothing. *)
Example watchdog_with_empty_grid :
  trace (monitor_step (update_grid em15_station []) {[ 1000; 4242 ]})
  = trace (update_grid em15_station []) ++ [EvSleep 3000].
Proof. vm_compute. reflexivity. Qed.
(** * Further properties of the module *)

(** ** The calendar, read backwards *)

Lemma days_before_year_succ y :
  _days_before_year (y + 1) = _days_before_year y + 365 + b2z (_is_leap y).
Proof.
  unfold _days_before_year. cbv zeta.
  replace (y + 1 - 1) with y by lia.
  destruct (_is_leap y) eqn:E.
  - apply is_leap_spec in E. cbn [b2z]. Z.div_mod_to_equations. lia.
  - assert (N : ~ (y mod 4 = 0 /\ (y mod 100 <> 0 \/ y mod 400 = 0))).
    { intros H. apply is_leap_spec in H. congruence. }
    cbn [b2z]. Z.div_mod_to_equations. lia.
Qed.

Lemma days_before_year_mono y y' :
  y <= y' -> _days_before_year y <= _days_before_year y'.
Proof.
  intros H. unfold _days_before_year. cbv zeta. Z.div_mod_to_equations. lia.
Qed.

Lemma month_cases m : 1 <= m <= 12 ->
  m = 1 \/ m = 2 \/ m = 3 \/ m = 4 \/ m = 5 \/ m = 6
  \/ m = 7 \/ m = 8 \/ m = 9 \/ m = 10 \/ m = 11 \/ m = 12.
Proof. lia. Qed.

Ltac each_month m H :=
  destruct (month_cases m H) as [->|[->|[->|[->|[->|[->|[->|[->|[->|[->|[->| ->]]]]]]]]]]].

(** The day of the year is at most the length of the year. *)
Lemma day_of_year_bounds y m d :
  1 <= m <= 12 -> 1 <= d <= _days_in_month y m ->
  1 <= _days_before_month y m + d <= 365 + b2z (_is_leap y).
Proof.
  intros Hm Hd. unfold _days_before_month, _days_in_month in *.
  each_month m Hm; destruct (_is_leap y); cbn in *; lia.
Qed.

Lemma toordinal_max dt : valid_datetime dt -> 1 <= toordinal dt <= _MAXORDINAL.
Proof.
  intros (Hy & Hm & Hd & _). unfold toordinal, _ymd2ord.
  pose proof (day_of_year_bounds _ _ _ Hm Hd).
  pose proof (days_before_year_succ (year dt)).
  pose proof (days_before_year_mono 1 (year dt) ltac:(lia)).
  pose proof (days_before_year_mono (year dt + 1) 10000 ltac:(lia)).
  change (_days_before_year 1) with 0 in *.
  change (_days_before_year 10000) with 3652059 in *.
  unfold _MAXORDINAL. lia.
Qed.

(** Two dates of the calendar with the same ordinal are the same date. *)
Lemma day_of_year_inj y m d m' d' :
  1 <= m <= 12 -> 1 <= d <= _days_in_month y m ->
  1 <= m' <= 12 -> 1 <= d' <= _days_in_month y m' ->
  _days_before_month y m + d = _days_before_month y m' + d' ->
  m = m' /\ d = d'.
Proof.
  intros Hm Hd Hm' Hd' E. unfold _days_before_month, _days_in_month in *.
  each_month m Hm; each_month m' Hm'; destruct (_is_leap y); cbn in *; lia.
Qed.

Lemma ymd2ord_inj y m d y' m' d' :
  1 <= m <= 12 -> 1 <= d <= _days_in_month y m ->
  1 <= m' <= 12 -> 1 <= d' <= _days_in_month y' m' ->
  _ymd2ord y m d = _ymd2ord y' m' d' ->
  y = y' /\ m = m' /\ d = d'.
Proof.
  intros Hm Hd Hm' Hd' E. unfold _ymd2ord in E.
  pose proof (day_of_year_bounds _ _ _ Hm Hd).
  pose proof (day_of_year_bounds _ _ _ Hm' Hd').
  pose proof (days_before_year_succ y).
  pose proof (days_before_year_succ y').
  assert (y = y').
  { destruct (Z.lt_trichotomy y y') as [L|[L|L]]; [|exact L|].
    - pose proof (days_before_year_mono (y + 1) y' ltac:(lia)). lia.
    - pose proof (days_before_year_mono (y' + 1) y ltac:(lia)). lia. }
  subst y'. split; [reflexivity|].
  apply (day_of_year_inj y); try assumption. lia.
Qed.

(** A [datetime] of the calendar is known by its place on the time line. *)
Lemma epoch_microseconds_inj a b :
  valid_datetime a -> valid_datetime b ->
  epoch_microseconds a = epoch_microseconds b -> a = b.
Proof.
  intros (Hy & Hm & Hd & Hh & Hmi & Hs & Hu) (Hy' & Hm' & Hd' & Hh' & Hmi' & Hs' & Hu') E.
  unfold epoch_microseconds, epoch_seconds in E.
  assert (Eo : toordinal a = toordinal b) by lia.
  assert (hour a = hour b) by lia.
  assert (minute a = minute b) by lia.
  assert (second a = second b) by lia.
  assert (microsecond a = microsecond b) by lia.
  destruct (ymd2ord_inj _ _ _ _ _ _ Hm Hd Hm' Hd' Eo) as (? & ? & ?).
  destruct a, b; cbn in *; congruence.
Qed.

(** The Julian day that [encode_qdatetime] computes is the ordinal of the
    date, counted from Julian day 1721425. *)
Lemma julian_day_of_ordinal dt :
  1 <= month dt <= 12 -> julian_day_of dt = toordinal dt + 1721425.
Proof.
  intros Hm. unfold julian_day_of, toordinal, _ymd2ord, _days_before_month,
    _days_before_year. cbv zeta.
  destruct (_is_leap (year dt)) eqn:E.
  - apply is_leap_spec in E.
    each_month (month dt) Hm; cbn; Z.div_mod_to_equations; lia.
  - assert (N : ~ (year dt mod 4 = 0
                   /\ (year dt mod 100 <> 0 \/ year dt mod 400 = 0))).
    { intros H. apply is_leap_spec in H. congruence. }
    each_month (month dt) Hm; cbn; Z.div_mod_to_equations; lia.
Qed.

(** ** Packed date-times, there and back *)

Lemma decode_qdatetime_in_calendar pre post J m time_spec :
  0 <= J < 2 ^ 64 -> 0 <= m < 2 ^ 32 ->
  1 <= toordinal epoch + (J - 2440588) + m / 86400000 <= _MAXORDINAL ->
  exists dt,
    _decode_qdatetime
      (pre ++ be_bytes 8 J ++ be_bytes 4 m ++ [time_spec] ++ post) (len pre)
    = Ok (dt, len pre + 13)
    /\ valid_datetime dt
    /\ epoch_microseconds dt = ((J - 2440588) * 86400000 + m) * 1000.
Proof.
  intros HJ Hm Hr. rewrite toordinal_epoch in Hr. unfold _MAXORDINAL in Hr.
  rewrite decode_qdatetime_bytes by assumption.
  assert (Hdm : (0 + m * 1000 / 1000000) / 86400 = m / 86400000).
  { rewrite Z.add_0_l.
    replace 1000000 with (1000 * 1000) by reflexivity.
    rewrite Z.div_mul_cancel_r by lia.
    rewrite Z.div_div by lia. reflexivity. }
  destruct (new_timedelta (J - 2440588) 0 (m * 1000)) as [delta|] eqn:Ed.
  2:{ exfalso. unfold new_timedelta in Ed. cbv zeta in Ed. rewrite Hdm in Ed.
      destruct (Z.gtb_spec (Z.abs (J - 2440588 + m / 86400000)) 999999999);
        [lia | discriminate]. }
  cbn [bind].
  pose proof (new_timedelta_spec _ _ _ _ Ed) as (Etot & Bs & Bu).
  assert (Edays : td_days delta = J - 2440588 + m / 86400000).
  { unfold new_timedelta in Ed. cbv zeta in Ed. rewrite Hdm in Ed.
    destruct (_ >? _); [discriminate|]. injection Ed as <-. reflexivity. }
  destruct (datetime_add_ok epoch delta) as [dt Hdt].
  { rewrite toordinal_epoch. lia. }
  { cbn. lia. }
  { cbn. lia. }
  { rewrite toordinal_epoch. cbn [hour minute second microsecond epoch].
    rewrite Edays. unfold _MAXORDINAL.
    replace ((0 * 3600 + 0 * 60 + 0 + td_seconds delta
              + (0 + td_microseconds delta) / 1000000) / 86400) with 0
      by (symmetry; apply Z.div_small;
          rewrite Z.add_0_l, (Z.div_small (td_microseconds delta)) by lia; lia).
    lia. }
  rewrite Hdt. cbn [bind]. exists dt. split; [reflexivity|].
  pose proof (datetime_add_spec _ _ _ Hdt) as (Hv & He).
  split; [exact Hv|].
  rewrite He. change (epoch_microseconds epoch) with 0. lia.
Qed.

Lemma to_milliseconds_valid dt :
  valid_datetime dt -> valid_datetime (to_milliseconds dt).
Proof.
  intros (Hy & Hm & Hd & Hh & Hmi & Hs & Hu).
  unfold valid_datetime, to_milliseconds. cbn.
  repeat split; try lia; Z.div_mod_to_equations; lia.
Qed.

Lemma msecs_of_bounds dt : valid_datetime dt -> 0 <= msecs_of dt < 86400000.
Proof.
  intros (Hy & Hm & Hd & Hh & Hmi & Hs & Hu). unfold msecs_of.
  Z.div_mod_to_equations. lia.
Qed.

Lemma encode_qdatetime_bytes dt :
  valid_datetime dt ->
  encode_qdatetime dt
  = Ok (be_bytes 8 (julian_day_of dt) ++ be_bytes 4 (msecs_of dt) ++ [x01]).
Proof.
  intros Hv. pose proof (msecs_of_bounds dt Hv) as Hms.
  pose proof (toordinal_max dt Hv) as Ho. unfold _MAXORDINAL in Ho.
  assert (Hm : 1 <= month dt <= 12) by (destruct Hv as (_ & H & _); exact H).
  pose proof (julian_day_of_ordinal dt Hm) as HJ.
  unfold encode_qdatetime, pack_Q, pack_I, pack_B, pack_uint. cbv zeta.
  change (256 ^ Z.of_nat 8) with (2 ^ 64).
  change (256 ^ Z.of_nat 4) with (2 ^ 32).
  replace ((0 <=? julian_day_of dt) && (julian_day_of dt <? 2 ^ 64)) with true
    by (symmetry; apply andb_true_iff; lia).
  replace ((0 <=? msecs_of dt) && (msecs_of dt <? 2 ^ 32)) with true
    by (symmetry; apply andb_true_iff; lia).
  reflexivity.
Qed.

Lemma decode_encoded_qdatetime pre post dt :
  valid_datetime dt ->
  _decode_qdatetime
    (pre ++ (be_bytes 8 (julian_day_of dt) ++ be_bytes 4 (msecs_of dt) ++ [x01])
         ++ post) (len pre)
  = Ok (to_milliseconds dt, len pre + 13).
Proof.
  intros Hv. pose proof (msecs_of_bounds dt Hv) as Hms.
  pose proof (toordinal_max dt Hv) as Ho. unfold _MAXORDINAL in Ho.
  assert (Hm : 1 <= month dt <= 12) by (destruct Hv as (_ & H & _); exact H).
  pose proof (julian_day_of_ordinal dt Hm) as HJ.
  rewrite <- !app_assoc.
  destruct (decode_qdatetime_in_calendar pre post (julian_day_of dt)
              (msecs_of dt) x01) as (r & Hr & Hvr & Er).
  { lia. } { lia. }
  { rewrite toordinal_epoch. unfold _MAXORDINAL.
    rewrite (Z.div_small (msecs_of dt)) by lia. lia. }
  rewrite Hr. f_equal. f_equal.
  apply epoch_microseconds_inj;
    [exact Hvr | apply to_milliseconds_valid; exact Hv |].
  rewrite Er. unfold epoch_microseconds, epoch_seconds, to_milliseconds.
  change (toordinal (mk_datetime (year dt) (month dt) (day dt) (hour dt)
                       (minute dt) (second dt) (microsecond dt / 1000 * 1000)))
    with (toordinal dt).
  cbn [year month day hour minute second microsecond].
  rewrite toordinal_epoch, HJ. unfold msecs_of. lia.
Qed.

(** ** QSO Logged datagrams, field by field *)

Lemma encode_qstring_same text : encode_qstring text = _encode_qstring text.
Proof. destruct text as [[|c s]|]; reflexivity. Qed.

Lemma pack_uint_inv k n bs :
  pack_uint k n = Ok bs ->
  bs = be_bytes k n /\ 0 <= n < 256 ^ Z.of_nat k /\ len bs = Z.of_nat k.
Proof.
  unfold pack_uint. intros H.
  destruct ((0 <=? n) && (n <? 256 ^ Z.of_nat k)) eqn:E; [|discriminate].
  injection H as <-. apply andb_true_iff in E as [E1 E2].
  split; [reflexivity|]. split; [lia|].
  unfold len. rewrite length_be_bytes. reflexivity.
Qed.

Lemma unpack_be_bytes k n :
  0 <= n < 256 ^ Z.of_nat k -> unpack_uint k (be_bytes k n) = Ok n.
Proof.
  intros H. unfold unpack_uint. rewrite length_be_bytes, Nat.eqb_refl.
  rewrite be_value_bytes by exact H. reflexivity.
Qed.

(** The body of a QSO Logged datagram is read field by field, each field
    where the one before it ended; the twelve bytes of the header are
    skipped unread, and what follows the seventeenth field is read as the
    propagation mode if it is a string. *)
Lemma parse_qso_fields_layout env (hdr tail : bytes)
    (s_id s_call s_grid s_mode s_sent s_rcvd s_power s_comments s_name
       s_op s_mycall s_mygrid s_xs s_xr : pystr)
    (e_id e_call e_grid e_mode e_sent e_rcvd e_power e_comments e_name
       e_op e_mycall e_mygrid e_xs e_xr b_off b_on : bytes)
    (t_off t_on : datetime) (freq : Z) :
  len hdr = 12 ->
  (forall pre post,
      _decode_qstring (pre ++ e_id ++ post) (len pre)
      = Ok (s_id, len pre + len e_id)) ->
  (forall pre post,
      _decode_qdatetime (pre ++ b_off ++ post) (len pre)
      = Ok (t_off, len pre + len b_off)) ->
  (forall pre post,
      _decode_qstring (pre ++ e_call ++ post) (len pre)
      = Ok (s_call, len pre + len e_call)) ->
  (forall pre post,
      _decode_qstring (pre ++ e_grid ++ post) (len pre)
      = Ok (s_grid, len pre + len e_grid)) ->
  0 <= freq < 2 ^ 64 ->
  (forall pre post,
      _decode_qstring (pre ++ e_mode ++ post) (len pre)
      = Ok (s_mode, len pre + len e_mode)) ->
  (forall pre post,
      _decode_qstring (pre ++ e_sent ++ post) (len pre)
      = Ok (s_sent, len pre + len e_sent)) ->
  (forall pre post,
      _decode_qstring (pre ++ e_rcvd ++ post) (len pre)
      = Ok (s_rcvd, len pre + len e_rcvd)) ->
  (forall pre post,
      _decode_qstring (pre ++ e_power ++ post) (len pre)
      = Ok (s_power, len pre + len e_power)) ->
  (forall pre post,
      _decode_qstring (pre ++ e_comments ++ post) (len pre)
      = Ok (s_comments, len pre + len e_comments)) ->
  (forall pre post,
      _decode_qstring (pre ++ e_name ++ post) (len pre)
      = Ok (s_name, len pre + len e_name)) ->
  (forall pre post,
      _decode_qdatetime (pre ++ b_on ++ post) (len pre)
      = Ok (t_on, len pre + len b_on)) ->
  (forall pre post,
      _decode_qstring (pre ++ e_op ++ post) (len pre)
      = Ok (s_op, len pre + len e_op)) ->
  (forall pre post,
      _decode_qstring (pre ++ e_mycall ++ post) (len pre)
      = Ok (s_mycall, len pre + len e_mycall)) ->
  (forall pre post,
      _decode_qstring (pre ++ e_mygrid ++ post) (len pre)
      = Ok (s_mygrid, len pre + len e_mygrid)) ->
  (forall pre post,
      _decode_qstring (pre ++ e_xs ++ post) (len pre)
      = Ok (s_xs, len pre + len e_xs)) ->
  (forall pre post,
      _decode_qstring (pre ++ e_xr ++ post) (len pre)
      = Ok (s_xr, len pre + len e_xr)) ->
  let body :=
    hdr ++ e_id ++ b_off ++ e_call ++ e_grid ++ be_bytes 8 freq ++ e_mode
    ++ e_sent ++ e_rcvd ++ e_power ++ e_comments ++ e_name ++ b_on ++ e_op
    ++ e_mycall ++ e_mygrid ++ e_xs ++ e_xr ++ [] in
  parse_qso_fields env (body ++ tail)
  = Ok (mk_qso s_id (Some t_off) (Some t_on) s_call s_grid freq
          (_freq_to_band env freq) s_mode s_sent s_rcvd s_power s_comments
          s_name s_op s_mycall s_mygrid s_xs s_xr
          (match _decode_qstring (body ++ tail) (len body) with
           | Ok (s, _) => s
           | Raise _ => []
           end) None []).
Proof.
  intros Hh H1 H2 H3 H4 Hf H5 H6 H7 H8 H9 H10 H11 H12 H13 H14 H15 H16 body.
  subst body. unfold parse_qso_fields. cbv zeta. rewrite <- Hh.
  rewrite <- !app_assoc. cbn [app].
  rewrite H1. cbn [bind].
  rewrite <- len_app, (app_assoc hdr e_id).
  rewrite H2. cbn [bind].
  rewrite <- len_app, (app_assoc _ b_off).
  rewrite H3. cbn [bind].
  rewrite <- len_app, (app_assoc _ e_call).
  rewrite H4. cbn [bind].
  rewrite <- len_app, (app_assoc _ e_grid).
  rewrite (slice_app_mid' _ (be_bytes 8 freq))
    by (try reflexivity; unfold len at 2; rewrite length_be_bytes; reflexivity).
  unfold unpack_Q. rewrite unpack_be_bytes by exact Hf. cbn [bind].
  match goal with
  | |- context [?x + 8] =>
    replace (x + 8) with (x + len (be_bytes 8 freq))
      by (unfold len at 2; rewrite length_be_bytes; reflexivity)
  end.
  rewrite <- len_app, (app_assoc _ (be_bytes 8 freq)).
  rewrite H5. cbn [bind].
  rewrite <- len_app, (app_assoc _ e_mode).
  rewrite H6. cbn [bind].
  rewrite <- len_app, (app_assoc _ e_sent).
  rewrite H7. cbn [bind].
  rewrite <- len_app, (app_assoc _ e_rcvd).
  rewrite H8. cbn [bind].
  rewrite <- len_app, (app_assoc _ e_power).
  rewrite H9. cbn [bind].
  rewrite <- len_app, (app_assoc _ e_comments).
  rewrite H10. cbn [bind].
  rewrite <- len_app, (app_assoc _ e_name).
  rewrite H11. cbn [bind].
  rewrite <- len_app, (app_assoc _ b_on).
  rewrite H12. cbn [bind].
  rewrite <- len_app, (app_assoc _ e_op).
  rewrite H13. cbn [bind].
  rewrite <- len_app, (app_assoc _ e_mycall).
  rewrite H14. cbn [bind].
  rewrite <- len_app, (app_assoc _ e_mygrid).
  rewrite H15. cbn [bind].
  rewrite <- len_app, (app_assoc _ e_xs).
  rewrite H16. cbn [bind].
  rewrite <- len_app, (app_assoc _ e_xr).
  rewrite <- !app_assoc. rewrite !app_assoc. rewrite app_nil_r.
  reflexivity.
Qed.

(** Property X1.  A date and time of the calendar that the test tool packs with
    [encode_qdatetime] comes back from [_decode_qdatetime] unchanged up to
    the millisecond: the thirteen bytes are consumed and the microseconds
    are cut to whole milliseconds. *)
Theorem qdatetime_round_trip (pre post : bytes) (dt : datetime) :
  valid_datetime dt ->
  exists bs,
    encode_qdatetime dt = Ok bs
    /\ len bs = 13
    /\ _decode_qdatetime (pre ++ bs ++ post) (len pre)
       = Ok (to_milliseconds dt, len pre + 13).
Proof.
  intros Hv. eexists. split; [apply encode_qdatetime_bytes; exact Hv|].
  split.
  - rewrite !len_app. unfold len. rewrite !length_be_bytes. reflexivity.
  - apply decode_encoded_qdatetime. exact Hv.
Qed.

Lemma qdatetime_round_trip_witness :
  exists bs,
    encode_qdatetime (mk_datetime 2025 6 14 18 30 15 123456) = Ok bs
    /\ len bs = 13
    /\ _decode_qdatetime ([] ++ bs ++ []) (len (@nil byte))
       = Ok (mk_datetime 2025 6 14 18 30 15 123000, len (@nil byte) + 13).
Proof.
  apply (qdatetime_round_trip [] [] (mk_datetime 2025 6 14 18 30 15 123456)).
  unfold valid_datetime. cbn. lia.
Defined.

Ltac bind_inv H :=
  match type of H with
  | bind ?r _ = Ok _ =>
    let E := fresh "E" in
    destruct r eqn:E; [cbn [bind] in H | discriminate H]
  end.

Lemma len_be_bytes k n : len (be_bytes k n) = Z.of_nat k.
Proof. unfold len. rewrite length_be_bytes. reflexivity. Qed.

(** The header of a datagram whose three words are in range. *)
Lemma parse_packet_header_layout (magic schema type : Z) (rest : bytes) :
  0 <= magic < 2 ^ 32 -> 0 <= schema < 2 ^ 32 -> 0 <= type < 2 ^ 32 ->
  let data := be_bytes 4 magic ++ be_bytes 4 schema ++ be_bytes 4 type ++ rest in
  _parse_packet_header data
  = if negb (magic =? MAGIC) then Raise (ValueError "Invalid magic number")
    else do (wsjtx_id, _offset) <- _decode_qstring data 12;
         Ok (type, wsjtx_id).
Proof.
  intros Hm Hs Ht data. subst data. unfold _parse_packet_header.
  pose proof (len_nonneg rest).
  rewrite !len_app, !len_be_bytes. ltb_false.
  set (rest1 := be_bytes 4 schema ++ be_bytes 4 type ++ rest).
  replace (slice (be_bytes 4 magic ++ rest1) 0 4) with (be_bytes 4 magic)
    by (symmetry; apply (slice_app_mid' [] (be_bytes 4 magic));
        rewrite ?len_be_bytes; reflexivity).
  subst rest1.
  rewrite (slice_app_mid' (be_bytes 4 magic) (be_bytes 4 schema))
    by (rewrite ?len_be_bytes; reflexivity).
  replace (slice (be_bytes 4 magic ++ be_bytes 4 schema ++ be_bytes 4 type
                  ++ rest) 8 12) with (be_bytes 4 type)
    by (symmetry; rewrite (app_assoc (be_bytes 4 magic));
        apply (slice_app_mid' (be_bytes 4 magic ++ be_bytes 4 schema)
                 (be_bytes 4 type));
        rewrite ?len_app, ?len_be_bytes; reflexivity).
  unfold unpack_I. rewrite !unpack_be_bytes by assumption.
  cbn [bind]. reflexivity.
Qed.

Lemma encoded_field_reads_back s e :
  encode_qstring (Some s) = Ok e -> len e < 4 + NULL_QSTRING ->
  forall pre post,
    _decode_qstring (pre ++ e ++ post) (len pre) = Ok (s, len pre + len e).
Proof.
  intros E Hl pre post. rewrite encode_qstring_same in E.
  apply decode_encoded_qstring; assumption.
Qed.

Lemma null_field_not_read (data : bytes) :
  _decode_qstring data (len data)
  = Raise (ValueError "Not enough data for QString length").
Proof. unfold _decode_qstring. ltb_true. reflexivity. Qed.

(** Property X2.  A QSO Logged datagram that the test tool builds is read by the
    module as the contact it was built from: the header gives the message
    type and the instance id, and the body gives every field, the two
    times to the millisecond and the band of the frequency.  The same
    contact is read when the last field, the propagation mode, is
    missing, as in datagrams of older WSJT-X versions.  The listener hands
    the contact to the duplicate filter. *)
Theorem qso_logged_round_trip (env : Env) (now : datetime)
    (wsjtx_id dx_call dx_grid : pystr) (freq_hz : Z)
    (mode rst_sent rst_rcvd my_call my_grid : pystr) (msg : bytes) :
  valid_datetime now ->
  build_qso_logged_message now wsjtx_id dx_call dx_grid freq_hz mode
    rst_sent rst_rcvd my_call my_grid = Ok msg ->
  len msg < NULL_QSTRING ->
  let contact := contact_of_message env now wsjtx_id dx_call dx_grid freq_hz
                   mode rst_sent rst_rcvd my_call my_grid in
  _parse_packet_header msg = Ok (MSG_QSO_LOGGED, wsjtx_id)
  /\ _parse_qso_logged env msg = Some contact
  /\ _parse_qso_logged env (slice msg 0 (len msg - 4)) = Some contact
  /\ (forall st source_port t,
        listen_step env st (Datagram msg source_port t)
        = _handle_qso_logged env st contact).
Proof.
  intros Hv Hb Hlen contact.
  unfold build_qso_logged_message in Hb.
  change (pack_I MAGIC) with (Ok (be_bytes 4 MAGIC)) in Hb.
  change (pack_I SCHEMA) with (Ok (be_bytes 4 SCHEMA)) in Hb.
  change (pack_I MSG_QSO_LOGGED) with (Ok (be_bytes 4 MSG_QSO_LOGGED)) in Hb.
  change (encode_qstring (Some [])) with (Ok (be_bytes 4 NULL_QSTRING)) in Hb.
  remember (be_bytes 4 MAGIC) as b_magic eqn:Em.
  remember (be_bytes 4 SCHEMA) as b_schema eqn:Es.
  remember (be_bytes 4 MSG_QSO_LOGGED) as b_type eqn:Et.
  remember (be_bytes 4 NULL_QSTRING) as b_null eqn:En.
  rewrite (encode_qdatetime_bytes now Hv) in Hb.
  remember (be_bytes 8 (julian_day_of now) ++ be_bytes 4 (msecs_of now) ++ [x01])
    as b_now eqn:Enow.
  cbn [bind] in Hb.
  bind_inv Hb. rename a into e_id, E into E_id.
  bind_inv Hb. rename a into e_call, E into E_call.
  bind_inv Hb. rename a into e_grid, E into E_grid.
  bind_inv Hb. rename a into b_freq, E into E_freq.
  bind_inv Hb. rename a into e_mode, E into E_mode.
  bind_inv Hb. rename a into e_sent, E into E_sent.
  bind_inv Hb. rename a into e_rcvd, E into E_rcvd.
  bind_inv Hb. rename a into e_op, E into E_op.
  bind_inv Hb. rename a into e_mygrid, E into E_mygrid.
  injection Hb as <-.
  apply pack_uint_inv in E_freq as (-> & Hfreq & _).
  change (256 ^ Z.of_nat 8) with (2 ^ 64) in Hfreq.
  assert (Lm : len b_magic = 4) by (subst; reflexivity).
  assert (Ls : len b_schema = 4) by (subst; reflexivity).
  assert (Lt : len b_type = 4) by (subst; reflexivity).
  assert (Ln : len b_null = 4) by (subst; reflexivity).
  assert (Lnow : len b_now = 13)
    by (subst b_now; rewrite !len_app, !len_be_bytes; reflexivity).
  rewrite !len_app, ?len_be_bytes, Lm, Ls, Lt, Ln, Lnow in Hlen.
  pose proof (len_nonneg e_id). pose proof (len_nonneg e_call).
  pose proof (len_nonneg e_grid). pose proof (len_nonneg e_mode).
  pose proof (len_nonneg e_sent). pose proof (len_nonneg e_rcvd).
  pose proof (len_nonneg e_op). pose proof (len_nonneg e_mygrid).
  assert (Hnull : forall pre post,
             _decode_qstring (pre ++ b_null ++ post) (len pre)
             = Ok ([], len pre + len b_null)).
  { apply encoded_field_reads_back; [subst; reflexivity|].
    rewrite Ln. unfold NULL_QSTRING. lia. }
  assert (Hnow : forall pre post,
             _decode_qdatetime (pre ++ b_now ++ post) (len pre)
             = Ok (to_milliseconds now, len pre + len b_now)).
  { intros pre post. rewrite Lnow. subst b_now.
    apply decode_encoded_qdatetime. exact Hv. }
  set (hdr := b_magic ++ b_schema ++ b_type).
  assert (Hh : len hdr = 12)
    by (subst hdr; rewrite !len_app, Lm, Ls, Lt; reflexivity).
  set (body := hdr ++ e_id ++ b_now ++ e_call ++ e_grid ++ be_bytes 8 freq_hz
               ++ e_mode ++ e_sent ++ e_rcvd ++ b_null ++ b_null ++ b_null
               ++ b_now ++ e_op ++ e_op ++ e_mygrid ++ e_mygrid ++ e_grid
               ++ []).
  assert (Emsg : b_magic ++ b_schema ++ b_type ++ e_id ++ b_now ++ e_call
                 ++ e_grid ++ be_bytes 8 freq_hz ++ e_mode ++ e_sent
                 ++ e_rcvd ++ b_null ++ b_null ++ b_null ++ b_now ++ e_op
                 ++ e_op ++ e_mygrid ++ e_mygrid ++ e_grid ++ b_null
                 = body ++ b_null).
  { subst body hdr. rewrite <- !app_assoc. reflexivity. }
  rewrite Emsg.
  assert (Lbody : len (body ++ b_null) - 4 = len body)
    by (rewrite len_app, Ln; lia).
  assert (Hparse : forall tail,
             (match _decode_qstring (body ++ tail) (len body) with
              | Ok (s, _) => s
              | Raise _ => []
              end) = [] ->
             parse_qso_fields env (body ++ tail) = Ok contact).
  { intros tail Htail. subst body.
    rewrite (parse_qso_fields_layout env hdr tail
               wsjtx_id dx_call dx_grid mode rst_sent rst_rcvd [] [] []
               my_call my_call my_grid my_grid dx_grid
               e_id e_call e_grid e_mode e_sent e_rcvd b_null b_null b_null
               e_op e_op e_mygrid e_mygrid e_grid b_now b_now
               (to_milliseconds now) (to_milliseconds now) freq_hz);
      try assumption;
      try (apply encoded_field_reads_back;
           [assumption | unfold NULL_QSTRING in *; lia]).
    rewrite Htail. reflexivity. }
  assert (P1 : _parse_qso_logged env (body ++ b_null) = Some contact).
  { unfold _parse_qso_logged. rewrite Hparse; [reflexivity|].
    rewrite <- (app_nil_r (body ++ b_null)), <- app_assoc.
    rewrite Hnull. reflexivity. }
  assert (P0 : _parse_packet_header (body ++ b_null)
               = Ok (MSG_QSO_LOGGED, wsjtx_id)).
  { subst body hdr b_magic b_schema b_type. rewrite <- !app_assoc.
    rewrite parse_packet_header_layout by (cbv; split; congruence).
    change (negb (MAGIC =? MAGIC)) with false. cbv iota.
    rewrite (app_assoc (be_bytes 4 MAGIC)).
    rewrite (app_assoc (be_bytes 4 MAGIC ++ be_bytes 4 SCHEMA)).
    change 12 with (len ((be_bytes 4 MAGIC ++ be_bytes 4 SCHEMA)
                         ++ be_bytes 4 MSG_QSO_LOGGED)).
    rewrite (encoded_field_reads_back wsjtx_id e_id E_id
               ltac:(unfold NULL_QSTRING in *; lia)).
    reflexivity. }
  split; [exact P0|]. split; [exact P1|]. split.
  - rewrite Lbody.
    replace (slice (body ++ b_null) 0 (len body)) with body.
    2:{ symmetry. apply (slice_app_mid' [] body b_null); reflexivity. }
    unfold _parse_qso_logged.
    rewrite <- (app_nil_r body) at 1. rewrite Hparse; [reflexivity|].
    rewrite app_nil_r, null_field_not_read. reflexivity.
  - intros st source_port t. unfold listen_step. rewrite P0.
    change (MSG_QSO_LOGGED =? MSG_HEARTBEAT) with false.
    change (MSG_QSO_LOGGED =? MSG_QSO_LOGGED) with true.
    cbv iota. rewrite P1. reflexivity.
Qed.

Lemma qso_logged_round_trip_witness :
  _parse_qso_logged plain_env w1aw_test_message
  = Some (contact_of_message plain_env (mk_datetime 2025 6 14 18 30 15 123456)
            (str "WSJT-X - ic7610") (str "W1AW") (str "FN31") 50313000
            (str "FT8") (str "-10") (str "-12") (str "N5ZY") (str "EM15")).
Proof.
  refine (proj1 (proj2 (qso_logged_round_trip plain_env
            (mk_datetime 2025 6 14 18 30 15 123456)
            (str "WSJT-X - ic7610") (str "W1AW") (str "FN31") 50313000
            (str "FT8") (str "-10") (str "-12") (str "N5ZY") (str "EM15")
            w1aw_test_message _ _ _))).
  - unfold valid_datetime. cbn. lia.
  - vm_compute. reflexivity.
  - vm_compute. reflexivity.
Defined.

(** ** What a decoder looks at *)

Lemma slice_same_suffix {A} (pre pre' rest : list A) lo hi :
  len pre = len pre' -> len pre <= lo ->
  slice (pre ++ rest) lo hi = slice (pre' ++ rest) lo hi.
Proof.
  intros Hl Hlo. unfold slice. rewrite !len_app, <- Hl.
  pose proof (len_nonneg pre). pose proof (len_nonneg rest).
  set (n := len pre + len rest).
  assert (Hn : len pre <= norm_index n lo).
  { unfold norm_index. destruct (lo <? 0) eqn:E; lia. }
  f_equal.
  rewrite !drop_app_ge by (unfold len in *; lia).
  f_equal. unfold len in *. lia.
Qed.

Lemma decode_qstring_same_suffix (pre pre' rest : bytes) o :
  len pre = len pre' -> len pre <= o ->
  _decode_qstring (pre ++ rest) o = _decode_qstring (pre' ++ rest) o.
Proof.
  intros Hl Ho. unfold _decode_qstring.
  rewrite !len_app, <- Hl.
  rewrite (slice_same_suffix pre pre' rest o (o + 4) Hl Ho).
  destruct (len pre + len rest <? o + 4); [reflexivity|].
  destruct (unpack_I _) as [n|]; [|reflexivity]. cbn [bind].
  destruct (n =? NULL_QSTRING); [reflexivity|].
  destruct (len pre + len rest <? o + 4 + n); [reflexivity|].
  rewrite (slice_same_suffix pre pre' rest (o + 4) (o + 4 + n) Hl ltac:(lia)).
  reflexivity.
Qed.

Lemma decode_qdatetime_same_suffix (pre pre' rest : bytes) o :
  len pre = len pre' -> len pre <= o ->
  _decode_qdatetime (pre ++ rest) o = _decode_qdatetime (pre' ++ rest) o.
Proof.
  intros Hl Ho. unfold _decode_qdatetime.
  rewrite !len_app, <- Hl.
  rewrite (slice_same_suffix pre pre' rest o (o + 8) Hl Ho).
  rewrite (slice_same_suffix pre pre' rest (o + 8) (o + 8 + 4) Hl ltac:(lia)).
  rewrite (slice_same_suffix pre pre' rest (o + 8 + 4) (o + 8 + 4 + 1) Hl
             ltac:(lia)).
  reflexivity.
Qed.

Lemma decode_qdatetime_bounds data offset dt off' :
  _decode_qdatetime data offset = Ok (dt, off') -> off' = offset + 13.
Proof.
  unfold _decode_qdatetime. destruct (len data <? offset + 13); [discriminate|].
  destruct (unpack_Q _); [|discriminate]. cbn [bind].
  destruct (unpack_I _); [|discriminate]. cbn [bind].
  destruct (unpack_B _); [|discriminate]. cbn [bind].
  destruct (new_timedelta _ _ _); [|discriminate]. cbn [bind].
  destruct (datetime_add _ _); [|discriminate]. cbn [bind].
  intros [= _ <-]. lia.
Qed.

Ltac same_string Hq :=
  match goal with
  | |- bind (_decode_qstring _ ?o) _ = bind (_decode_qstring _ ?o) _ =>
    rewrite (Hq o) by lia;
    let E := fresh "E" in
    let s := fresh "s" in
    let o' := fresh "o" in
    destruct (_decode_qstring _ o) as [[s o']|] eqn:E;
    [apply decode_qstring_bounds in E; [|lia]; cbn [bind] | reflexivity]
  end.

Ltac same_time Ht :=
  match goal with
  | |- bind (_decode_qdatetime _ ?o) _ = bind (_decode_qdatetime _ ?o) _ =>
    rewrite (Ht o) by lia;
    let E := fresh "E" in
    let t := fresh "t" in
    let o' := fresh "o" in
    destruct (_decode_qdatetime _ o) as [[t o']|] eqn:E;
    [apply decode_qdatetime_bounds in E; cbn [bind] | reflexivity]
  end.

(** The body of a QSO Logged datagram is read from its thirteenth byte
    on: the twelve bytes of the header have no part in it. *)
Lemma parse_qso_fields_same_suffix env (pre pre' rest : bytes) :
  len pre = 12 -> len pre' = 12 ->
  parse_qso_fields env (pre ++ rest) = parse_qso_fields env (pre' ++ rest).
Proof.
  intros Hl Hl'.
  assert (Hq : forall o, 12 <= o ->
             _decode_qstring (pre ++ rest) o = _decode_qstring (pre' ++ rest) o)
    by (intros; apply decode_qstring_same_suffix; lia).
  assert (Ht : forall o, 12 <= o ->
             _decode_qdatetime (pre ++ rest) o
             = _decode_qdatetime (pre' ++ rest) o)
    by (intros; apply decode_qdatetime_same_suffix; lia).
  assert (Hs : forall lo hi, 12 <= lo ->
             slice (pre ++ rest) lo hi = slice (pre' ++ rest) lo hi)
    by (intros; apply slice_same_suffix; lia).
  unfold parse_qso_fields. cbv zeta.
  set (d := pre ++ rest) in *. set (d' := pre' ++ rest) in *.
  same_string Hq. same_time Ht. same_string Hq. same_string Hq.
  rewrite Hs by lia. destruct (unpack_Q _); [cbn [bind] | reflexivity].
  same_string Hq. same_string Hq. same_string Hq. same_string Hq.
  same_string Hq. same_string Hq. same_time Ht.
  same_string Hq. same_string Hq. same_string Hq. same_string Hq.
  same_string Hq.
  rewrite Hq by lia. reflexivity.
Qed.

Lemma parse_adif_logged_same_suffix (pre pre' rest : bytes) :
  len pre = 12 -> len pre' = 12 ->
  _parse_adif_logged (pre ++ rest) = _parse_adif_logged (pre' ++ rest).
Proof.
  intros Hl Hl'.
  assert (Hq : forall o, 12 <= o ->
             _decode_qstring (pre ++ rest) o = _decode_qstring (pre' ++ rest) o)
    by (intros; apply decode_qstring_same_suffix; lia).
  unfold _parse_adif_logged. cbv zeta.
  rewrite (Hq 12) by lia.
  destruct (_decode_qstring (pre' ++ rest) 12) as [[s o]|] eqn:E;
    [|reflexivity].
  apply decode_qstring_bounds in E; [|lia]. cbn [bind].
  rewrite Hq by lia. reflexivity.
Qed.

Lemma unpack_uint_exact k (bs : bytes) :
  length bs = k -> unpack_uint k bs = Ok (be_value bs).
Proof. intros H. unfold unpack_uint. rewrite H, Nat.eqb_refl. reflexivity. Qed.

Lemma parse_packet_header_words (m s t rest : bytes) :
  length m = 4%nat -> length s = 4%nat -> length t = 4%nat ->
  let data := m ++ s ++ t ++ rest in
  _parse_packet_header data
  = if negb (be_value m =? MAGIC) then Raise (ValueError "Invalid magic number")
    else do (wsjtx_id, _offset) <- _decode_qstring data 12;
         Ok (be_value t, wsjtx_id).
Proof.
  intros Hm Hs Ht data. subst data. unfold _parse_packet_header.
  pose proof (len_nonneg rest).
  assert (Lm : len m = 4) by (unfold len; rewrite Hm; reflexivity).
  assert (Ls : len s = 4) by (unfold len; rewrite Hs; reflexivity).
  assert (Lt : len t = 4) by (unfold len; rewrite Ht; reflexivity).
  rewrite !len_app, Lm, Ls, Lt. ltb_false.
  set (rest1 := s ++ t ++ rest).
  replace (slice (m ++ rest1) 0 4) with m
    by (symmetry; apply (slice_app_mid' [] m); rewrite ?Lm; reflexivity).
  subst rest1.
  rewrite (slice_app_mid' m s) by (rewrite ?Lm, ?Ls; reflexivity).
  replace (slice (m ++ s ++ t ++ rest) 8 12) with t
    by (symmetry; rewrite (app_assoc m);
        apply (slice_app_mid' (m ++ s) t);
        rewrite ?len_app, ?Lm, ?Ls, ?Lt; reflexivity).
  unfold unpack_I. rewrite !unpack_uint_exact by assumption.
  cbn [bind]. reflexivity.
Qed.

(** Property X3.  The listener does not look at the schema number of a datagram:
    two datagrams that differ in that word only are treated alike. *)
Theorem listener_ignores_schema (env : Env) (st : RadioUpdater)
    (magic schema schema' type : Z) (rest : bytes) (source_port now : Z) :
  listen_step env st
    (Datagram (be_bytes 4 magic ++ be_bytes 4 schema ++ be_bytes 4 type ++ rest)
       source_port now)
  = listen_step env st
      (Datagram (be_bytes 4 magic ++ be_bytes 4 schema' ++ be_bytes 4 type
                 ++ rest) source_port now).
Proof.
  set (m := be_bytes 4 magic). set (t := be_bytes 4 type).
  set (s := be_bytes 4 schema). set (s' := be_bytes 4 schema').
  assert (Hm : length m = 4%nat) by apply length_be_bytes.
  assert (Hs : length s = 4%nat) by apply length_be_bytes.
  assert (Hs' : length s' = 4%nat) by apply length_be_bytes.
  assert (Ht : length t = 4%nat) by apply length_be_bytes.
  assert (L : len ((m ++ s) ++ t) = 12)
    by (unfold len; rewrite !length_app, Hm, Hs, Ht; reflexivity).
  assert (L' : len ((m ++ s') ++ t) = 12)
    by (unfold len; rewrite !length_app, Hm, Hs', Ht; reflexivity).
  assert (A : m ++ s ++ t ++ rest = ((m ++ s) ++ t) ++ rest)
    by (rewrite <- !app_assoc; reflexivity).
  assert (A' : m ++ s' ++ t ++ rest = ((m ++ s') ++ t) ++ rest)
    by (rewrite <- !app_assoc; reflexivity).
  unfold listen_step.
  rewrite (parse_packet_header_words m s t rest Hm Hs Ht).
  rewrite (parse_packet_header_words m s' t rest Hm Hs' Ht).
  cbv zeta. rewrite A, A'.
  rewrite (decode_qstring_same_suffix _ ((m ++ s') ++ t) rest 12) by lia.
  unfold _parse_qso_logged.
  rewrite (parse_qso_fields_same_suffix env _ ((m ++ s') ++ t) rest L L').
  rewrite (parse_adif_logged_same_suffix _ ((m ++ s') ++ t) rest L L').
  reflexivity.
Qed.

Lemma decode_qdatetime_words (pre jd ms post : bytes) (time_spec : byte) :
  length jd = 8%nat -> length ms = 4%nat ->
  _decode_qdatetime (pre ++ jd ++ ms ++ [time_spec] ++ post) (len pre)
  = (do delta <- new_timedelta (be_value jd - 2440588) 0 (be_value ms * 1000);
     do dt <- datetime_add epoch delta;
     Ok (dt, len pre + 13)).
Proof.
  intros Hj Hm.
  pose proof (len_nonneg pre). pose proof (len_nonneg post).
  assert (L8 : len jd = 8) by (unfold len; rewrite Hj; reflexivity).
  assert (L4 : len ms = 4) by (unfold len; rewrite Hm; reflexivity).
  unfold _decode_qdatetime.
  rewrite !len_app, L8, L4. change (len [time_spec]) with 1. ltb_false.
  rewrite (slice_app_mid' pre jd) by lia.
  unfold unpack_Q. rewrite unpack_uint_exact by exact Hj. cbn [bind].
  rewrite (app_assoc pre).
  rewrite (slice_app_mid' (pre ++ jd) ms) by (rewrite len_app; lia).
  unfold unpack_I. rewrite unpack_uint_exact by exact Hm. cbn [bind].
  rewrite (app_assoc _ ms).
  rewrite (slice_app_mid' ((pre ++ jd) ++ ms) [time_spec])
    by (rewrite !len_app; change (len [time_spec]) with 1; lia).
  unfold unpack_B, unpack_uint. cbn [length Nat.eqb bind].
  replace (len pre + 8 + 4 + 1) with (len pre + 13) by lia.
  reflexivity.
Qed.

(** Property X4.  The time-spec flag of a packed date-time is read and not used: a
    time marked as local time (flag 0) is decoded to the same date and time
    as one marked as UTC (flag 1), and so for every value of the flag. *)
Theorem qdatetime_ignores_time_spec (pre post : bytes) (julian_day msecs : Z)
    (time_spec time_spec' : byte) :
  _decode_qdatetime
    (pre ++ be_bytes 8 julian_day ++ be_bytes 4 msecs ++ [time_spec] ++ post)
    (len pre)
  = _decode_qdatetime
      (pre ++ be_bytes 8 julian_day ++ be_bytes 4 msecs ++ [time_spec'] ++ post)
      (len pre).
Proof.
  rewrite !decode_qdatetime_words by apply length_be_bytes. reflexivity.
Qed.

(** Property X5.  The decoder of the discovery tool returns what the decoder of the
    module returns wherever the module's decoder returns; where the module
    raises [ValueError] for want of data the tool gives the empty string
    and stays at the offset it had reached, and a failure of the UTF-8
    decoding is the same failure in both. *)
Theorem lenient_decoder_agrees (data : bytes) (offset : Z) :
  match _decode_qstring data offset with
  | Ok r => decode_qstring data offset = Ok r
  | Raise (ValueError _) =>
    decode_qstring data offset = Ok ([], offset)
    \/ decode_qstring data offset = Ok ([], offset + 4)
  | Raise e => decode_qstring data offset = Raise e
  end.
Proof.
  unfold _decode_qstring, decode_qstring.
  change 0xFFFFFFFF with NULL_QSTRING.
  destruct (len data <? offset + 4); [left; reflexivity|].
  destruct (unpack_I (slice data offset (offset + 4))) as [n|[]] eqn:E;
    cbn [bind]; try reflexivity.
  - destruct (n =? NULL_QSTRING); [reflexivity|].
    destruct (len data <? offset + 4 + n); [right; reflexivity|].
    destruct (utf8_decode _); reflexivity.
  - unfold unpack_I, unpack_uint in E. destruct (Nat.eqb _ _); discriminate.
Qed.

(** ** The band plan *)

Lemma fallback_ends_in_z (x name : pystr) :
  x ++ str "MHz" = name -> last name = Some 122.
Proof.
  intros <-. change (str "MHz") with ([77; 72] ++ [122]).
  rewrite app_assoc. apply last_snoc.
Qed.

Lemma between_spec lo x hi : between lo x hi = true <-> lo <= x <= hi.
Proof. unfold between. rewrite andb_true_iff. lia. Qed.

Lemma between_false lo x hi : between lo x hi = false <-> x < lo \/ hi < x.
Proof. unfold between. rewrite andb_false_iff. lia. Qed.

Ltac band_forward H :=
  repeat match type of H with
  | (if between ?a ?x ?b then _ else _) = _ =>
    let E := fresh "E" in
    destruct (between a x b) eqn:E;
    [ first [ discriminate H | apply between_spec in E; exact E ]
    | apply between_false in E ]
  end.

Ltac band_backward :=
  repeat match goal with
  | |- (if between ?a ?x ?b then _ else _) = _ =>
    first [ rewrite (proj2 (between_false a x b)) by lia
          | rewrite (proj2 (between_spec a x b)) by lia; reflexivity ]
  end.

(** Property X6.  The bands of [_freq_to_band] do not overlap: a frequency is given
    the name of a band exactly when it lies between the bounds of that
    band, both bounds included, whatever the order of the tests; the text
    for a frequency outside every band is none of the names. *)
Theorem freq_to_band_plan (env : Env) (hz lo hi : Z) (name : pystr) :
  In (lo, hi, name) band_plan ->
  (_freq_to_band env hz = name <-> lo <= hz <= hi).
Proof.
  intros Hin. unfold band_plan in Hin. cbn [In] in Hin.
  repeat (destruct Hin as [Hin|Hin]; [injection Hin as <- <- <-|]);
    [..|contradiction];
    (split; intros H;
     [ unfold _freq_to_band in H; band_forward H;
       apply fallback_ends_in_z in H; discriminate H
     | unfold _freq_to_band; band_backward ]).
Qed.

Lemma freq_to_band_plan_witness :
  _freq_to_band plain_env 50313000 = str "6m"
  <-> 50000000 <= 50313000 <= 54000000.
Proof.
  apply (freq_to_band_plan plain_env 50313000 50000000 54000000 (str "6m")).
  unfold band_plan. do 10 right. left. reflexivity.
Defined.

Lemma band_of_plan env hz lo hi name :
  In (lo, hi, name) band_plan -> lo <= hz <= hi ->
  _freq_to_band env hz = name.
Proof.
  intros Hin H. unfold band_plan in Hin. cbn [In] in Hin.
  repeat (destruct Hin as [Hin|Hin]; [injection Hin as <- <- <-|]);
    [..|contradiction]; unfold _freq_to_band; band_backward.
Qed.

Lemma band_outside_plan env hz :
  ~ in_band_plan hz -> _freq_to_band env hz = fmt_mhz env 3 hz ++ str "MHz".
Proof.
  intros H. unfold _freq_to_band.
  repeat match goal with
  | |- (if between ?a ?x ?b then ?n else _) = _ =>
    let E := fresh "E" in
    destruct (between a x b) eqn:E;
    [ exfalso; apply H; exists a, b, n;
      split; [unfold band_plan; cbn [In]; tauto | apply between_spec; exact E]
    | ]
  end.
  reflexivity.
Qed.

Lemma fallback_not_in_band_map (x : pystr) :
  dict_get band_map (x ++ str "MHz") = None.
Proof.
  assert (H : forall name, last name = Some 122 -> dict_get band_map name = None).
  { intros name Hl. unfold band_map. cbn [dict_get].
    repeat match goal with
    | |- context [decide (?a = name)] =>
      destruct (decide (a = name)) as [<-|_]; [vm_compute in Hl; discriminate Hl|]
    end.
    reflexivity. }
  apply H. eapply fallback_ends_in_z. reflexivity.
Qed.

(** Property X7.  For a frequency in a band of the plan, the band of the record
    for N1MM+ is the name of the band in capital letters, taken from the
    table of the module: every name that [_freq_to_band] gives has its
    entry, so [upper] is not called and the result does not depend on the
    locale.  Only the text for a frequency outside the plan goes through
    [upper]. *)
Theorem n1mm_band_of_frequency (env : Env) (hz : Z) :
  (forall lo hi name,
      In (lo, hi, name) band_plan -> lo <= hz <= hi ->
      _band_to_n1mm_format env (_freq_to_band env hz) = ascii_upper name)
  /\ (~ in_band_plan hz ->
      _band_to_n1mm_format env (_freq_to_band env hz)
      = str_upper env (fmt_mhz env 3 hz ++ str "MHz")).
Proof.
  split.
  - intros lo hi name Hin H. rewrite (band_of_plan env hz lo hi name Hin H).
    unfold band_plan in Hin. cbn [In] in Hin.
    repeat (destruct Hin as [Hin|Hin]; [injection Hin as <- <- <-|]);
      [..|contradiction]; reflexivity.
  - intros H. rewrite (band_outside_plan env hz H).
    unfold _band_to_n1mm_format. rewrite fallback_not_in_band_map.
    reflexivity.
Qed.

(** Property X8.  The band that goes to N3FJP is the name of the band without its
    letters m: for a frequency in a metre band it is the number alone
    ([6] for 6 m), for a frequency in a centimetre band the number
    followed by the letter c ([70c] for 70 cm). *)
Theorem n3fjp_band_of_frequency (env : Env) (now : datetime) (q : QsoData) :
  (exists rest,
      n3fjp_command env now q
      = str "<UPDATEANDLOG>" ++ tagged (str "CALL") (dx_call q)
        ++ tagged (str "BAND") (band_num (band q)) ++ rest)
  /\ (forall hz lo hi name,
        In (lo, hi, name) band_plan -> lo <= hz <= hi ->
        band_num (_freq_to_band env hz) = without_m name)
  /\ (forall hz, 50000000 <= hz <= 54000000 ->
        band_num (_freq_to_band env hz) = str "6")
  /\ (forall hz, 420000000 <= hz <= 450000000 ->
        band_num (_freq_to_band env hz) = str "70c").
Proof.
  assert (G : forall hz lo hi name,
             In (lo, hi, name) band_plan -> lo <= hz <= hi ->
             band_num (_freq_to_band env hz) = without_m name).
  { intros hz lo hi name Hin H. rewrite (band_of_plan env hz lo hi name Hin H).
    unfold band_plan in Hin. cbn [In] in Hin.
    repeat (destruct Hin as [Hin|Hin]; [injection Hin as <- <- <-|]);
      [..|contradiction]; reflexivity. }
  split; [|split; [exact G|split]].
  - eexists. unfold n3fjp_command, band_num. cbv zeta.
    unfold tagged at 1. rewrite <- !app_assoc. reflexivity.
  - intros hz H.
    apply (G hz 50000000 54000000 (str "6m")); [|exact H].
    unfold band_plan. do 10 right. left. reflexivity.
  - intros hz H.
    apply (G hz 420000000 450000000 (str "70cm")); [|exact H].
    unfold band_plan. do 13 right. left. reflexivity.
Qed.

(** ** What each operation leaves alone *)

Lemma handle_qso_logged_frame env st q :
  let st' := _handle_qso_logged env st q in
  contest_logger st' = contest_logger st /\ wsjtx_ids st' = wsjtx_ids st
  /\ running st' = running st /\ current_grid st' = current_grid st
  /\ jt9_pids st' = jt9_pids st /\ qso_offset st' = qso_offset st.
Proof.
  unfold _handle_qso_logged. cbv zeta.
  destruct (decide _); [cbn; tauto|].
  destruct (stamp env q) as [q' es]. destruct (qso_callback env); cbn; tauto.
Qed.

Lemma record_heartbeat_frame st source_port wsjtx_id now :
  let st' := record_heartbeat st source_port wsjtx_id now in
  contest_logger st' = contest_logger st /\ logged_qsos st' = logged_qsos st
  /\ qso_queue st' = qso_queue st
  /\ running st' = running st /\ current_grid st' = current_grid st
  /\ jt9_pids st' = jt9_pids st /\ qso_offset st' = qso_offset st.
Proof.
  unfold record_heartbeat. cbv zeta.
  destruct (dict_get _ _); cbn; tauto.
Qed.

Lemma listen_step_frame env st r :
  let st' := listen_step env st r in
  contest_logger st' = contest_logger st
  /\ running st' = running st /\ current_grid st' = current_grid st
  /\ jt9_pids st' = jt9_pids st /\ qso_offset st' = qso_offset st.
Proof.
  cbv zeta. unfold listen_step.
  destruct r as [data p t| |];
    [|tauto|destruct (running st) eqn:E; cbn; rewrite ?E; tauto].
  destruct (_parse_packet_header data) as [[ty id]|]; [|tauto].
  destruct (ty =? MSG_HEARTBEAT).
  { pose proof (record_heartbeat_frame st p id t). cbv zeta in *. tauto. }
  destruct (ty =? MSG_QSO_LOGGED).
  { destruct (_parse_qso_logged env data); [|tauto].
    pose proof (handle_qso_logged_frame env st q). cbv zeta in *. tauto. }
  destruct (ty =? MSG_LOGGED_ADIF); [|tauto].
  destruct (_parse_adif_logged data) as [[? ?]|]; cbn; tauto.
Qed.

Lemma relay_step_frame env st now o :
  let st' := relay_step env st now o in
  contest_logger st' = contest_logger st /\ wsjtx_ids st' = wsjtx_ids st
  /\ logged_qsos st' = logged_qsos st
  /\ running st' = running st /\ current_grid st' = current_grid st
  /\ jt9_pids st' = jt9_pids st.
Proof.
  cbv zeta. unfold relay_step, relay_deliver.
  destruct (qso_queue st) as [|q rest]; [tauto|]. cbv zeta.
  destruct (if is_n3fjp st then _ else _) as [ok es]. cbn. tauto.
Qed.

Lemma resend_grid_frame st :
  let st' := _resend_grid_to_all st in
  contest_logger st' = contest_logger st /\ wsjtx_ids st' = wsjtx_ids st
  /\ logged_qsos st' = logged_qsos st /\ qso_queue st' = qso_queue st
  /\ running st' = running st /\ current_grid st' = current_grid st
  /\ jt9_pids st' = jt9_pids st /\ qso_offset st' = qso_offset st.
Proof.
  cbv zeta. unfold _resend_grid_to_all.
  destruct (negb _); cbn; tauto.
Qed.

Lemma monitor_step_frame st pids :
  let st' := monitor_step st pids in
  contest_logger st' = contest_logger st /\ wsjtx_ids st' = wsjtx_ids st
  /\ logged_qsos st' = logged_qsos st /\ qso_queue st' = qso_queue st
  /\ running st' = running st /\ current_grid st' = current_grid st
  /\ qso_offset st' = qso_offset st.
Proof.
  cbv zeta. unfold monitor_step. cbv zeta.
  destruct (_ && _).
  - pose proof (resend_grid_frame (emit (emit st [EvSleep 3000]) [EvSleep 2000])).
    cbv zeta in *. cbn in *. tauto.
  - cbn. tauto.
Qed.

Lemma update_grid_frame st g :
  let st' := update_grid st g in
  contest_logger st' = contest_logger st /\ wsjtx_ids st' = wsjtx_ids st
  /\ logged_qsos st' = logged_qsos st /\ qso_queue st' = qso_queue st
  /\ running st' = running st /\ current_grid st' = Some g
  /\ jt9_pids st' = jt9_pids st /\ qso_offset st' = qso_offset st.
Proof. cbv zeta. unfold update_grid. cbn. tauto. Qed.

(** Property X9.  The grid of the object changes in [update_grid] and nowhere
    else: no datagram, no pass of the relay worker or of the watchdog, no
    manual contact, no change of logger and no stop sets or clears it.
    After a run [current_grid] is the grid of the last [update_grid], and
    the grid the object had before if there was none. *)
Theorem grid_changes_in_update_grid_only (env : Env) (st : RadioUpdater)
    (events : list Event) :
  (Forall (fun e => is_update_grid e = false) events ->
   current_grid (run env st events) = current_grid st)
  /\ (forall before grid after,
        events = before ++ UpdateGrid grid :: after ->
        Forall (fun e => is_update_grid e = false) after ->
        current_grid (run env st events) = Some grid).
Proof.
  assert (G : forall events st,
             Forall (fun e => is_update_grid e = false) events ->
             current_grid (run env st events) = current_grid st).
  { clear. intros events. induction events as [|e es IH]; intros st H.
    - reflexivity.
    - apply Forall_cons in H as [He Hes]. unfold run in *. cbn [fold_left].
      rewrite (IH _ Hes).
      destruct e as [r|now o|pids|g|q|l|]; cbn [step]; try discriminate He.
      + destruct (running st); [|reflexivity].
        pose proof (listen_step_frame env st r). cbv zeta in *. tauto.
      + destruct (running st); [|reflexivity].
        pose proof (relay_step_frame env st now o). cbv zeta in *. tauto.
      + destruct (running st); [|reflexivity].
        pose proof (monitor_step_frame st pids). cbv zeta in *. tauto.
      + reflexivity.
      + reflexivity.
      + reflexivity. }
  split; [apply G|].
  intros before grid after -> Hafter. unfold run in *.
  rewrite fold_left_app. cbn [fold_left]. rewrite (G after _ Hafter).
  reflexivity.
Qed.

(** ** The registry over a run *)

Lemma dict_get_None {K V} `{EqDecision K} (d : list (K * V)) k :
  dict_get d k = None <-> k ∉ map fst d.
Proof.
  induction d as [|[k' v'] d IH]; cbn [dict_get map fst].
  - split; [intros _; apply not_elem_of_nil | reflexivity].
  - rewrite not_elem_of_cons. destruct (decide (k' = k)) as [->|N].
    + split; [discriminate | intros [? _]; congruence].
    + rewrite IH. split; [intros ?; split; congruence | tauto].
Qed.

Lemma dict_set_keys {K V} `{EqDecision K} (d : list (K * V)) k v :
  map fst (dict_set d k v)
  = match dict_get d k with
    | Some _ => map fst d
    | None => map fst d ++ [k]
    end.
Proof.
  induction d as [|[k' v'] d IH]; cbn [dict_get dict_set map fst app].
  - reflexivity.
  - destruct (decide (k' = k)) as [->|N]; cbn [map fst].
    + reflexivity.
    + rewrite IH. destruct (dict_get d k); reflexivity.
Qed.

Lemma dict_set_NoDup {K V} `{EqDecision K} (d : list (K * V)) k v :
  NoDup (map fst d) -> NoDup (map fst (dict_set d k v)).
Proof.
  intros Hd. rewrite dict_set_keys.
  destruct (dict_get d k) eqn:E; [exact Hd|].
  apply NoDup_app. split; [exact Hd|]. split.
  - intros x Hx Hk. apply list_elem_of_singleton in Hk as ->.
    apply dict_get_None in E. contradiction.
  - apply NoDup_singleton.
Qed.

Lemma record_heartbeat_ids st source_port wsjtx_id now :
  wsjtx_ids (record_heartbeat st source_port wsjtx_id now)
  = dict_set (wsjtx_ids st) source_port (wsjtx_id, now).
Proof. unfold record_heartbeat. destruct (dict_get _ _); reflexivity. Qed.

Lemma step_registry env st e :
  wsjtx_ids (step env st e) = wsjtx_ids st
  \/ exists source_port wsjtx_id now,
       wsjtx_ids (step env st e)
       = dict_set (wsjtx_ids st) source_port (wsjtx_id, now).
Proof.
  destruct (step_cases env st e) as [(data & p & t & id & _ & ->)|(es & _ & _ & H)].
  - right. exists p, id, t. apply record_heartbeat_ids.
  - left. exact H.
Qed.

(** Property X10.  Over any run of the module every port is in the registry at
    most once, so that [update_grid] and the watchdog address each
    instance once. *)
Theorem registry_ports_unique (env : Env) (logger : pystr)
    (events : list Event) :
  NoDup (map fst (wsjtx_ids (run env (new_updater logger) events))).
Proof.
  assert (G : forall events st,
             NoDup (map fst (wsjtx_ids st)) ->
             NoDup (map fst (wsjtx_ids (run env st events)))).
  { clear. intros events. induction events as [|e es IH]; intros st H.
    - exact H.
    - unfold run in *. cbn [fold_left]. apply IH.
      destruct (step_registry env st e) as [->|(p & id & t & ->)];
        [exact H | apply dict_set_NoDup; exact H]. }
  apply G. apply NoDup_nil_2.
Qed.

Lemma registered_dict_set (ids : list (Z * (pystr * Z))) port p v :
  dict_get ids port <> None -> dict_get (dict_set ids p v) port <> None.
Proof.
  intros H. destruct (decide (port = p)) as [->|N].
  - rewrite dict_get_set_eq. discriminate.
  - rewrite dict_get_set_ne by exact N. exact H.
Qed.

(** Property X11.  The registry never loses an endpoint: a port that is in it
    stays in it, whatever the module does afterwards and however long the
    instance has been silent ([last_seen] is stored and never read). *)
Theorem registry_never_evicts (env : Env) (st : RadioUpdater)
    (events : list Event) (port : Z) :
  registered st port = true -> registered (run env st events) port = true.
Proof.
  revert st. induction events as [|e es IH]; intros st H.
  - exact H.
  - unfold run in *. cbn [fold_left]. apply IH.
    unfold registered in *.
    destruct (step_registry env st e) as [->|(p & id & t & ->)]; [exact H|].
    pose proof (registered_dict_set (wsjtx_ids st) port p (id, t)) as R.
    destruct (dict_get (wsjtx_ids st) port); [|discriminate H].
    destruct (dict_get (dict_set _ _ _) port); [reflexivity|].
    exfalso. apply R; [discriminate | reflexivity].
Qed.

Lemma registry_never_evicts_witness :
  registered
    (run plain_env em15_station
       [Watchdog {[ 1000; 2000 ]}; Listen RecvTimeout; StopListener]) 61234
  = true.
Proof.
  apply (registry_never_evicts plain_env em15_station
           [Watchdog {[ 1000; 2000 ]}; Listen RecvTimeout; StopListener] 61234).
  reflexivity.
Defined.

(** ** The memory of the duplicate filter *)

Lemma listen_step_logged env st r k :
  k ∈ logged_qsos st -> k ∈ logged_qsos (listen_step env st r).
Proof.
  intros H. unfold listen_step.
  destruct r as [data p t| |];
    [|exact H|destruct (running st); exact H].
  destruct (_parse_packet_header data) as [[ty id]|]; [|exact H].
  destruct (ty =? MSG_HEARTBEAT).
  { pose proof (record_heartbeat_frame st p id t) as F. cbv zeta in F.
    destruct F as (_ & -> & _). exact H. }
  destruct (ty =? MSG_QSO_LOGGED).
  { destruct (_parse_qso_logged env data); [|exact H].
    apply handle_logged_qsos. left. exact H. }
  destruct (ty =? MSG_LOGGED_ADIF); [|exact H].
  destruct (_parse_adif_logged data) as [[? ?]|]; exact H.
Qed.

Lemma step_logged env st e k :
  k ∈ logged_qsos st -> k ∈ logged_qsos (step env st e).
Proof.
  intros H. destruct e as [r|now o|pids|g|q|l|]; cbn [step].
  - destruct (running st); [apply listen_step_logged|]; exact H.
  - destruct (running st); [|exact H].
    pose proof (relay_step_frame env st now o) as F. cbv zeta in F.
    destruct F as (_ & _ & -> & _). exact H.
  - destruct (running st); [|exact H].
    pose proof (monitor_step_frame st pids) as F. cbv zeta in F.
    destruct F as (_ & _ & -> & _). exact H.
  - exact H.
  - exact H.
  - exact H.
  - exact H.
Qed.

Lemma run_logged env events : forall st k,
  k ∈ logged_qsos st -> k ∈ logged_qsos (run env st events).
Proof.
  induction events as [|e es IH]; intros st k H; [exact H|].
  unfold run in *. cbn [fold_left]. apply IH, step_logged, H.
Qed.

(** Property X12.  The duplicate filter never forgets a key: nothing the module
    does removes a key from [logged_qsos], so a contact whose key has been
    recorded is reported as a duplicate and dropped however much later its
    datagram comes, with no write to the ADIF backup and nothing put on the
    queue. *)
Theorem dedup_memory_is_kept (env : Env) (st : RadioUpdater) (q : QsoData)
    (events : list Event) :
  qso_key q ∈ logged_qsos st ->
  let st' := run env st events in
  qso_key q ∈ logged_qsos st'
  /\ _handle_qso_logged env st' q
     = emit st' [EvPrintDuplicate (dx_call q) (band q)].
Proof.
  intros H st'. assert (H' : qso_key q ∈ logged_qsos st')
    by (apply run_logged; exact H).
  split; [exact H'|]. apply handle_duplicate. exact H'.
Qed.

Lemma dedup_memory_is_kept_witness :
  let st := _handle_qso_logged plain_env (new_updater (str "n1mm")) w1aw_6m in
  let st' := run plain_env st
               [Relay epoch Refused; UpdateGrid (str "EM15"); StopListener] in
  qso_key w1aw_6m ∈ logged_qsos st'
  /\ _handle_qso_logged plain_env st' w1aw_6m
     = emit st' [EvPrintDuplicate (dx_call w1aw_6m) (band w1aw_6m)].
Proof.
  apply (dedup_memory_is_kept plain_env
           (_handle_qso_logged plain_env (new_updater (str "n1mm")) w1aw_6m)
           w1aw_6m
           [Relay epoch Refused; UpdateGrid (str "EM15"); StopListener]).
  apply handle_logged_qsos. right. reflexivity.
Defined.

(** ** The queue over a run *)

Lemma count_app (f : Effect -> bool) a b :
  length (List.filter f (a ++ b))
  = (length (List.filter f a) + length (List.filter f b))%nat.
Proof. rewrite List.filter_app, length_app. reflexivity. Qed.

Lemma count_none (f : Effect -> bool) es :
  Forall (fun e => f e = false) es -> length (List.filter f es) = 0%nat.
Proof.
  induction 1 as [|e es He _ IH]; [reflexivity|].
  cbn [List.filter]. rewrite He. exact IH.
Qed.

Lemma Forall_flat_map {A B} (P : B -> Prop) (f : A -> list B) l :
  (forall x, Forall P (f x)) -> Forall P (flat_map f l).
Proof.
  intros H. induction l as [|x l IH]; cbn [flat_map]; [constructor|].
  apply Forall_app. split; [apply H | exact IH].
Qed.

Lemma send_wsjt_location_plain (f : Effect -> bool) wsjtx_id port grid :
  (forall m p, f (EvUdpSendto m p) = false) ->
  (forall w, f (EvPrintError w) = false) ->
  Forall (fun e => f e = false) (_send_wsjt_location wsjtx_id port grid).
Proof.
  intros H1 H2. unfold _send_wsjt_location.
  destruct (location_message wsjtx_id grid); repeat constructor; auto.
Qed.

Lemma location_sends_plain (f : Effect -> bool) (g : option pystr) ids :
  (forall m p, f (EvUdpSendto m p) = false) ->
  (forall w, f (EvPrintError w) = false) ->
  forall grid,
  Forall (fun e => f e = false)
    (flat_map (fun '(source_port, (wsjtx_id, _)) =>
                 _send_wsjt_location wsjtx_id source_port grid)
       (ids : list (Z * (pystr * Z)))).
Proof.
  intros H1 H2 grid. apply Forall_flat_map. intros [p [id t]].
  apply send_wsjt_location_plain; assumption.
Qed.

Lemma tcp_exchange_plain (f : Effect -> bool) l text o :
  (forall l o, f (EvTcpConnect l o) = false) ->
  (forall l p, f (EvTcpSendall l p) = false) ->
  Forall (fun e => f e = false) (snd (tcp_exchange l text o)).
Proof.
  intros H1 H2. unfold tcp_exchange.
  destruct o; [destruct (utf8_encode text)|..]; repeat constructor; auto.
Qed.

Lemma relay_deliver_trace env st q rest now o :
  exists attempt,
    trace (relay_deliver env st q rest now o)
    = trace st ++ attempt ++ [EvSleep 500]
    /\ qso_queue (relay_deliver env st q rest now o) = rest
    /\ forall f : Effect -> bool,
         (forall l o, f (EvTcpConnect l o) = false) ->
         (forall l p, f (EvTcpSendall l p) = false) ->
         f (EvSleep 100) = false ->
         Forall (fun e => f e = false) attempt.
Proof.
  unfold relay_deliver. cbv zeta.
  destruct (is_n3fjp st).
  - unfold _send_qso_to_n3fjp, _send_n3fjp_command.
    pose proof (fun f => tcp_exchange_plain f N3FJP
      (tagged (str "CMD")
         (n3fjp_command env now (set_time_offset q (qso_offset st)))) o) as P.
    destruct (tcp_exchange _ _ _) as [ok es]. cbn [snd] in P.
    exists es. cbn. repeat split. intros f H1 H2 _. apply P; assumption.
  - unfold _send_qso_to_n1mm.
    destruct (_build_adif_for_n1mm env _) as [record|].
    + pose proof (fun f => tcp_exchange_plain f N1MM record o) as P.
      destruct (tcp_exchange _ _ _) as [[|] es]; cbn [snd] in P.
      * exists (es ++ [EvSleep 100]). cbn. repeat split.
        intros f H1 H2 H3. apply Forall_app. split; [apply P; assumption|].
        repeat constructor. exact H3.
      * exists es. cbn. repeat split. intros f H1 H2 _. apply P; assumption.
    + exists []. cbn. repeat split. intros. constructor.
Qed.

Lemma balanced_emit st es :
  Forall (fun e => is_queue_put e = false) es ->
  Forall (fun e => is_relay_pause e = false) es ->
  queue_balanced st -> queue_balanced (emit st es).
Proof.
  unfold queue_balanced, queue_puts, relay_passes. intros H1 H2 B.
  cbn [trace qso_queue emit]. rewrite !count_app.
  rewrite (count_none _ _ H1), (count_none _ _ H2). lia.
Qed.

Lemma balanced_same st st' es :
  trace st' = trace st ++ es -> qso_queue st' = qso_queue st ->
  Forall (fun e => is_queue_put e = false) es ->
  Forall (fun e => is_relay_pause e = false) es ->
  queue_balanced st -> queue_balanced st'.
Proof.
  unfold queue_balanced, queue_puts, relay_passes. intros -> -> H1 H2 B.
  rewrite !count_app.
  rewrite (count_none _ _ H1), (count_none _ _ H2). lia.
Qed.

Lemma balanced_handle env st q :
  queue_balanced st -> queue_balanced (_handle_qso_logged env st q).
Proof.
  intros B. destruct (decide (qso_key q ∈ logged_qsos st)) as [Hin|Hnew].
  - rewrite handle_duplicate by exact Hin.
    apply balanced_emit; [| |exact B]; repeat constructor.
  - destruct (handle_new_contact env st q Hnew) as (Ht & Hq & _).
    unfold queue_balanced, queue_puts, relay_passes in *.
    rewrite Ht, Hq. rewrite !count_app, length_app.
    unfold stamp. destruct (location_stamper env) as [f|];
      [destruct (f q)|]; destruct (qso_callback env); cbn; lia.
Qed.

Lemma balanced_record_heartbeat st p id t :
  queue_balanced st -> queue_balanced (record_heartbeat st p id t).
Proof.
  intros B. unfold record_heartbeat.
  destruct (dict_get _ _); [exact B|].
  apply (balanced_emit st [EvPrintDiscovered id p]); [| |exact B];
    repeat constructor.
Qed.

Lemma balanced_listen env st r :
  queue_balanced st -> queue_balanced (listen_step env st r).
Proof.
  intros B. unfold listen_step.
  destruct r as [data p t| |]; [|exact B|].
  - destruct (_parse_packet_header data) as [[ty id]|]; [|exact B].
    destruct (ty =? MSG_HEARTBEAT); [apply balanced_record_heartbeat, B|].
    destruct (ty =? MSG_QSO_LOGGED).
    { destruct (_parse_qso_logged env data); [apply balanced_handle|]; exact B. }
    destruct (ty =? MSG_LOGGED_ADIF); [|exact B].
    destruct (_parse_adif_logged data) as [[? ?]|]; [|exact B].
    apply balanced_emit; [| |exact B]; repeat constructor.
  - destruct (running st); [|exact B].
    apply balanced_emit; [| |exact B]; repeat constructor.
Qed.

Lemma balanced_relay env st now o :
  queue_balanced st -> queue_balanced (relay_step env st now o).
Proof.
  intros B. unfold relay_step.
  destruct (qso_queue st) as [|q rest] eqn:Eq; [exact B|].
  destruct (relay_deliver_trace env st q rest now o) as (es & Ht & Hq & Hes).
  unfold queue_balanced, queue_puts, relay_passes in *.
  rewrite Ht, Hq, Eq in *. rewrite !count_app.
  rewrite (count_none is_queue_put es), (count_none is_relay_pause es)
    by (apply Hes; reflexivity).
  cbn in *. lia.
Qed.

Lemma balanced_resend st :
  queue_balanced st -> queue_balanced (_resend_grid_to_all st).
Proof.
  intros B. unfold _resend_grid_to_all. destruct (negb _); [exact B|].
  apply balanced_emit; [| |exact B];
    apply (location_sends_plain _ None); reflexivity.
Qed.

Lemma balanced_monitor st pids :
  queue_balanced st -> queue_balanced (monitor_step st pids).
Proof.
  intros B. unfold monitor_step. cbv zeta.
  assert (B1 : queue_balanced (emit st [EvSleep 3000]))
    by (apply balanced_emit; [| |exact B]; repeat constructor).
  destruct (_ && _).
  - assert (B2 : queue_balanced (emit (emit st [EvSleep 3000]) [EvSleep 2000]))
      by (apply balanced_emit; [| |exact B1]; repeat constructor).
    apply balanced_resend in B2. exact B2.
  - exact B1.
Qed.

Lemma balanced_update_grid st g :
  queue_balanced st -> queue_balanced (update_grid st g).
Proof.
  intros B. unfold update_grid. cbv zeta.
  apply balanced_emit; [repeat constructor..|].
  apply (balanced_emit (set_current_grid st (Some g)));
    [apply (location_sends_plain _ None); reflexivity..|].
  exact B.
Qed.

Lemma balanced_manual st q :
  queue_balanced st -> queue_balanced (queue_qso_for_relay st q).
Proof.
  unfold queue_balanced, queue_puts, relay_passes, queue_qso_for_relay.
  intros B. cbn [trace qso_queue emit set_qso_queue].
  rewrite !count_app, length_app. cbn. lia.
Qed.

Lemma balanced_step env st e :
  queue_balanced st -> queue_balanced (step env st e).
Proof.
  intros B. destruct e as [r|now o|pids|g|q|l|]; cbn [step].
  - destruct (running st); [apply balanced_listen|]; exact B.
  - destruct (running st); [apply balanced_relay|]; exact B.
  - destruct (running st); [apply balanced_monitor|]; exact B.
  - apply balanced_update_grid, B.
  - apply balanced_manual, B.
  - exact B.
  - exact B.
Qed.

(** Property X13.  The queue loses and invents nothing.  At every point of a run
    that starts with a fresh object, the contacts that were put on the
    queue (by the listeners and by manual entry) are as many as the passes
    that the relay worker has made on a contact plus the contacts still
    waiting: each queued contact is taken by exactly one pass, or waits. *)
Theorem queue_conservation (env : Env) (logger : pystr) (events : list Event) :
  let st := run env (new_updater logger) events in
  queue_puts (trace st)
  = (relay_passes (trace st) + length (qso_queue st))%nat.
Proof.
  assert (G : forall events st,
             queue_balanced st -> queue_balanced (run env st events)).
  { clear. intros events. induction events as [|e es IH]; intros st B.
    - exact B.
    - unfold run in *. cbn [fold_left]. apply IH, balanced_step, B. }
  apply (G events (new_updater logger)). reflexivity.
Qed.

(** ** After [stop_listener] *)

Lemma stopped_step env st e :
  running st = false ->
  let st' := step env st e in
  running st' = false /\ wsjtx_ids st' = wsjtx_ids st
  /\ logged_qsos st' = logged_qsos st
  /\ relay_passes (trace st') = relay_passes (trace st)
  /\ adif_writes (trace st') = adif_writes (trace st)
  /\ exists more, qso_queue st' = qso_queue st ++ more.
Proof.
  intros H. cbv zeta.
  assert (Same : running st = false /\ wsjtx_ids st = wsjtx_ids st
                 /\ logged_qsos st = logged_qsos st
                 /\ relay_passes (trace st) = relay_passes (trace st)
                 /\ adif_writes (trace st) = adif_writes (trace st)
                 /\ exists more, qso_queue st = qso_queue st ++ more).
  { repeat split; [exact H|]. exists []. rewrite app_nil_r. reflexivity. }
  destruct e as [r|now o|pids|g|q|l|]; cbn [step];
    [rewrite H; exact Same..| | | |].
  - pose proof (update_grid_frame st g) as F. cbv zeta in F.
    destruct F as (_ & -> & -> & -> & -> & _).
    split; [exact H|]. repeat split.
    + unfold update_grid, relay_passes. cbn [trace emit set_current_grid].
      rewrite !count_app.
      rewrite (count_none is_relay_pause (flat_map _ _))
        by (apply (location_sends_plain _ None); reflexivity).
      cbn. lia.
    + unfold update_grid, adif_writes. cbn [trace emit set_current_grid].
      rewrite !count_app.
      rewrite (count_none is_adif_write (flat_map _ _))
        by (apply (location_sends_plain _ None); reflexivity).
      cbn. lia.
    + exists []. rewrite app_nil_r. reflexivity.
  - unfold queue_qso_for_relay, relay_passes, adif_writes. cbn.
    rewrite !count_app. cbn. repeat split; try lia; [exact H|].
    exists [q]. reflexivity.
  - cbn. repeat split; [exact H|]. exists []. rewrite app_nil_r. reflexivity.
  - cbn. repeat split. exists []. rewrite app_nil_r. reflexivity.
Qed.

(** Property X14.  Once [stop_listener] has cleared [running], the loops of the
    module do nothing more and nothing sets [running] again: no datagram
    is taken, the registry and the keys of the duplicate filter stay as
    they are, nothing is written to the ADIF backup, and the relay worker
    takes no contact.  A contact that is queued by manual entry after the
    stop stays on the queue. *)
Theorem stopped_updater_is_inert (env : Env) (st : RadioUpdater)
    (events : list Event) :
  running st = false ->
  let st' := run env st events in
  running st' = false /\ wsjtx_ids st' = wsjtx_ids st
  /\ logged_qsos st' = logged_qsos st
  /\ relay_passes (trace st') = relay_passes (trace st)
  /\ adif_writes (trace st') = adif_writes (trace st)
  /\ exists more, qso_queue st' = qso_queue st ++ more.
Proof.
  revert st. induction events as [|e es IH]; intros st H; cbv zeta.
  - repeat split; [exact H|]. exists []. rewrite app_nil_r. reflexivity.
  - unfold run in *. cbn [fold_left].
    destruct (stopped_step env st e H) as (R & E1 & E2 & E3 & E4 & m1 & E5).
    destruct (IH _ R) as (R' & -> & -> & -> & -> & m2 & ->).
    rewrite E1, E2, E3, E4, E5.
    repeat split; [exact R'|]. exists (m1 ++ m2). rewrite app_assoc.
    reflexivity.
Qed.

Lemma stopped_updater_is_inert_witness :
  let st := step plain_env three_waiting StopListener in
  let st' := run plain_env st
               [Relay epoch Accepted; QueueManual w1aw_6m;
                Listen (Datagram qso_logged_w1aw 61234 7)] in
  running st' = false /\ wsjtx_ids st' = wsjtx_ids st
  /\ logged_qsos st' = logged_qsos st
  /\ relay_passes (trace st') = relay_passes (trace st)
  /\ adif_writes (trace st') = adif_writes (trace st)
  /\ exists more, qso_queue st' = qso_queue st ++ more.
Proof.
  apply (stopped_updater_is_inert plain_env
           (step plain_env three_waiting StopListener)
           [Relay epoch Accepted; QueueManual w1aw_6m;
            Listen (Datagram qso_logged_w1aw 61234 7)]).
  reflexivity.
Defined.

(** ** Manual contacts *)

(** Property X16.  A contact entered by hand goes round the duplicate filter:
    [queue_qso_for_relay] puts it on the queue whether or not its key is
    known, records no key and writes nothing to the ADIF backup (the caller
    writes the record).  If WSJT-X then logs a contact with the same key,
    the filter admits it and the logger is sent the contact twice. *)
Theorem manual_contact_bypasses_filter (env : Env) (st : RadioUpdater)
    (q : QsoData) :
  let st1 := queue_qso_for_relay st q in
  qso_queue st1 = qso_queue st ++ [q]
  /\ logged_qsos st1 = logged_qsos st
  /\ trace st1 = trace st ++ [EvQueuePut q]
  /\ ((qso_key q ∉ logged_qsos st) ->
      qso_queue (_handle_qso_logged env st1 q)
      = qso_queue st ++ [q; fst (stamp env q)]).
Proof.
  cbv zeta. repeat split.
  intros Hnew.
  destruct (handle_new_contact env (queue_qso_for_relay st q) q Hnew)
    as (_ & -> & _).
  unfold queue_qso_for_relay. cbn [qso_queue emit set_qso_queue].
  rewrite <- app_assoc. reflexivity.
Qed.

(** ** The choice of the logger *)

Lemma tcp_exchange_logger l text o :
  Forall (fun e => tcp_logger e = Some l) (snd (tcp_exchange l text o)).
Proof.
  unfold tcp_exchange.
  destruct o; [destruct (utf8_encode text)|..]; repeat constructor.
Qed.

(** Property X15.  The relay worker chooses the logger when it delivers, not when
    the contact is queued: a pass talks to N3FJP if [contest_logger] is
    exactly the text [n3fjp] at that moment, and to N1MM+ for every other
    value, so that a contact queued before [set_logger] goes to the new
    logger. *)
Theorem logger_chosen_at_delivery (env : Env) (st : RadioUpdater)
    (logger : pystr) (now : datetime) (o : NetOutcome) :
  let st' := relay_step env (set_contest_logger st logger) now o in
  let chosen := if decide (logger = str "n3fjp") then N3FJP else N1MM in
  exists es,
    trace st' = trace st ++ es
    /\ Forall (fun e => tcp_logger e = None \/ tcp_logger e = Some chosen) es.
Proof.
  cbv zeta. unfold relay_step. cbn [qso_queue set_contest_logger].
  destruct (qso_queue st) as [|q rest].
  { exists []. rewrite app_nil_r. split; [reflexivity | constructor]. }
  unfold relay_deliver. cbv zeta.
  unfold is_n3fjp. cbn [contest_logger set_contest_logger qso_offset].
  unfold bool_decide.
  destruct (decide_rel eq logger (str "n3fjp")) as [E|E];
    destruct (decide (logger = str "n3fjp")) as [E'|E']; try contradiction.
  - unfold _send_qso_to_n3fjp, _send_n3fjp_command.
    pose proof (tcp_exchange_logger N3FJP
      (tagged (str "CMD")
         (n3fjp_command env now (set_time_offset q (qso_offset st)))) o) as P.
    destruct (tcp_exchange _ _ _) as [ok es]. cbn [snd] in P.
    exists (es ++ [EvSleep 500]). cbn. split; [reflexivity|].
    apply Forall_app. split.
    + eapply Forall_impl; [exact P|]. intros e He. right. exact He.
    + repeat constructor.
  - unfold _send_qso_to_n1mm.
    destruct (_build_adif_for_n1mm env _) as [record|].
    + pose proof (tcp_exchange_logger N1MM record o) as P.
      destruct (tcp_exchange _ _ _) as [[|] es]; cbn [snd] in P.
      * exists ((es ++ [EvSleep 100]) ++ [EvSleep 500]). cbn.
        split; [reflexivity|].
        repeat (apply Forall_app; split);
          try (repeat constructor; fail).
        eapply Forall_impl; [exact P|]. intros e He. right. exact He.
      * exists (es ++ [EvSleep 500]). cbn. split; [reflexivity|].
        apply Forall_app. split.
        -- eapply Forall_impl; [exact P|]. intros e He. right. exact He.
        -- repeat constructor.
    + exists [EvSleep 500]. cbn. split; [reflexivity|].
      repeat constructor.
Qed.

(** ** Records and their fields *)

Lemma length_zfill w n : length (zfill w n) = w.
Proof.
  revert n. induction w as [|w IH]; intros n; cbn [zfill]; [reflexivity|].
  rewrite length_app, IH. cbn. lia.
Qed.

Lemma len_strftime_Ymd t : len (strftime t fmt_Ymd) = 8.
Proof.
  unfold strftime, fmt_Ymd, len. cbn [map concat format_directive].
  rewrite !length_app, !length_zfill. reflexivity.
Qed.

Lemma len_strftime_HMS t : len (strftime t fmt_HMS) = 6.
Proof.
  unfold strftime, fmt_HMS, len. cbn [map concat format_directive].
  rewrite !length_app, !length_zfill. reflexivity.
Qed.

Lemma adif_field_date (name : pystr) t :
  str "<" ++ name ++ str ":8>" ++ strftime t fmt_Ymd
  = adif_field name (strftime t fmt_Ymd).
Proof. unfold adif_field. rewrite len_strftime_Ymd. reflexivity. Qed.

Lemma adif_field_time (name : pystr) t :
  str "<" ++ name ++ str ":6>" ++ strftime t fmt_HMS
  = adif_field name (strftime t fmt_HMS).
Proof. unfold adif_field. rewrite len_strftime_HMS. reflexivity. Qed.

Lemma field_ok name value : adif_field_ok (adif_field name value).
Proof. exists name, value. reflexivity. Qed.

Lemma date_ok (name : pystr) t :
  adif_field_ok (str "<" ++ name ++ str ":8>" ++ strftime t fmt_Ymd).
Proof. rewrite adif_field_date. apply field_ok. Qed.

Lemma time_ok (name : pystr) t :
  adif_field_ok (str "<" ++ name ++ str ":6>" ++ strftime t fmt_HMS).
Proof. rewrite adif_field_time. apply field_ok. Qed.

Lemma opt_field_ok name value : Forall adif_field_ok (opt_field name value).
Proof.
  unfold opt_field. destruct value; repeat constructor. apply field_ok.
Qed.

Lemma n1mm_time_fields_ok q fs :
  n1mm_time_fields q = Ok fs -> Forall adif_field_ok fs.
Proof.
  unfold n1mm_time_fields. destruct (datetime_off q) as [base|].
  - destruct (seconds_delta _) as [delta|]; [|discriminate]. cbn [bind].
    destruct (datetime_add base delta) as [t|]; [|discriminate]. cbn [bind].
    intros [= <-]. repeat constructor.
    + exact (date_ok (str "qso_date") t).
    + exact (time_ok (str "time_on") t).
    + exact (time_ok (str "time_off") t).
  - intros [= <-]. constructor.
Qed.

Lemma Ok_inj {A} (a b : A) : Ok a = Ok b -> a = b.
Proof. intros [= ->]. reflexivity. Qed.

(** Property X17.  Every field of the record that is sent to N1MM+ declares the
    length of its value as the value has it, the date and time fields with
    their fixed lengths 8 and 6 included; the record begins with the call,
    ends with the end-of-record mark and is closed by CR LF. *)
Theorem n1mm_record_well_formed (env : Env) (q : QsoData) (record : pystr) :
  _build_adif_for_n1mm env q = Ok record ->
  exists fields,
    record = join (str " ") (fields ++ [str "<eor>"]) ++ [13; 10]
    /\ Forall adif_field_ok fields
    /\ head fields = Some (adif_field (str "call") (dx_call q)).
Proof.
  unfold _build_adif_for_n1mm, n1mm_fields. cbv zeta.
  destruct (n1mm_time_fields q) as [tf|] eqn:Et; [|discriminate].
  unfold bind. cbv beta iota. intros H. apply Ok_inj in H. subst record.
  apply n1mm_time_fields_ok in Et.
  exists ([adif_field (str "call") (dx_call q)]
          ++ match or_else (dx_grid q) [] with
             | [] => []
             | _ => [adif_field (str "gridsquare") (or_else (dx_grid q) [])]
             end
          ++ [adif_field (str "mode") (mode q);
              adif_field (str "rst_sent") (or_else (report_sent q) (str "-10"));
              adif_field (str "rst_rcvd") (or_else (report_rcvd q) (str "-10"));
              adif_field (str "freq") (fmt_mhz env 6 (freq_hz q));
              adif_field (str "band") (_band_to_n1mm_format env (band q))]
          ++ tf).
  split; [|split].
  - rewrite <- !app_assoc. reflexivity.
  - repeat (apply Forall_app; split); try exact Et.
    + repeat constructor. apply field_ok.
    + destruct (or_else (dx_grid q) []); repeat constructor. apply field_ok.
    + repeat constructor; apply field_ok.
  - reflexivity.
Qed.

Lemma n1mm_record_well_formed_witness :
  exists fields,
    str "<call:4>W1AW <gridsquare:4>FN31 <mode:3>FT8 <rst_sent:3>-10 <rst_rcvd:3>-12 <freq:8>50313000 <band:2>6M <qso_date:8>20250614 <time_on:6>183015 <time_off:6>183015 <eor>"
    ++ [13; 10]
    = join (str " ") (fields ++ [str "<eor>"]) ++ [13; 10]
    /\ Forall adif_field_ok fields
    /\ head fields = Some (adif_field (str "call") (dx_call w1aw_6m)).
Proof.
  apply (n1mm_record_well_formed plain_env w1aw_6m). reflexivity.
Defined.

(** Property X18.  Every field of the record of the ADIF backup declares the
    length of its value as the value has it: the fields built from the
    contact, the date and time fields with their fixed lengths, and the
    fields written out in the source (the rover fields, the QSL defaults,
    the program id).  The record begins with the call and ends with the
    end-of-record mark. *)
Theorem adif_record_well_formed (env : Env) (isdigit : Z -> bool) (q : QsoData) :
  Forall adif_field_ok (adif_record_fields env isdigit q)
  /\ head (adif_record_fields env isdigit q)
     = Some (adif_field (str "call") (dx_call q))
  /\ _build_adif_record env isdigit q
     = join (str " ") (adif_record_fields env isdigit q ++ [str "<eor>"]).
Proof.
  split; [|split; reflexivity].
  unfold adif_record_fields. cbv zeta.
  repeat (apply Forall_app; split); try apply opt_field_ok.
  - repeat constructor. apply field_ok.
  - destruct (datetime_on q) as [t|]; repeat constructor.
    + exact (date_ok (str "qso_date") t).
    + exact (time_ok (str "time_on") t).
  - destruct (datetime_off q) as [t|]; repeat constructor.
    + exact (date_ok (str "qso_date_off") t).
    + exact (time_ok (str "time_off") t).
  - repeat constructor; apply field_ok.
  - destruct (get_or q "contest_id" []); repeat constructor. apply field_ok.
  - destruct (is_rover_call env (dx_call q)); [|constructor].
    apply Forall_app. split; [|apply opt_field_ok].
    repeat constructor.
    + exact (field_ok (str "dxcc") (str "291")).
    + exact (field_ok (str "cqz") (str "4")).
    + exact (field_ok (str "ituz") (str "7")).
    + exact (field_ok (str "country") (str "United States")).
  - destruct (my_call q); repeat constructor; apply field_ok.
  - repeat constructor; apply field_ok.
  - repeat constructor.
    + exact (field_ok (str "qsl_sent") (str "N")).
    + exact (field_ok (str "qsl_rcvd") (str "N")).
    + exact (field_ok (str "lotw_qsl_sent") (str "N")).
    + exact (field_ok (str "lotw_qsl_rcvd") (str "N")).
    + exact (field_ok (str "qso_complete") (str "Y")).
    + exact (field_ok (str "programid") (str "N5ZY-CoPilot")).
  - repeat constructor. apply field_ok.
Qed.

(** ** The prefix of a callsign *)

Lemma up_to_digit_Some isdigit s prefix :
  up_to_digit isdigit s = Some prefix ->
  exists letters d rest,
    s = letters ++ d :: rest /\ isdigit d = true
    /\ Forall (fun c => isdigit c = false) letters
    /\ prefix = letters ++ [d].
Proof.
  revert prefix. induction s as [|c s IH]; intros prefix; cbn [up_to_digit].
  - discriminate.
  - destruct (isdigit c) eqn:Ec.
    + intros [= <-]. exists [], c, s. repeat split; [exact Ec | constructor].
    + destruct (up_to_digit isdigit s) as [p|]; [|discriminate].
      intros [= <-].
      destruct (IH p eq_refl) as (letters & d & rest & -> & Hd & Hl & ->).
      exists (c :: letters), d, rest. repeat split; [exact Hd|].
      constructor; assumption.
Qed.

Lemma up_to_digit_None isdigit s :
  up_to_digit isdigit s = None -> Forall (fun c => isdigit c = false) s.
Proof.
  induction s as [|c s IH]; cbn [up_to_digit]; [constructor|].
  destruct (isdigit c) eqn:Ec; [discriminate|].
  destruct (up_to_digit isdigit s); [discriminate|].
  intros _. constructor; [exact Ec | apply IH; reflexivity].
Qed.

(** Property X19.  The prefix that [_derive_prefix] gives for a callsign is taken
    from the part before the first stroke, in capitals: it is that part up
    to its first digit, the digit included ([N5] for [N5ZY/R]), and the
    whole part when it has no digit.  The empty callsign has the empty
    prefix. *)
Theorem derive_prefix_spec (env : Env) (isdigit : Z -> bool) (callsign : pystr) :
  callsign <> [] ->
  let base_call := str_upper env (split_head 47 callsign) in
  let prefix := _derive_prefix env isdigit callsign in
  _derive_prefix env isdigit [] = []
  /\ ((Forall (fun c => isdigit c = false) base_call /\ prefix = base_call)
      \/ (exists letters d rest,
            base_call = letters ++ d :: rest /\ isdigit d = true
            /\ Forall (fun c => isdigit c = false) letters
            /\ prefix = letters ++ [d])).
Proof.
  intros Hne base_call prefix. split; [reflexivity|].
  subst prefix. unfold _derive_prefix.
  destruct callsign as [|c s]; [contradiction|]. cbv zeta. fold base_call.
  destruct (up_to_digit isdigit base_call) as [p|] eqn:E.
  - right. apply up_to_digit_Some. exact E.
  - left. split; [apply up_to_digit_None; exact E | reflexivity].
Qed.

Lemma derive_prefix_spec_witness :
  let base_call := str_upper ascii_env (split_head 47 (str "n5zy/r")) in
  let prefix := _derive_prefix ascii_env ascii_isdigit (str "n5zy/r") in
  _derive_prefix ascii_env ascii_isdigit [] = []
  /\ ((Forall (fun c => ascii_isdigit c = false) base_call
       /\ prefix = base_call)
      \/ (exists letters d rest,
            base_call = letters ++ d :: rest /\ ascii_isdigit d = true
            /\ Forall (fun c => ascii_isdigit c = false) letters
            /\ prefix = letters ++ [d])).
Proof.
  apply (derive_prefix_spec ascii_env ascii_isdigit (str "n5zy/r")).
  discriminate.
Defined.

(** ** Contest names *)

Lemma ascii_upper_contest_ids env :
  (forall s, Forall (fun c => 0 <= c < 128) s -> str_upper env s = ascii_upper s) ->
  forall id,
    In id [ str "ARRL-VHF-JAN"; str "ARRL-VHF-JUN"; str "ARRL-VHF-SEP";
            str "ARRL-222"; str "ARRL-UHF-AUG"; str "CSVHF-SPRINT";
            str "OK-QSO-PARTY"; str "CQ-VHF" ] ->
    map_contest_id env id = id.
Proof.
  intros H id Hin. cbn [In] in Hin.
  repeat (destruct Hin as [<-|Hin]); [..|contradiction];
    unfold map_contest_id;
    (rewrite H by (repeat constructor; lia)); reflexivity.
Qed.

(** Property X20.  Mapping a contest name is idempotent: each of the eight ADIF
    contest ids that [map_contest_id] gives is mapped to itself, and a
    name that it leaves as it is stays as it is.  ([upper] is taken to act
    on ASCII text as Python's does.) *)
Theorem map_contest_id_idempotent (env : Env) (contest_name : pystr) :
  (forall s, Forall (fun c => 0 <= c < 128) s -> str_upper env s = ascii_upper s) ->
  map_contest_id env (map_contest_id env contest_name)
  = map_contest_id env contest_name.
Proof.
  intros H. pose proof (ascii_upper_contest_ids env H) as Fix.
  destruct contest_name as [|c s]; [reflexivity|].
  remember (c :: s) as name eqn:En.
  assert (Hm : map_contest_id env name
               = let up := str_upper env name in
                 if contains (str "VHF") up && contains (str "JAN") up
                 then str "ARRL-VHF-JAN"
                 else if contains (str "VHF") up && contains (str "JUN") up
                 then str "ARRL-VHF-JUN"
                 else if contains (str "VHF") up && contains (str "SEP") up
                 then str "ARRL-VHF-SEP"
                 else if contains (str "222") up then str "ARRL-222"
                 else if contains (str "UHF") up then str "ARRL-UHF-AUG"
                 else if contains (str "SPRINT") up then str "CSVHF-SPRINT"
                 else if contains (str "OK") up && contains (str "QSO") up
                 then str "OK-QSO-PARTY"
                 else if contains (str "CQ") up && contains (str "VHF") up
                 then str "CQ-VHF"
                 else name)
    by (subst name; reflexivity).
  cbv zeta in Hm.
  repeat match type of Hm with
  | _ = (if ?b then _ else _) =>
    destruct b; [rewrite Hm; apply Fix; cbn [In]; tauto|]
  end.
  rewrite Hm. exact Hm.
Qed.

Lemma map_contest_id_idempotent_witness :
  map_contest_id ascii_env (map_contest_id ascii_env (str "ARRL June VHF"))
  = map_contest_id ascii_env (str "ARRL June VHF").
Proof.
  apply (map_contest_id_idempotent ascii_env (str "ARRL June VHF")).
  intros s _. reflexivity.
Defined.

(** ** The ADIF backup file *)

Lemma append_to_same (files : Files) name text :
  dict_get (append_to files name text) name
  = Some (match dict_get files name with
          | Some old => old ++ text
          | None => text
          end).
Proof.
  unfold append_to. destruct (dict_get files name); apply dict_get_set_eq.
Qed.

Lemma append_to_other (files : Files) name text other :
  other <> name ->
  dict_get (append_to files name text) other = dict_get files other.
Proof.
  intros H. unfold append_to.
  destruct (dict_get files name); apply dict_get_set_ne; exact H.
Qed.

Lemma adif_write_same env isdigit (files : Files) w :
  dict_get (adif_write env isdigit files w) (adif_name (write_clock w))
  = Some (match dict_get files (adif_name (write_clock w)) with
          | Some old => old ++ adif_line env isdigit w
          | None =>
            match w with
            | WriteQso _ created _ => adif_header created
            | AppendLogged _ _ => []
            end ++ adif_line env isdigit w
          end).
Proof.
  destruct w as [now created q|now record];
    cbn [adif_write write_clock adif_line].
  - unfold _write_qso_to_adif. cbv zeta.
    destruct (dict_get files (adif_name now)) as [old|] eqn:E.
    + rewrite append_to_same, E. reflexivity.
    + rewrite append_to_same, append_to_same, E. reflexivity.
  - unfold append_adif_logged. rewrite append_to_same.
    destruct (dict_get files (adif_name now)); reflexivity.
Qed.

Lemma adif_write_other env isdigit (files : Files) w other :
  other <> adif_name (write_clock w) ->
  dict_get (adif_write env isdigit files w) other = dict_get files other.
Proof.
  intros H. destruct w as [now created q|now record];
    cbn [adif_write write_clock] in *.
  - unfold _write_qso_to_adif. cbv zeta.
    destruct (dict_get files (adif_name now));
      rewrite ?append_to_other by exact H; reflexivity.
  - unfold append_adif_logged. apply append_to_other. exact H.
Qed.

Lemma adif_writes_of_a_day env isdigit name ws : forall (files : Files) text,
  dict_get files name = Some text ->
  Forall (fun w => adif_name (write_clock w) = name) ws ->
  dict_get (adif_writes_all env isdigit files ws) name
  = Some (text ++ concat (map (adif_line env isdigit) ws)).
Proof.
  induction ws as [|w ws IH]; intros files text Hf Hd.
  - cbn. rewrite app_nil_r. exact Hf.
  - apply Forall_cons in Hd as [Hw Hd].
    unfold adif_writes_all in *. cbn [fold_left map concat].
    rewrite (IH _ (text ++ adif_line env isdigit w)); [|
      rewrite <- Hw, adif_write_same, Hw, Hf; reflexivity | exact Hd].
    rewrite <- app_assoc. reflexivity.
Qed.

Lemma adif_writes_other_files env isdigit name other ws : forall files : Files,
  other <> name ->
  Forall (fun w => adif_name (write_clock w) = name) ws ->
  dict_get (adif_writes_all env isdigit files ws) other = dict_get files other.
Proof.
  induction ws as [|w ws IH]; intros files Hne Hd.
  - reflexivity.
  - apply Forall_cons in Hd as [Hw Hd].
    unfold adif_writes_all in *. cbn [fold_left].
    rewrite IH by assumption. apply adif_write_other. rewrite Hw. exact Hne.
Qed.

(** Property X21.  The file of a day gets its header once, at its beginning, and
    only from [_write_qso_to_adif]: when the first write of the day is a
    contact, the file is the header followed by the records in the order
    of the writes, one to a line; when the first write is the raw ADIF of
    an ADIF Logged message the file is created without a header and never
    gets one.  The other files of the directory are not touched. *)
Theorem adif_file_of_the_day (env : Env) (isdigit : Z -> bool) (files : Files)
    (name : pystr) (w : AdifWrite) (ws : list AdifWrite) :
  dict_get files name = None ->
  Forall (fun w => adif_name (write_clock w) = name) (w :: ws) ->
  let files' := adif_writes_all env isdigit files (w :: ws) in
  dict_get files' name
  = Some (match w with
          | WriteQso _ created _ => adif_header created
          | AppendLogged _ _ => []
          end ++ concat (map (adif_line env isdigit) (w :: ws)))
  /\ (forall other, other <> name ->
        dict_get files' other = dict_get files other).
Proof.
  intros Hf Hd files'. subst files'. split.
  - apply Forall_cons in Hd as [Hw Hd].
    unfold adif_writes_all. cbn [fold_left map concat].
    pose proof (adif_write_same env isdigit files w) as S.
    rewrite Hw, Hf in S.
    fold (adif_writes_all env isdigit (adif_write env isdigit files w) ws).
    rewrite (adif_writes_of_a_day env isdigit name ws _ _ S Hd).
    rewrite <- app_assoc. reflexivity.
  - intros other Hne. apply (adif_writes_other_files env isdigit name);
      assumption.
Qed.

Lemma adif_file_of_the_day_witness :
  let now := mk_datetime 2025 6 14 18 30 20 0 in
  let w := WriteQso now now w1aw_6m in
  let ws := [AppendLogged now (str "<call:4>W1AW <eor>")] in
  let files' := adif_writes_all ascii_env ascii_isdigit [] (w :: ws) in
  dict_get files' (str "n5zy_copilot_20250614.adi")
  = Some (adif_header now
          ++ concat (map (adif_line ascii_env ascii_isdigit) (w :: ws)))
  /\ (forall other, other <> str "n5zy_copilot_20250614.adi" ->
        dict_get files' other = dict_get [] other).
Proof.
  apply (adif_file_of_the_day ascii_env ascii_isdigit []
           (str "n5zy_copilot_20250614.adi")
           (WriteQso (mk_datetime 2025 6 14 18 30 20 0)
              (mk_datetime 2025 6 14 18 30 20 0) w1aw_6m)
           [AppendLogged (mk_datetime 2025 6 14 18 30 20 0)
              (str "<call:4>W1AW <eor>")]).
  - reflexivity.
  - repeat constructor.
Defined.

Lemma adif_write_grows env isdigit (files : Files) w name text :
  dict_get files name = Some text ->
  exists more,
    dict_get (adif_write env isdigit files w) name = Some (text ++ more).
Proof.
  intros Hf. destruct (decide (name = adif_name (write_clock w))) as [->|N].
  - rewrite adif_write_same, Hf. eauto.
  - rewrite adif_write_other by exact N. exists []. rewrite app_nil_r.
    exact Hf.
Qed.

(** Property X22.  The backup is only ever added to: whatever is written
    afterwards, on the same day or on later ones, by the contact handler
    or by the ADIF handler, a file of the log directory keeps the text it
    has and gets text at its end. *)
Theorem adif_backup_append_only (env : Env) (isdigit : Z -> bool)
    (files : Files) (ws : list AdifWrite) (name text : pystr) :
  dict_get files name = Some text ->
  exists more,
    dict_get (adif_writes_all env isdigit files ws) name = Some (text ++ more).
Proof.
  revert files text. induction ws as [|w ws IH]; intros files text Hf.
  - exists []. rewrite app_nil_r. exact Hf.
  - unfold adif_writes_all in *. cbn [fold_left].
    destruct (adif_write_grows env isdigit files w name text Hf) as [m1 H1].
    destruct (IH _ _ H1) as [m2 H2].
    exists (m1 ++ m2). rewrite H2, <- app_assoc. reflexivity.
Qed.

Lemma adif_backup_append_only_witness :
  exists more,
    dict_get
      (adif_writes_all ascii_env ascii_isdigit
         [(str "n5zy_copilot_20250614.adi", str "<call:4>K1JT <eor>" ++ [10])]
         [WriteQso (mk_datetime 2025 6 14 18 30 20 0)
            (mk_datetime 2025 6 14 18 30 20 0) w1aw_6m;
          WriteQso (mk_datetime 2025 6 15 0 0 1 0)
            (mk_datetime 2025 6 15 0 0 1 0) w1aw_6m])
      (str "n5zy_copilot_20250614.adi")
    = Some ((str "<call:4>K1JT <eor>" ++ [10]) ++ more).
Proof.
  apply (adif_backup_append_only ascii_env ascii_isdigit
           [(str "n5zy_copilot_20250614.adi", str "<call:4>K1JT <eor>" ++ [10])]).
  reflexivity.
Defined.
